(** * Kido gesture recogniser: a shallow embedding and its properties

    The development follows [src/gesture_recognizer.py], [src/hand_tracker.py],
    [src/fusion_controller.py], [src/main.py] and [src/config.py].

    Modelling conventions.
    - Python [float] values are real numbers ([R]): rounding, NaN and
      infinities are outside the model.  The comparisons the source writes
      ([<], [>]) are the boolean tests [flt] and [fgt].
    - Of the float operations the source uses, [** 2] is the one that raises
      on finite operands: [OverflowError] when the square is out of the float
      range.  Sums, differences, products, quotients, [math.sqrt] and
      [math.hypot] raise nothing; where a float result would be an infinity
      the model carries the real number, so what is stated about values, and
      about the loop that hands them to [int], is stated for snapshots whose
      distances ([finite_distances]) or coordinates ([bounded]) keep every
      intermediate result within the float range.
    - Python exceptions are explicit: a computation of type [Py A] either
      raises ([inl]) or returns ([inr]).  List indexing raises [IndexError]
      out of range, float division raises [ZeroDivisionError] on a zero
      divisor, arithmetic on [None] raises [TypeError], [** 2] raises
      [OverflowError].
    - The recogniser object is a record passed explicitly; each method takes
      the object and returns the updated one next to its result.
    - [time.perf_counter()] is an input: [update] receives the reading taken
      inside [_classify] and the reading taken before the history append.
    - The mouse is an output: each method of the controller returns the calls
      it makes on the pynput mouse controller, in order, and [act] receives
      the clock reading taken in [_do_zoom].
    - The tracker is an input of the main loop: each pass receives what
      [tracker.latest()] returns; the loop is left between two passes or by
      an exception of [update]. *)

From Stdlib Require Import String Reals Lra Lia ZArith Bool List Sorted.
Import ListNotations.

Open Scope R_scope.

(** ** Python exceptions and the error monad *)

Inductive PyError : Set :=
| IndexError
| ZeroDivisionError
| TypeError
| OverflowError.

Definition Py (A : Type) : Type := (PyError + A)%type.

Definition ret {A : Type} (a : A) : Py A := inr a.

Definition raise {A : Type} (e : PyError) : Py A := inl e.

Definition bind {A B : Type} (m : Py A) (k : A -> Py B) : Py B :=
  match m with
  | inl e => inl e
  | inr a => k a
  end.

Notation "x <- m ;; k" := (bind m (fun x => k))
  (at level 61, m at next level, right associativity).
Notation "' p <- m ;; k" := (bind m (fun p => k))
  (at level 61, p pattern, m at next level, right associativity).

(** A computation returns normally when it does not raise. *)
Definition returns {A : Type} (m : Py A) : Prop := exists a, m = inr a.

(** ** Float and list primitives *)

Definition flt (a b : R) : bool := if Rlt_dec a b then true else false.

Definition fgt (a b : R) : bool := flt b a.

(** [a / b] on floats. *)
Definition py_div (a b : R) : Py R :=
  if Req_dec_T b 0 then raise ZeroDivisionError else ret (a / b).

(** [min(a, b)] and [max(a, b)]: the first argument is kept unless the second
    is strictly smaller (larger). *)
Definition py_min (a b : R) : R := if flt b a then b else a.

Definition py_max (a b : R) : R := if fgt b a then b else a.

(** [sum(xs)]: a left fold that starts from [0]. *)
Definition py_sum (xs : list R) : R := fold_left Rplus xs 0.

(** [xs[i]] for a non-negative index. *)
Definition getitem {A : Type} (xs : list A) (i : nat) : Py A :=
  match nth_error xs i with
  | Some v => ret v
  | None => raise IndexError
  end.

(** [xs[-1]]. *)
Definition getlast {A : Type} (xs : list A) : Py A :=
  match rev xs with
  | v :: _ => ret v
  | [] => raise IndexError
  end.

(** A value that may be [None], used as an operand of float arithmetic. *)
Definition operand (o : option R) : Py R :=
  match o with
  | Some v => ret v
  | None => raise TypeError
  end.

Fixpoint mapM {A B : Type} (f : A -> Py B) (xs : list A) : Py (list B) :=
  match xs with
  | [] => ret []
  | a :: rest =>
      b <- f a ;;
      bs <- mapM f rest ;;
      ret (b :: bs)
  end.

(** ** config.py *)

Module cfg.
Definition GESTURE_CONFIDENCE_FRAMES : Z := 3.
Definition ORBIT_DEAD_ZONE : R := 0.015.
Definition ZOOM_SPEED_THRESHOLD : R := 0.8.
Definition EMA_ALPHA : R := 0.45.
Definition CAPTURE_WIDTH : Z := 640.
Definition CAPTURE_HEIGHT : Z := 480.
Definition ORBIT_SENSITIVITY_X : R := 2.5.
Definition ORBIT_SENSITIVITY_Y : R := 2.5.
Definition ZOOM_IN_SCROLL : Z := 3.
Definition ZOOM_OUT_SCROLL : Z := -3.
Definition ZOOM_SCROLL_INTERVAL : R := 0.05.
End cfg.

(** ** hand_tracker.py: landmarks and hand snapshots *)

Module Landmark.
Record t : Set := mk { x : R; y : R; z : R }.
End Landmark.

Record HandData : Set := mkHandData {
  landmarks : list Landmark.t;
  handedness : string;
  timestamp : R
}.

Definition tip_ids : list nat := [4; 8; 12; 16; 20]%nat.

Definition mcp_ids : list nat := [2; 5; 9; 13; 17]%nat.

(** [HandData.fingertip_center]: the mean of the five fingertips. *)
Definition fingertip_center (hand : HandData) : Py (R * R * R) :=
  tips <- mapM (getitem (landmarks hand)) tip_ids ;;
  cx <- py_div (py_sum (map Landmark.x tips)) 5 ;;
  cy <- py_div (py_sum (map Landmark.y tips)) 5 ;;
  cz <- py_div (py_sum (map Landmark.z tips)) 5 ;;
  ret (cx, cy, cz).

(** ** gesture_recognizer.py *)

Inductive Gesture : Set :=
| IDLE
| ORBIT
| ZOOM_IN
| ZOOM_OUT.

Definition Gesture_eqb (a b : Gesture) : bool :=
  match a, b with
  | IDLE, IDLE | ORBIT, ORBIT | ZOOM_IN, ZOOM_IN | ZOOM_OUT, ZOOM_OUT => true
  | _, _ => false
  end.

Definition Payload : Set := option (R * R).

(** The fields of a [GestureRecogniser] object.  The openness history is a
    [deque(maxlen=10)] of [(time, openness)] pairs, oldest first. *)
Record GestureRecogniser : Set := mkRecogniser {
  _smooth_x : option R;
  _smooth_y : option R;
  _smooth_z : option R;
  _prev_x : option R;
  _prev_y : option R;
  _openness_history : list (R * R);
  _last_openness : option R;
  _last_openness_time : R;
  _gesture_streak : Z;
  _current_gesture : Gesture;
  _candidate : Gesture;
  _last_zoom_time : R;
  _zoom_end_time : R
}.

Definition _ORBIT_AFTER_ZOOM_COOLDOWN : R := 0.3.

Definition history_maxlen : nat := 10.

(** [GestureRecogniser.__init__]: the fresh recogniser. *)
Definition __init__ : GestureRecogniser :=
  {| _smooth_x := None; _smooth_y := None; _smooth_z := None;
     _prev_x := None; _prev_y := None;
     _openness_history := [];
     _last_openness := None;
     _last_openness_time := 0;
     _gesture_streak := 0%Z;
     _current_gesture := IDLE;
     _candidate := IDLE;
     _last_zoom_time := 0;
     _zoom_end_time := 0 |}.

(** Attribute assignments. *)
Definition set_smooth (s : GestureRecogniser) (sx sy sz : option R) :=
  {| _smooth_x := sx; _smooth_y := sy; _smooth_z := sz;
     _prev_x := _prev_x s; _prev_y := _prev_y s;
     _openness_history := _openness_history s;
     _last_openness := _last_openness s;
     _last_openness_time := _last_openness_time s;
     _gesture_streak := _gesture_streak s;
     _current_gesture := _current_gesture s;
     _candidate := _candidate s;
     _last_zoom_time := _last_zoom_time s;
     _zoom_end_time := _zoom_end_time s |}.

Definition set_prev (s : GestureRecogniser) (px py : option R) :=
  {| _smooth_x := _smooth_x s; _smooth_y := _smooth_y s;
     _smooth_z := _smooth_z s;
     _prev_x := px; _prev_y := py;
     _openness_history := _openness_history s;
     _last_openness := _last_openness s;
     _last_openness_time := _last_openness_time s;
     _gesture_streak := _gesture_streak s;
     _current_gesture := _current_gesture s;
     _candidate := _candidate s;
     _last_zoom_time := _last_zoom_time s;
     _zoom_end_time := _zoom_end_time s |}.

Definition set_history (s : GestureRecogniser) (h : list (R * R)) :=
  {| _smooth_x := _smooth_x s; _smooth_y := _smooth_y s;
     _smooth_z := _smooth_z s;
     _prev_x := _prev_x s; _prev_y := _prev_y s;
     _openness_history := h;
     _last_openness := _last_openness s;
     _last_openness_time := _last_openness_time s;
     _gesture_streak := _gesture_streak s;
     _current_gesture := _current_gesture s;
     _candidate := _candidate s;
     _last_zoom_time := _last_zoom_time s;
     _zoom_end_time := _zoom_end_time s |}.

Definition set_last_openness (s : GestureRecogniser) (o : R) (t : R) :=
  {| _smooth_x := _smooth_x s; _smooth_y := _smooth_y s;
     _smooth_z := _smooth_z s;
     _prev_x := _prev_x s; _prev_y := _prev_y s;
     _openness_history := _openness_history s;
     _last_openness := Some o;
     _last_openness_time := t;
     _gesture_streak := _gesture_streak s;
     _current_gesture := _current_gesture s;
     _candidate := _candidate s;
     _last_zoom_time := _last_zoom_time s;
     _zoom_end_time := _zoom_end_time s |}.

Definition set_hysteresis (s : GestureRecogniser)
    (cand : Gesture) (streak : Z) (cur : Gesture) :=
  {| _smooth_x := _smooth_x s; _smooth_y := _smooth_y s;
     _smooth_z := _smooth_z s;
     _prev_x := _prev_x s; _prev_y := _prev_y s;
     _openness_history := _openness_history s;
     _last_openness := _last_openness s;
     _last_openness_time := _last_openness_time s;
     _gesture_streak := streak;
     _current_gesture := cur;
     _candidate := cand;
     _last_zoom_time := _last_zoom_time s;
     _zoom_end_time := _zoom_end_time s |}.

Definition set_zoom_end_time (s : GestureRecogniser) (t : R) :=
  {| _smooth_x := _smooth_x s; _smooth_y := _smooth_y s;
     _smooth_z := _smooth_z s;
     _prev_x := _prev_x s; _prev_y := _prev_y s;
     _openness_history := _openness_history s;
     _last_openness := _last_openness s;
     _last_openness_time := _last_openness_time s;
     _gesture_streak := _gesture_streak s;
     _current_gesture := _current_gesture s;
     _candidate := _candidate s;
     _last_zoom_time := _last_zoom_time s;
     _zoom_end_time := t |}.

(** [deque.append] with [maxlen]: the oldest entry is dropped on overflow. *)
Definition deque_append {A : Type} (maxlen : nat) (d : list A) (a : A) : list A :=
  let d' := d ++ [a] in
  if (maxlen <? length d')%nat then tl d' else d'.

(** The largest finite float. *)
Definition float_max : R := 1.7976931348623157e308.

(** [x ** 2] on a finite float: [OverflowError] when the square is out of
    range. *)
Definition py_pow2 (x : R) : Py R :=
  if fgt (x ^ 2) float_max then raise OverflowError else ret (x ^ 2).

(** [_dist3]: the three squares are taken from left to right, each of them
    can raise. *)
Definition _dist3 (a b : Landmark.t) : Py R :=
  dx2 <- py_pow2 (Landmark.x a - Landmark.x b) ;;
  dy2 <- py_pow2 (Landmark.y a - Landmark.y b) ;;
  dz2 <- py_pow2 (Landmark.z a - Landmark.z b) ;;
  ret (sqrt (dx2 + dy2 + dz2)).

(** [math.hypot]. *)
Definition hypot (a b : R) : R := sqrt (a * a + b * b).

(** The [for] loop of [_hand_openness]: one iteration per finger, the ratios
    collected so far in [ratios]. *)
Fixpoint openness_loop (lms : list Landmark.t) (wrist : Landmark.t)
    (ids : list (nat * nat)) (ratios : list R) : Py (list R) :=
  match ids with
  | [] => ret ratios
  | (tip_i, mcp_i) :: rest =>
      tip <- getitem lms tip_i ;;
      mcp <- getitem lms mcp_i ;;
      d_tip <- _dist3 tip wrist ;;
      d_mcp <- _dist3 mcp wrist ;;
      if flt d_mcp 1e-6 then openness_loop lms wrist rest ratios
      else
        r <- py_div d_tip d_mcp ;;
        openness_loop lms wrist rest (ratios ++ [r])
  end.

Definition _hand_openness (hand : HandData) : Py R :=
  wrist <- getitem (landmarks hand) 0 ;;
  ratios <- openness_loop (landmarks hand) wrist (combine tip_ids mcp_ids) [] ;;
  match ratios with
  | [] => ret 0
  | _ :: _ =>
      avg <- py_div (py_sum ratios) (INR (length ratios)) ;;
      q <- py_div (avg - 0.6) 1.0 ;;
      ret (py_max 0 (py_min 1 q))
  end.

(** [_openness_speed]. *)
Definition _openness_speed (s : GestureRecogniser) : Py (option R) :=
  if (length (_openness_history s) <? 4)%nat then ret None
  else
    '(t0, o0) <- getitem (_openness_history s) 0 ;;
    '(t1, o1) <- getlast (_openness_history s) ;;
    let dt := t1 - t0 in
    if flt dt 0.05 then ret None
    else
      v <- py_div (o1 - o0) dt ;;
      ret (Some v).

(** [_ema]. *)
Definition _ema (s : GestureRecogniser) (x y z : R)
    : Py (GestureRecogniser * (R * R * R)) :=
  let a := cfg.EMA_ALPHA in
  match _smooth_x s with
  | None => ret (set_smooth s (Some x) (Some y) (Some z), (x, y, z))
  | Some px =>
      let sx := a * x + (1 - a) * px in
      py <- operand (_smooth_y s) ;;
      let sy := a * y + (1 - a) * py in
      pz <- operand (_smooth_z s) ;;
      let sz := a * z + (1 - a) * pz in
      ret (set_smooth s (Some sx) (Some sy) (Some sz), (sx, sy, sz))
  end.

(** [_reset_smooth]. *)
Definition _reset_smooth (s : GestureRecogniser) : GestureRecogniser :=
  set_history (set_prev (set_smooth s None None None) None None) [].

(** [_set_gesture]: the confidence-frame hysteresis. *)
Definition _set_gesture (s : GestureRecogniser) (g : Gesture)
    : GestureRecogniser * Gesture :=
  let '(cand, streak) :=
    if Gesture_eqb g (_candidate s)
    then (_candidate s, (_gesture_streak s + 1)%Z)
    else (g, 1%Z) in
  let cur :=
    if (cfg.GESTURE_CONFIDENCE_FRAMES <=? streak)%Z
    then g else _current_gesture s in
  (set_hysteresis s cand streak cur, cur).

(** [return self._set_gesture(g), payload]. *)
Definition emit (s : GestureRecogniser) (g : Gesture) (p : Payload)
    : Py (GestureRecogniser * (Gesture * Payload)) :=
  let '(s', out) := _set_gesture s g in
  ret (s', (out, p)).

(** The speed-triggered zoom of [_classify]: the gesture returned at once
    when the openness speed is known and beyond the threshold. *)
Definition speed_zoom (speed : option R) : option Gesture :=
  match speed with
  | Some v =>
      if fgt v cfg.ZOOM_SPEED_THRESHOLD then Some ZOOM_IN
      else if flt v (- cfg.ZOOM_SPEED_THRESHOLD) then Some ZOOM_OUT
      else None
  | None => None
  end.

(** The test that stamps [_zoom_end_time]: the confirmed gesture is a zoom
    and the known speed has dropped below the threshold. *)
Definition zoom_ended (s : GestureRecogniser) (speed : option R) : bool :=
  (Gesture_eqb (_current_gesture s) ZOOM_IN
   || Gesture_eqb (_current_gesture s) ZOOM_OUT)
  && match speed with
     | Some v => flt (Rabs v) cfg.ZOOM_SPEED_THRESHOLD
     | None => false
     end.

(** [_classify].  [now] is the clock reading taken on entry. *)
Definition _classify (s : GestureRecogniser) (hand : HandData)
    (openness sx sy now : R) : Py (GestureRecogniser * (Gesture * Payload)) :=
  speed <- _openness_speed s ;;
  match speed_zoom speed with
  | Some g => emit s g None
  | None =>
      if Gesture_eqb (_current_gesture s) ZOOM_IN && fgt openness 0.7
      then emit s ZOOM_IN None
      else if Gesture_eqb (_current_gesture s) ZOOM_OUT && flt openness 0.3
      then emit s ZOOM_OUT None
      else
        let s1 := if zoom_ended s speed then set_zoom_end_time s now else s in
        if flt (now - _zoom_end_time s1) _ORBIT_AFTER_ZOOM_COOLDOWN
        then emit s1 IDLE None
        else if fgt openness 0.55 then
          match _prev_x s1 with
          | Some px =>
              let dx := sx - px in
              py <- operand (_prev_y s1) ;;
              let dy := sy - py in
              let dist := hypot dx dy in
              if fgt dist cfg.ORBIT_DEAD_ZONE
              then emit s1 ORBIT (Some (dx, dy))
              else emit s1 IDLE None
          | None => emit s1 IDLE None
          end
        else emit s1 IDLE None
  end.

(** [update].  [hand = None] is the absence of a hand; [now_classify] and
    [now_append] are the two clock readings of a presence tick. *)
Definition update (s : GestureRecogniser) (hand : option HandData)
    (now_classify now_append : R)
    : Py (GestureRecogniser * (Gesture * Payload)) :=
  match hand with
  | None =>
      let '(s', g) := _set_gesture (_reset_smooth s) IDLE in
      ret (s', (g, None))
  | Some hand =>
      openness <- _hand_openness hand ;;
      '(cx, cy, cz) <- fingertip_center hand ;;
      '(s1, (sx, sy, sz)) <- _ema s cx cy cz ;;
      '(s2, (gesture, payload)) <- _classify s1 hand openness sx sy now_classify ;;
      let s3 := set_prev s2 (Some sx) (Some sy) in
      let s4 := set_history s3
                  (deque_append history_maxlen (_openness_history s3)
                     (now_append, openness)) in
      let s5 := set_last_openness s4 openness now_append in
      ret (s5, (gesture, payload))
  end.

(** ** Traces *)

(** One call of [update]: no hand, or a hand with the two clock readings. *)
Inductive Tick : Set :=
| Absent
| Present (hand : HandData) (now_classify now_append : R).

Definition tick (s : GestureRecogniser) (t : Tick)
    : Py (GestureRecogniser * (Gesture * Payload)) :=
  match t with
  | Absent => update s None 0 0
  | Present hand t1 t2 => update s (Some hand) t1 t2
  end.

(** The ticks of a trace in order; the outputs are collected. *)
Fixpoint run (s : GestureRecogniser) (ts : list Tick)
    : Py (GestureRecogniser * list (Gesture * Payload)) :=
  match ts with
  | [] => ret (s, [])
  | t :: rest =>
      '(s1, out) <- tick s t ;;
      '(s2, outs) <- run s1 rest ;;
      ret (s2, out :: outs)
  end.

(** The states a recogniser can be in: [__init__], and what a returning call of
    [update] leaves. *)
Inductive reachable : GestureRecogniser -> Prop :=
| reachable_init : reachable __init__
| reachable_tick : forall s t s' out,
    reachable s -> tick s t = inr (s', out) -> reachable s'.

(** Feeding candidates straight into the hysteresis filter. *)
Definition feed (s : GestureRecogniser) (g : Gesture) : GestureRecogniser :=
  fst (_set_gesture s g).

Definition feed_all (s : GestureRecogniser) (gs : list Gesture)
    : GestureRecogniser :=
  fold_left feed gs s.

(** The confidence-frame count [N] as a number of ticks. *)
Definition confidence_frames : nat := Z.to_nat cfg.GESTURE_CONFIDENCE_FRAMES.

(** ** State invariants *)

(** The optional fields are unset in groups: the previous position as a
    pair, the smoothed position as a triple. *)
Definition unset_together (s : GestureRecogniser) : Prop :=
  (_prev_x s = None <-> _prev_y s = None)
  /\ (_smooth_x s = None <-> _smooth_y s = None)
  /\ (_smooth_y s = None <-> _smooth_z s = None).

(** What every return of [_classify] looks like.  It is the result of
    feeding a candidate [cand] to [_set_gesture] on a state [s1] that is the
    entry state [s], possibly with the zoom end stamped at [now]; the
    payload [p] is present exactly for candidate Orbit, which needs the
    cooldown to be over, an openness above 0.55 and a displacement beyond
    the dead zone. *)
Definition emitted (s : GestureRecogniser) (o sx sy now : R)
    (r : GestureRecogniser * (Gesture * Payload)) : Prop :=
  exists s1 cand p,
    r = (feed s1 cand, (_current_gesture (feed s1 cand), p))
    /\ (s1 = s
        \/ (s1 = set_zoom_end_time s now
            /\ (_current_gesture s = ZOOM_IN \/ _current_gesture s = ZOOM_OUT)))
    /\ (cand = ORBIT <-> p <> None)
    /\ (cand = ORBIT ->
        ~ now - _zoom_end_time s1 < _ORBIT_AFTER_ZOOM_COOLDOWN
        /\ 0.55 < o
        /\ exists px py,
             _prev_x s = Some px /\ _prev_y s = Some py
             /\ p = Some (sx - px, sy - py)
             /\ cfg.ORBIT_DEAD_ZONE < hypot (sx - px) (sy - py)).

(** The zoom-sustain test of [_classify]. *)
Definition sustain (s : GestureRecogniser) (openness : R) : bool :=
  (Gesture_eqb (_current_gesture s) ZOOM_IN && fgt openness 0.7)
  || (Gesture_eqb (_current_gesture s) ZOOM_OUT && flt openness 0.3).

(** What a snapshot must have for [update] not to index out of range. *)
Definition well_formed (t : Tick) : Prop :=
  match t with
  | Absent => True
  | Present hand _ _ => (21 <= length (landmarks hand))%nat
  end.

(** ** Clock readings and outputs of a trace *)

(** The reading [_classify] takes lies in [[lo, hi)] on every presence tick. *)
Definition classify_readings_in (lo hi : R) (ts : list Tick) : Prop :=
  Forall (fun t => match t with
                   | Absent => True
                   | Present _ now _ => lo <= now < hi
                   end) ts.

(** An output that is not Orbit and carries no payload. *)
Definition no_orbit (out : Gesture * Payload) : Prop :=
  fst out <> ORBIT /\ snd out = None.

(** ** Qualifying ticks *)

(** The openness speed [_classify] reads in state [s]; [None] is "unknown". *)
Definition speed_of (s : GestureRecogniser) : option R :=
  match _openness_speed s with
  | inr v => v
  | inl _ => None
  end.

(** Neither zoom rule of [_classify] fires: no speed-triggered zoom, no zoom
    sustain. *)
Definition zoom_silent (s : GestureRecogniser) (openness : R) : Prop :=
  speed_zoom (speed_of s) = None /\ sustain s openness = false.

(** The pose of an orbiting hand in state [s]: an openness [o] above 0.55,
    a previous position, and a smoothed fingertip centre that has moved from
    it by more than the dead zone. *)
Definition orbit_pose (s : GestureRecogniser) (hand : HandData) (o : R) : Prop :=
  exists cx cy cz s1 sx sy sz px py,
    _hand_openness hand = inr o
    /\ fingertip_center hand = inr (cx, cy, cz)
    /\ _ema s cx cy cz = inr (s1, (sx, sy, sz))
    /\ 0.55 < o
    /\ _prev_x s = Some px /\ _prev_y s = Some py
    /\ cfg.ORBIT_DEAD_ZONE < hypot (sx - px) (sy - py).

(** A snapshot qualifies for Orbit in state [s]: it has the pose and the
    zoom rules are silent. *)
Definition orbit_qualifying (s : GestureRecogniser) (hand : HandData) : Prop :=
  exists o, orbit_pose s hand o /\ zoom_silent s o.

(** The cooldown is over at reading [now]: the tick does not stamp the zoom
    end anew, and the stamp lies at least 0.3 s back. *)
Definition cooldown_over (s : GestureRecogniser) (now : R) : Prop :=
  zoom_ended s (speed_of s) = false
  /\ _ORBIT_AFTER_ZOOM_COOLDOWN <= now - _zoom_end_time s.

(** The openness speed is known and above the zoom threshold. *)
Definition opening_fast (s : GestureRecogniser) : Prop :=
  exists v, speed_of s = Some v /\ cfg.ZOOM_SPEED_THRESHOLD < v.

(** ** The estimators as the specification words them *)

(** Oldest and newest samples of the openness window and the time between
    them. *)
Definition oldest (h : list (R * R)) : R * R := hd (0, 0) h.

Definition newest (h : list (R * R)) : R * R := last h (0, 0).

Definition history_span (h : list (R * R)) : R := fst (newest h) - fst (oldest h).

(** The openness estimator of the specification: the mean tip/knuckle ratio
    of the fingers whose knuckle is at least [1e-6] from the wrist, mapped
    from [0.6, 1.6] onto [0, 1] and clamped; [0] when no finger survives. *)
Definition landmark_at (hand : HandData) (i : nat) : Landmark.t :=
  nth i (landmarks hand) (Landmark.mk 0 0 0).

Definition fingers : list (nat * nat) := combine tip_ids mcp_ids.

(** The Euclidean distance of two landmarks. *)
Definition dist (a b : Landmark.t) : R :=
  sqrt ((Landmark.x a - Landmark.x b) ^ 2
        + (Landmark.y a - Landmark.y b) ^ 2
        + (Landmark.z a - Landmark.z b) ^ 2).

Definition knuckle_dist (hand : HandData) (f : nat * nat) : R :=
  dist (landmark_at hand (snd f)) (landmark_at hand 0).

Definition finger_ratio (hand : HandData) (f : nat * nat) : R :=
  dist (landmark_at hand (fst f)) (landmark_at hand 0) / knuckle_dist hand f.

Definition survives (hand : HandData) (f : nat * nat) : bool :=
  if Rle_dec 1e-6 (knuckle_dist hand f) then true else false.

Definition mean (xs : list R) : R := fold_right Rplus 0 xs / INR (length xs).

Definition clamp01 (v : R) : R := Rmax 0 (Rmin 1 v).

Definition openness_spec (hand : HandData) : R :=
  match filter (survives hand) fingers with
  | [] => 0
  | fs => clamp01 ((mean (map (finger_ratio hand) fs) - 0.6) / 1.0)
  end.

(** ** Coordinates within the float range *)

(** The three coordinate differences of two landmarks have squares within
    the float range: [_dist3] does not overflow on them. *)
Definition dist_ok (a b : Landmark.t) : Prop :=
  (Landmark.x a - Landmark.x b) ^ 2 <= float_max
  /\ (Landmark.y a - Landmark.y b) ^ 2 <= float_max
  /\ (Landmark.z a - Landmark.z b) ^ 2 <= float_max.

(** The tip and the knuckle of finger [f] are within range of the wrist. *)
Definition finger_ok (hand : HandData) (f : nat * nat) : Prop :=
  dist_ok (landmark_at hand (fst f)) (landmark_at hand 0)
  /\ dist_ok (landmark_at hand (snd f)) (landmark_at hand 0).

(** A snapshot is in range when that holds for its five fingers: these are
    the distances [_hand_openness] takes. *)
Definition in_range (hand : HandData) : Prop :=
  Forall (finger_ok hand) fingers.

Definition in_range_tick (t : Tick) : Prop :=
  match t with
  | Absent => True
  | Present hand _ _ => in_range hand
  end.

(** The squared distance of two landmarks is within the float range: the
    sum under the square root of [_dist3] is finite. *)
Definition dist_finite (a b : Landmark.t) : Prop :=
  (Landmark.x a - Landmark.x b) ^ 2 + (Landmark.y a - Landmark.y b) ^ 2
  + (Landmark.z a - Landmark.z b) ^ 2 <= float_max.

Definition finger_finite (hand : HandData) (f : nat * nat) : Prop :=
  dist_finite (landmark_at hand (fst f)) (landmark_at hand 0)
  /\ dist_finite (landmark_at hand (snd f)) (landmark_at hand 0).

(** The ten distances [_hand_openness] takes are finite. *)
Definition finite_distances (hand : HandData) : Prop :=
  Forall (finger_finite hand) fingers.

(** Every coordinate of every landmark has magnitude at most [1e150]: no
    sum, difference or product the recogniser and the controller compute
    from such snapshots leaves the float range. *)
Definition coord_bound : R := 1e150.

Definition bounded_landmark (l : Landmark.t) : Prop :=
  Rabs (Landmark.x l) <= coord_bound
  /\ Rabs (Landmark.y l) <= coord_bound
  /\ Rabs (Landmark.z l) <= coord_bound.

Definition bounded (hand : HandData) : Prop :=
  Forall bounded_landmark (landmarks hand).

Definition bounded_tick (t : Tick) : Prop :=
  match t with
  | Absent => True
  | Present hand _ _ => bounded hand
  end.

(** ** Sample hands *)

(** A hand whose five fingertips all sit at [(cx, cy, 0)], with the wrist
    [r] below them and every knuckle at distance 1 from the wrist: each
    tip-to-knuckle ratio is [r]. *)
Definition hand_at (r cx cy : R) : HandData :=
  let wrist := Landmark.mk cx (cy + r) 0 in
  let mcp := Landmark.mk cx (cy + r - 1) 0 in
  let tip := Landmark.mk cx cy 0 in
  mkHandData
    [wrist; mcp; mcp; mcp; tip;
     mcp; mcp; mcp; tip;
     mcp; mcp; mcp; tip;
     mcp; mcp; mcp; tip;
     mcp; mcp; mcp; tip]
    "Right" 0.

(** The same hand, given by its openness [o] in [0, 1]. *)
Definition hand_of (o cx cy : R) : HandData := hand_at (o + 0.6) cx cy.

(** An open hand (openness 0.8) that appears at clock time 1 and drifts to
    the right by 0.1 per tick, followed by one tick without a hand. *)
Definition drifting_hand : list Tick :=
  [Present (hand_of 0.8 0.5 0.5) 1 1;
   Present (hand_of 0.8 0.6 0.5) 1.1 1.1;
   Present (hand_of 0.8 0.7 0.5) 1.2 1.2;
   Present (hand_of 0.8 0.8 0.5) 1.3 1.3;
   Absent].

(** A snapshot in which all 21 landmarks coincide. *)
Definition collapsed_hand : HandData :=
  mkHandData (repeat (Landmark.mk 0.5 0.5 0) 21) "Right" 0.


(** A snapshot of 21 landmarks that coincide, but for the thumb tip, which
    lies far off at [x = 1e200]. *)
Definition far_thumb_hand : HandData :=
  mkHandData
    (repeat (Landmark.mk 0.5 0.5 0) 4 ++ [Landmark.mk 1e200 0.5 0]
     ++ repeat (Landmark.mk 0.5 0.5 0) 16)
    "Right" 0.

(** The first three snapshots of [drifting_hand], fed while the clock is
    still below 0.3. *)
Definition early_drifting_hand : list Tick :=
  [Present (hand_of 0.8 0.5 0.5) 0.05 0.05;
   Present (hand_of 0.8 0.6 0.5) 0.15 0.15;
   Present (hand_of 0.8 0.7 0.5) 0.25 0.25].

(** A hand that opens fast right after start-up, from 0.2 to 0.9 within
    0.06 s, and stays open: all seven readings lie below 0.3. *)
Definition early_opening_hand : list Tick :=
  [Present (hand_of 0.2 0.5 0.5) 0.01 0.01;
   Present (hand_of 0.4 0.5 0.5) 0.03 0.03;
   Present (hand_of 0.7 0.5 0.5) 0.05 0.05;
   Present (hand_of 0.9 0.5 0.5) 0.07 0.07;
   Present (hand_of 0.9 0.5 0.5) 0.09 0.09;
   Present (hand_of 0.9 0.5 0.5) 0.11 0.11;
   Present (hand_of 0.9 0.5 0.5) 0.13 0.13].

(** A zoom-in and what follows it.  The hand stays at (0.5, 0.5) and opens
    from 0.2 to 0.9 within 0.1 s; three more ticks read that rise; the hand
    then rests half open while the speed over the window decays, the zoom
    ends, and the hand starts to drift to the right. *)
Definition opening_hand : list Tick :=
  [Present (hand_of 0.2 0.5 0.5) 10.00 10.00;
   Present (hand_of 0.4 0.5 0.5) 10.03 10.03;
   Present (hand_of 0.7 0.5 0.5) 10.07 10.07;
   Present (hand_of 0.9 0.5 0.5) 10.10 10.10].

Definition zoom_in_ticks : list Tick :=
  [Present (hand_of 0.9 0.5 0.5) 10.13 10.13;
   Present (hand_of 0.9 0.5 0.5) 10.16 10.16;
   Present (hand_of 0.9 0.5 0.5) 10.20 10.20].

Definition zoom_decay_ticks : list Tick :=
  [Present (hand_of 0.6 0.5 0.5) 11.00 11.00;
   Present (hand_of 0.6 0.5 0.5) 11.03 11.03;
   Present (hand_of 0.6 0.5 0.5) 11.10 11.10].

Definition zoom_end_hand : HandData := hand_of 0.6 0.5 0.5.

Definition cooldown_hand_1 : HandData := hand_of 0.6 0.6 0.5.

Definition cooldown_hand_2 : HandData := hand_of 0.6 0.7 0.5.

Definition cooldown_ticks : list Tick :=
  [Present cooldown_hand_1 11.30 11.30;
   Present cooldown_hand_2 11.40 11.40].

Definition orbit_hand_1 : HandData := hand_of 0.6 0.8 0.5.

Definition orbit_hand_2 : HandData := hand_of 0.6 0.9 0.5.

Definition orbit_hand_3 : HandData := hand_of 0.6 1.0 0.5.

(** The zoom scenario up to the tick that first stamps the zoom end, at
    clock 11.03 (the confirmed gesture is still ZoomIn), and a wide open hand
    that has drifted to the right. *)
Definition zoom_just_ended : list Tick :=
  opening_hand ++ zoom_in_ticks ++ firstn 2 zoom_decay_ticks.

Definition wide_open_drifting_hand : HandData := hand_of 0.8 0.6 0.5.

(** ** hand_tracker.py: the palm centre *)

(** [HandData.palm_center]: the mean of the wrist and the four finger
    knuckles. *)
Definition palm_ids : list nat := [0; 5; 9; 13; 17]%nat.

Definition palm_center (hand : HandData) : Py (R * R * R) :=
  pts <- mapM (getitem (landmarks hand)) palm_ids ;;
  cx <- py_div (py_sum (map Landmark.x pts)) (INR (length pts)) ;;
  cy <- py_div (py_sum (map Landmark.y pts)) (INR (length pts)) ;;
  cz <- py_div (py_sum (map Landmark.z pts)) (INR (length pts)) ;;
  ret (cx, cy, cz).

(** The same hand seen at another place and size: every landmark scaled by
    [k] and moved by [(dx, dy, dz)]. *)
Definition place (k dx dy dz : R) (p : Landmark.t) : Landmark.t :=
  Landmark.mk (k * Landmark.x p + dx) (k * Landmark.y p + dy)
    (k * Landmark.z p + dz).

Definition transform (k dx dy dz : R) (hand : HandData) : HandData :=
  mkHandData (map (place k dx dy dz) (landmarks hand))
    (handedness hand) (timestamp hand).

(** ** The openness window and the clock *)

(** Every buffered openness sample lies in [0, 1]. *)
Definition samples_in_unit (h : list (R * R)) : Prop :=
  Forall (fun e => 0 <= snd e <= 1) h.

(** A trace read off a clock that never runs backwards: starting from the
    reading [t0], each presence tick reads the clock in [_classify] and then
    in [update], no earlier than the reading before. *)
Fixpoint clock_monotone (t0 : R) (ts : list Tick) : Prop :=
  match ts with
  | [] => True
  | Absent :: rest => clock_monotone t0 rest
  | Present _ t1 t2 :: rest => t0 <= t1 <= t2 /\ clock_monotone t2 rest
  end.

(** The samples of a window are in the order of their timestamps. *)
Definition chronological (h : list (R * R)) : Prop :=
  StronglySorted Rle (map fst h).

(** The times kept in the state do not lie after its latest clock reading. *)
Definition clock_consistent (s : GestureRecogniser) : Prop :=
  chronological (_openness_history s)
  /\ Forall (fun e => fst e <= _last_openness_time s) (_openness_history s)
  /\ 0 <= _zoom_end_time s <= _last_openness_time s.

(** ** Hands that stay in place *)

(** Every presence tick of the trace shows a hand whose fingertip centre is
    [c]. *)
Definition centred_at (c : R * R * R) (ts : list Tick) : Prop :=
  Forall (fun t => match t with
                   | Absent => True
                   | Present hand _ _ => fingertip_center hand = inr c
                   end) ts.

(** The trace has a hand on every tick. *)
Definition all_present (ts : list Tick) : Prop :=
  Forall (fun t => t <> Absent) ts.



(** ** Hands of constant openness *)




(** ** fusion_controller.py *)

(** [int(x)] on a float: the fraction is cut off, towards zero. *)
Definition py_int (x : R) : Z :=
  if Rle_dec 0 x then Int_part x else (- Int_part (- x))%Z.

(** The calls made on the pynput mouse controller:
    [press(Button.middle)], [release(Button.middle)], [move(px, py)] and
    [scroll(dx, dy)]. *)
Inductive MouseCall : Set :=
| press_middle
| release_middle
| move (px py : Z)
| scroll (dx dy : Z).

(** [FusionController]: its two fields; every method returns the object it
    leaves and the mouse calls it made, in order.  [now] is the reading of
    [time.perf_counter()] taken in [_do_zoom]. *)
Module FusionController.

Record t : Set := mk { _orbiting : bool; _last_zoom_time : R }.

Definition __init__ : t := {| _orbiting := false; _last_zoom_time := 0 |}.

Definition _do_orbit (c : t) (delta : Payload) : t * list MouseCall :=
  match delta with
  | None => (c, [])
  | Some (dx, dy) =>
      let px := py_int (dx * IZR cfg.CAPTURE_WIDTH * cfg.ORBIT_SENSITIVITY_X) in
      let py := py_int (dy * IZR cfg.CAPTURE_HEIGHT * cfg.ORBIT_SENSITIVITY_Y) in
      let '(c1, calls) :=
        if negb (_orbiting c)
        then ({| _orbiting := true; _last_zoom_time := _last_zoom_time c |},
              [press_middle])
        else (c, []) in
      (c1, calls ++ [move px py])
  end.

Definition _end_orbit (c : t) : t * list MouseCall :=
  if _orbiting c
  then ({| _orbiting := false; _last_zoom_time := _last_zoom_time c |},
        [release_middle])
  else (c, []).

Definition _do_zoom (c : t) (ticks : Z) (now : R) : t * list MouseCall :=
  if flt (now - _last_zoom_time c) cfg.ZOOM_SCROLL_INTERVAL then (c, [])
  else ({| _orbiting := _orbiting c; _last_zoom_time := now |},
        [scroll 0 ticks]).

Definition act (c : t) (gesture : Gesture) (payload : Payload) (now : R)
    : t * list MouseCall :=
  if Gesture_eqb gesture ORBIT then _do_orbit c payload
  else if Gesture_eqb gesture ZOOM_IN then
    let '(c1, released) := _end_orbit c in
    let '(c2, scrolled) := _do_zoom c1 cfg.ZOOM_IN_SCROLL now in
    (c2, released ++ scrolled)
  else if Gesture_eqb gesture ZOOM_OUT then
    let '(c1, released) := _end_orbit c in
    let '(c2, scrolled) := _do_zoom c1 cfg.ZOOM_OUT_SCROLL now in
    (c2, released ++ scrolled)
  else _end_orbit c.

Definition release_all (c : t) : t * list MouseCall := _end_orbit c.

End FusionController.

(** One call of [act]: the gesture, the payload and the clock reading. *)
Definition ActCall : Set := (Gesture * Payload * R)%type.

(** Calls of [act] one after the other; the mouse calls of each are logged
    with its clock reading. *)
Fixpoint acts (c : FusionController.t) (cs : list ActCall)
    : FusionController.t * list (R * list MouseCall) :=
  match cs with
  | [] => (c, [])
  | (g, p, now) :: rest =>
      let '(c1, calls) := FusionController.act c g p now in
      let '(c2, log) := acts c1 rest in
      (c2, (now, calls) :: log)
  end.

(** The middle button as the operating system sees it after a sequence of
    mouse calls, starting from [held]; [None] when the sequence presses a
    button that is held, releases one that is not, moves the pointer without
    the button held or scrolls with it held. *)
Fixpoint button_after (held : bool) (calls : list MouseCall) : option bool :=
  match calls with
  | [] => Some held
  | press_middle :: rest => if held then None else button_after true rest
  | release_middle :: rest => if held then button_after false rest else None
  | move _ _ :: rest => if held then button_after true rest else None
  | scroll _ _ :: rest => if held then None else button_after false rest
  end.

Definition is_scroll (m : MouseCall) : bool :=
  match m with scroll _ _ => true | _ => false end.

(** The clock readings of the logged calls that scrolled. *)
Definition scroll_times (log : list (R * list MouseCall)) : list R :=
  map fst (filter (fun e => existsb is_scroll (snd e)) log).

(** Each time lies at least [gap] after the one before, the first at least
    [gap] after [last]. *)
Fixpoint spaced (gap last : R) (ts : list R) : Prop :=
  match ts with
  | [] => True
  | t :: rest => gap <= t - last /\ spaced gap t rest
  end.

(** ** main.py *)

(** What one pass of the main loop reads: the snapshot and the frame number
    that [tracker.latest()] returns, and the clock readings that [update]
    and [act] take when the frame is processed. *)
Record Poll : Set := mkPoll {
  poll_hand : option HandData;
  poll_seq : Z;
  poll_now_classify : R;
  poll_now_append : R;
  poll_now_zoom : R
}.

(** [main]: the recogniser, the controller and [last_seq]; the preview
    window sends no mouse call and touches neither object. *)
Module main.

Record t : Set := mk {
  recogniser : GestureRecogniser;
  controller : FusionController.t;
  last_seq : Z
}.

Definition init : t :=
  {| recogniser := __init__;
     controller := FusionController.__init__;
     last_seq := -1 |}.

(** One pass of the [while] loop. *)
Definition iteration (l : t) (p : Poll) : Py (t * list MouseCall) :=
  if negb (poll_seq p =? last_seq l)%Z then
    '(r, (gesture, payload)) <-
      update (recogniser l) (poll_hand p) (poll_now_classify p)
        (poll_now_append p) ;;
    let '(c, calls) :=
      FusionController.act (controller l) gesture payload (poll_now_zoom p) in
    ret ({| recogniser := r; controller := c; last_seq := poll_seq p |}, calls)
  else ret (l, []).

(** The passes made until the loop is left: at the end of [ps] (the
    preview window is closed or the user interrupts between two passes), or
    earlier by an exception of [update], which is returned. *)
Fixpoint loop (l : t) (ps : list Poll) : t * list MouseCall * option PyError :=
  match ps with
  | [] => (l, [], None)
  | p :: rest =>
      match iteration l p with
      | inl e => (l, [], Some e)
      | inr (l1, calls) =>
          let '(l2, more, e) := loop l1 rest in
          (l2, calls ++ more, e)
      end
  end.

(** [main]: the loop, then [release_all] in the [finally] block; the mouse
    calls of the whole run and the exception that ended it, if any. *)
Definition main (ps : list Poll) : list MouseCall * option PyError :=
  let '(l, calls, e) := loop init ps in
  (calls ++ snd (FusionController.release_all (controller l)), e).

End main.

(** The tick that a processed pass feeds to the recogniser. *)
Definition poll_tick (p : Poll) : Tick :=
  match poll_hand p with
  | None => Absent
  | Some hand => Present hand (poll_now_classify p) (poll_now_append p)
  end.

(** Every pass of [ps] sees a frame number other than the one before it,
    the first other than [last]: each pass is processed. *)
Fixpoint all_new (last : Z) (ps : list Poll) : Prop :=
  match ps with
  | [] => True
  | p :: rest => poll_seq p <> last /\ all_new (poll_seq p) rest
  end.

(** A mouse call that starts or continues a drag. *)
Definition is_drag (m : MouseCall) : bool :=
  match m with
  | press_middle | move _ _ => true
  | _ => false
  end.

(** The polls of the main loop that deliver the first four snapshots of
    [drifting_hand] as frames 1 to 4, and three polls of frames without a
    hand. *)
Definition drifting_polls : list Poll :=
  [mkPoll (Some (hand_of 0.8 0.5 0.5)) 1 1 1 1;
   mkPoll (Some (hand_of 0.8 0.6 0.5)) 2 1.1 1.1 1.1;
   mkPoll (Some (hand_of 0.8 0.7 0.5)) 3 1.2 1.2 1.2;
   mkPoll (Some (hand_of 0.8 0.8 0.5)) 4 1.3 1.3 1.3].

(** The snapshots of [drifting_polls] and a fifth one further to the right,
    delivered while the clock is still below 0.3. *)
Definition early_drifting_polls : list Poll :=
  [mkPoll (Some (hand_of 0.8 0.5 0.5)) 1 0.05 0.05 0.05;
   mkPoll (Some (hand_of 0.8 0.6 0.5)) 2 0.10 0.10 0.10;
   mkPoll (Some (hand_of 0.8 0.7 0.5)) 3 0.15 0.15 0.15;
   mkPoll (Some (hand_of 0.8 0.8 0.5)) 4 0.20 0.20 0.20;
   mkPoll (Some (hand_of 0.8 0.9 0.5)) 5 0.25 0.25 0.25].

(** A poll whose snapshots are long enough and in range. *)
Definition sound_poll (p : Poll) : Prop :=
  well_formed (poll_tick p) /\ in_range_tick (poll_tick p).

(** A poll whose snapshots are long enough and have bounded coordinates. *)
Definition bounded_poll (p : Poll) : Prop :=
  well_formed (poll_tick p) /\ bounded_tick (poll_tick p).

Definition lost_hand_polls : list Poll :=
  [mkPoll None 5 1.4 1.4 1.4; mkPoll None 6 1.5 1.5 1.5;
   mkPoll None 7 1.6 1.6 1.6].

(** ** Basic facts *)

Lemma flt_spec (a b : R) : reflect (a < b) (flt a b).
Proof. unfold flt. destruct (Rlt_dec a b); constructor; assumption. Qed.

Lemma flt_true (a b : R) : a < b -> flt a b = true.
Proof. intros H. destruct (flt_spec a b); [reflexivity | contradiction]. Qed.

Lemma flt_false (a b : R) : ~ a < b -> flt a b = false.
Proof. intros H. destruct (flt_spec a b); [contradiction | reflexivity]. Qed.

Lemma Gesture_eqb_spec (a b : Gesture) : reflect (a = b) (Gesture_eqb a b).
Proof. destruct a, b; constructor; congruence. Qed.

Lemma Gesture_eqb_refl (a : Gesture) : Gesture_eqb a a = true.
Proof. destruct a; reflexivity. Qed.

(** ** The hysteresis filter *)

Section Hysteresis.

Variable s : GestureRecogniser.
Variable g : Gesture.

Lemma set_gesture_returns_confirmed :
  snd (_set_gesture s g) = _current_gesture (fst (_set_gesture s g)).
Proof.
  unfold _set_gesture.
  destruct (Gesture_eqb g (_candidate s)); reflexivity.
Qed.

Lemma set_gesture_candidate : _candidate (feed s g) = g.
Proof.
  unfold feed, _set_gesture.
  destruct (Gesture_eqb_spec g (_candidate s)); simpl; congruence.
Qed.

Lemma set_gesture_streak :
  _gesture_streak (feed s g)
  = if Gesture_eqb g (_candidate s) then (_gesture_streak s + 1)%Z else 1%Z.
Proof.
  unfold feed, _set_gesture.
  destruct (Gesture_eqb g (_candidate s)); reflexivity.
Qed.

Lemma set_gesture_current :
  _current_gesture (feed s g)
  = if (cfg.GESTURE_CONFIDENCE_FRAMES <=? _gesture_streak (feed s g))%Z
    then g else _current_gesture s.
Proof.
  unfold feed, _set_gesture.
  destruct (Gesture_eqb g (_candidate s)); reflexivity.
Qed.

Lemma set_gesture_previous_or_fed :
  _current_gesture (feed s g) = _current_gesture s
  \/ _current_gesture (feed s g) = g.
Proof.
  rewrite set_gesture_current.
  destruct (cfg.GESTURE_CONFIDENCE_FRAMES <=? _ )%Z; auto.
Qed.

Lemma set_gesture_streak_pos :
  (0 <= _gesture_streak s)%Z -> (1 <= _gesture_streak (feed s g))%Z.
Proof.
  rewrite set_gesture_streak.
  destruct (Gesture_eqb g (_candidate s)); lia.
Qed.

(** What [_set_gesture] leaves alone. *)
Lemma set_gesture_frame :
  _smooth_x (feed s g) = _smooth_x s
  /\ _smooth_y (feed s g) = _smooth_y s
  /\ _smooth_z (feed s g) = _smooth_z s
  /\ _prev_x (feed s g) = _prev_x s
  /\ _prev_y (feed s g) = _prev_y s
  /\ _openness_history (feed s g) = _openness_history s
  /\ _last_openness (feed s g) = _last_openness s
  /\ _last_openness_time (feed s g) = _last_openness_time s
  /\ _last_zoom_time (feed s g) = _last_zoom_time s
  /\ _zoom_end_time (feed s g) = _zoom_end_time s.
Proof.
  unfold feed, _set_gesture.
  destruct (Gesture_eqb g (_candidate s)); simpl; repeat split.
Qed.

End Hysteresis.

Lemma feed_all_snoc (s : GestureRecogniser) (gs : list Gesture) (g : Gesture) :
  feed_all s (gs ++ [g]) = feed (feed_all s gs) g.
Proof. unfold feed_all. rewrite fold_left_app. reflexivity. Qed.

(** The streak counts the trailing run of the stored candidate in the trace
    fed so far. *)
Lemma streak_counts_run (gs : list Gesture) :
  let s := feed_all __init__ gs in
  (0 <= _gesture_streak s)%Z
  /\ exists pre,
       gs = pre ++ repeat (_candidate s) (Z.to_nat (_gesture_streak s)).
Proof.
  induction gs as [| g gs IH] using rev_ind; cbn zeta.
  - split; [simpl; lia | exists []; reflexivity].
  - cbn zeta in IH. destruct IH as [Hpos [pre Hpre]].
    rewrite feed_all_snoc, set_gesture_candidate, set_gesture_streak.
    destruct (Gesture_eqb_spec g (_candidate (feed_all __init__ gs))) as [-> | Hne].
    + split; [lia |]. exists pre.
      rewrite Z2Nat.inj_add by lia.
      rewrite repeat_app, app_assoc, <- Hpre. reflexivity.
    + split; [lia |]. exists gs. reflexivity.
Qed.

(** C3. Hysteresis of [_set_gesture], with [N = GESTURE_CONFIDENCE_FRAMES = 3]:
    - from the initial state, feeding Orbit for any [k <= N-1] ticks leaves
      the confirmed gesture Idle, and it is still Idle after a following Idle;
    - feeding Orbit for [N] consecutive ticks confirms Orbit;
    - from every state, the confirmed gesture after a tick is its previous
      value or the candidate fed on that tick, and it is what the call returns;
    - in every trace fed from the initial state, a tick that changes the
      confirmed gesture ends a run of [N] equal candidates. *)
Theorem hysteresis_confidence_frames :
  confidence_frames = 3%nat
  /\ (forall k, (k < confidence_frames)%nat ->
        _current_gesture (feed_all __init__ (repeat ORBIT k)) = IDLE
        /\ _current_gesture (feed_all __init__ (repeat ORBIT k ++ [IDLE])) = IDLE)
  /\ _current_gesture (feed_all __init__ (repeat ORBIT confidence_frames)) = ORBIT
  /\ (forall s g,
        (_current_gesture (feed s g) = _current_gesture s
         \/ _current_gesture (feed s g) = g)
        /\ snd (_set_gesture s g) = _current_gesture (feed s g))
  /\ (forall gs g,
        _current_gesture (feed_all __init__ (gs ++ [g]))
          <> _current_gesture (feed_all __init__ gs) ->
        _current_gesture (feed_all __init__ (gs ++ [g])) = g
        /\ exists pre, gs ++ [g] = pre ++ repeat g confidence_frames).
Proof.
  split; [reflexivity |].
  split.
  { intros k Hk. change confidence_frames with 3%nat in Hk.
    destruct k as [| [| [| k]]]; try lia; split; reflexivity. }
  split; [reflexivity |].
  split.
  { intros s g. split.
    - apply set_gesture_previous_or_fed.
    - apply set_gesture_returns_confirmed. }
  intros gs g Hchange.
  destruct (streak_counts_run (gs ++ [g])) as [_ [pre Hpre]].
  rewrite feed_all_snoc in *.
  rewrite set_gesture_candidate in Hpre.
  rewrite set_gesture_current in Hchange |- *.
  destruct (cfg.GESTURE_CONFIDENCE_FRAMES <=? _)%Z eqn:Hn;
    [| congruence].
  apply Z.leb_le in Hn. split; [reflexivity |].
  set (n := _gesture_streak (feed (feed_all __init__ gs) g)) in *.
  exists (pre ++ repeat g (Z.to_nat n - confidence_frames)).
  rewrite <- app_assoc, <- repeat_app.
  replace (Z.to_nat n - confidence_frames + confidence_frames)%nat
    with (Z.to_nat n); [exact Hpre |].
  unfold confidence_frames. unfold cfg.GESTURE_CONFIDENCE_FRAMES in *. lia.
Qed.

(** ** Evaluating the sample hands *)

Lemma py_div_nonzero (a b : R) : b <> 0 -> py_div a b = inr (a / b).
Proof.
  intros Hb. unfold py_div. destruct (Req_dec_T b 0); [contradiction | reflexivity].
Qed.

Lemma float_max_pos : 4 <= float_max.
Proof. unfold float_max. lra. Qed.

Lemma pow2_returns (x : R) : x ^ 2 <= float_max -> py_pow2 x = inr (x ^ 2).
Proof.
  intros H. unfold py_pow2, fgt. rewrite flt_false by lra. reflexivity.
Qed.

Lemma pow2_raises (x : R) : float_max < x ^ 2 -> py_pow2 x = inl OverflowError.
Proof.
  intros H. unfold py_pow2, fgt. rewrite flt_true by exact H. reflexivity.
Qed.

(** Within range [_dist3] returns the Euclidean distance; out of range it
    raises [OverflowError]. *)
Lemma dist3_returns (a b : Landmark.t) :
  dist_ok a b -> _dist3 a b = inr (dist a b).
Proof.
  intros (Hx & Hy & Hz). unfold _dist3.
  rewrite (pow2_returns _ Hx). cbn [bind].
  rewrite (pow2_returns _ Hy). cbn [bind].
  rewrite (pow2_returns _ Hz). reflexivity.
Qed.

Lemma dist3_raises (a b : Landmark.t) :
  ~ dist_ok a b -> _dist3 a b = inl OverflowError.
Proof.
  intros Hbad. unfold _dist3.
  destruct (Rle_dec ((Landmark.x a - Landmark.x b) ^ 2) float_max) as [Hx | Hx];
    [| rewrite pow2_raises by lra; reflexivity].
  rewrite (pow2_returns _ Hx). cbn [bind].
  destruct (Rle_dec ((Landmark.y a - Landmark.y b) ^ 2) float_max) as [Hy | Hy];
    [| rewrite pow2_raises by lra; reflexivity].
  rewrite (pow2_returns _ Hy). cbn [bind].
  destruct (Rle_dec ((Landmark.z a - Landmark.z b) ^ 2) float_max) as [Hz | Hz];
    [| rewrite pow2_raises by lra; reflexivity].
  exfalso. apply Hbad. repeat split; assumption.
Qed.

Lemma dist_ok_dec (a b : Landmark.t) : dist_ok a b \/ ~ dist_ok a b.
Proof.
  unfold dist_ok.
  destruct (Rle_dec ((Landmark.x a - Landmark.x b) ^ 2) float_max);
    destruct (Rle_dec ((Landmark.y a - Landmark.y b) ^ 2) float_max);
    destruct (Rle_dec ((Landmark.z a - Landmark.z b) ^ 2) float_max);
    tauto.
Qed.

Lemma small_square (x : R) : -2 <= x <= 2 -> x ^ 2 <= float_max.
Proof.
  intros H. pose proof float_max_pos. replace (x ^ 2) with (x * x) by ring. nra.
Qed.

Lemma dist_vertical (cx y1 y2 : R) :
  y1 <= y2 -> dist (Landmark.mk cx y1 0) (Landmark.mk cx y2 0) = y2 - y1.
Proof.
  intros H. unfold dist. cbv [Landmark.x Landmark.y Landmark.z].
  replace ((cx - cx) ^ 2 + (y1 - y2) ^ 2 + (0 - 0) ^ 2) with ((y2 - y1) ^ 2) by ring.
  apply sqrt_pow2. lra.
Qed.

Lemma dist_ok_vertical (cx y1 y2 : R) :
  -2 <= y1 - y2 <= 2 ->
  dist_ok (Landmark.mk cx y1 0) (Landmark.mk cx y2 0).
Proof.
  intros H. unfold dist_ok. cbv [Landmark.x Landmark.y Landmark.z].
  repeat split; apply small_square; lra.
Qed.

Lemma dist3_vertical (cx y1 y2 : R) :
  y1 <= y2 <= y1 + 2 ->
  _dist3 (Landmark.mk cx y1 0) (Landmark.mk cx y2 0) = inr (y2 - y1).
Proof.
  intros H. rewrite dist3_returns by (apply dist_ok_vertical; lra).
  rewrite dist_vertical by lra. reflexivity.
Qed.

Ltac eval_flt :=
  repeat match goal with
    | |- context [flt ?a ?b] =>
        first [ rewrite (flt_true a b) by lra
              | rewrite (flt_false a b) by lra ]
    end.

Lemma hand_of_openness (o cx cy : R) :
  0 <= o <= 1 -> _hand_openness (hand_of o cx cy) = inr o.
Proof.
  intros Ho. unfold _hand_openness, hand_of, hand_at.
  cbv [landmarks getitem nth_error bind ret tip_ids mcp_ids combine openness_loop].
  rewrite (dist3_vertical cx cy (cy + (o + 0.6))) by lra.
  rewrite (dist3_vertical cx (cy + (o + 0.6) - 1) (cy + (o + 0.6))) by lra.
  cbv beta iota.
  eval_flt.
  rewrite py_div_nonzero by lra.
  cbv [app py_sum fold_left length bind].
  rewrite py_div_nonzero by (apply not_0_INR; discriminate).
  rewrite py_div_nonzero by lra.
  set (q := (_ - 0.6) / 1.0).
  assert (Hq : q = o).
  { unfold q. simpl INR.
    replace (cy + (o + 0.6) - (cy + (o + 0.6) - 1)) with 1 by ring. lra. }
  rewrite Hq. unfold py_max, py_min, fgt, ret.
  destruct (flt_spec o 1); [destruct (flt_spec 0 o) | eval_flt];
    try reflexivity; f_equal; lra.
Qed.

Lemma hand_of_center (o cx cy : R) :
  fingertip_center (hand_of o cx cy) = inr (cx, cy, 0).
Proof.
  unfold fingertip_center, hand_of, hand_at.
  cbv [landmarks getitem nth_error bind ret tip_ids mapM map py_sum fold_left
       Landmark.x Landmark.y Landmark.z].
  rewrite !py_div_nonzero by lra.
  repeat f_equal; lra.
Qed.

Lemma hand_of_in_range (o cx cy : R) :
  0 <= o <= 1 -> in_range (hand_of o cx cy).
Proof.
  intros Ho. unfold in_range, fingers, tip_ids, mcp_ids. cbn [combine].
  repeat (constructor;
          [split;
           cbv [landmark_at hand_of hand_at landmarks nth fst snd];
           apply dist_ok_vertical; lra |]).
  constructor.
Qed.

(** Finite distances are in range, and bounded coordinates give finite
    distances. *)
Lemma dist_finite_ok (a b : Landmark.t) : dist_finite a b -> dist_ok a b.
Proof.
  unfold dist_finite, dist_ok. intros H.
  pose proof (pow2_ge_0 (Landmark.x a - Landmark.x b)).
  pose proof (pow2_ge_0 (Landmark.y a - Landmark.y b)).
  pose proof (pow2_ge_0 (Landmark.z a - Landmark.z b)).
  repeat split; lra.
Qed.

Lemma finite_distances_in_range (hand : HandData) :
  finite_distances hand -> in_range hand.
Proof.
  unfold finite_distances, in_range. apply Forall_impl.
  intros f [Htip Hmcp]. split; apply dist_finite_ok; assumption.
Qed.

Lemma bounded_square (u v : R) :
  Rabs u <= coord_bound -> Rabs v <= coord_bound -> (u - v) ^ 2 <= 4e300.
Proof.
  unfold coord_bound. intros Hu Hv.
  unfold Rabs in Hu, Hv.
  destruct (Rcase_abs u), (Rcase_abs v).
  all: replace ((u - v) ^ 2) with ((u - v) * (u - v)) by ring.
  all: assert (H1 : 0 <= (2e150 - (u - v)) * (2e150 + (u - v)))
         by (apply Rmult_le_pos; lra).
  all: lra.
Qed.

Lemma bounded_dist_finite (a b : Landmark.t) :
  bounded_landmark a -> bounded_landmark b -> dist_finite a b.
Proof.
  intros (Hax & Hay & Haz) (Hbx & Hby & Hbz). unfold dist_finite.
  pose proof (bounded_square _ _ Hax Hbx).
  pose proof (bounded_square _ _ Hay Hby).
  pose proof (bounded_square _ _ Haz Hbz).
  unfold float_max. lra.
Qed.

Lemma bounded_landmark_at (hand : HandData) (i : nat) :
  bounded hand -> bounded_landmark (landmark_at hand i).
Proof.
  intros Hb. unfold landmark_at.
  destruct (nth_in_or_default i (landmarks hand) (Landmark.mk 0 0 0))
    as [Hin | ->].
  - unfold bounded in Hb. rewrite Forall_forall in Hb. apply Hb, Hin.
  - unfold bounded_landmark, coord_bound.
    cbv [Landmark.x Landmark.y Landmark.z]. rewrite Rabs_R0. lra.
Qed.

Lemma bounded_finite_distances (hand : HandData) :
  bounded hand -> finite_distances hand.
Proof.
  intros Hb. unfold finite_distances. apply Forall_forall. intros f _.
  split; apply bounded_dist_finite; apply bounded_landmark_at; exact Hb.
Qed.

Lemma bounded_in_range (hand : HandData) : bounded hand -> in_range hand.
Proof.
  intros Hb. apply finite_distances_in_range, bounded_finite_distances, Hb.
Qed.

Lemma bounded_poll_sound (p : Poll) : bounded_poll p -> sound_poll p.
Proof.
  unfold bounded_poll, sound_poll. intros [Hwf Hb]. split; [exact Hwf |].
  destruct (poll_tick p) as [| hand t1 t2]; [exact I |].
  apply bounded_in_range. exact Hb.
Qed.

Lemma dist_finite_vertical (cx y1 y2 : R) :
  -2 <= y1 - y2 <= 2 ->
  dist_finite (Landmark.mk cx y1 0) (Landmark.mk cx y2 0).
Proof.
  intros H. unfold dist_finite. cbv [Landmark.x Landmark.y Landmark.z].
  pose proof (small_square (y1 - y2) H).
  replace ((cx - cx) ^ 2 + (y1 - y2) ^ 2 + (0 - 0) ^ 2) with ((y1 - y2) ^ 2)
    by ring.
  assumption.
Qed.

Lemma hand_of_finite_distances (o cx cy : R) :
  0 <= o <= 1 -> finite_distances (hand_of o cx cy).
Proof.
  intros Ho. unfold finite_distances, fingers, tip_ids, mcp_ids. cbn [combine].
  repeat (constructor;
          [split;
           cbv [landmark_at hand_of hand_at landmarks nth fst snd];
           apply dist_finite_vertical; lra |]).
  constructor.
Qed.

Lemma flt_hypot_true (d a b : R) :
  0 <= d -> d * d < a * a + b * b -> flt d (hypot a b) = true.
Proof.
  intros Hd H. apply flt_true. unfold hypot.
  rewrite <- (sqrt_square d) at 1 by exact Hd.
  apply sqrt_lt_1_alt. split; [nra | exact H].
Qed.

Lemma flt_hypot_false (d a b : R) :
  0 <= d -> a * a + b * b <= d * d -> flt d (hypot a b) = false.
Proof.
  intros Hd H. apply flt_false. unfold hypot.
  rewrite <- (sqrt_square d) at 1 by exact Hd.
  intros Hlt. apply sqrt_lt_0_alt in Hlt. lra.
Qed.

Lemma flt_Rabs_true (v c : R) : - c < v < c -> flt (Rabs v) c = true.
Proof. intros H. apply flt_true. apply Rabs_def1; lra. Qed.

Lemma flt_Rabs_false (v c : R) : v <= - c \/ c <= v -> flt (Rabs v) c = false.
Proof.
  intros H. apply flt_false. intros Hlt. apply Rabs_def2 in Hlt. lra.
Qed.

(** A presence tick on a sample hand, with the two geometric steps done. *)
Lemma update_hand_of (s : GestureRecogniser) (o cx cy t1 t2 : R) :
  0 <= o <= 1 ->
  update s (Some (hand_of o cx cy)) t1 t2
  = ('(s1, (sx, sy, sz)) <- _ema s cx cy 0 ;;
     '(s2, (gesture, payload)) <- _classify s1 (hand_of o cx cy) o sx sy t1 ;;
     let s3 := set_prev s2 (Some sx) (Some sy) in
     let s4 := set_history s3
                 (deque_append history_maxlen (_openness_history s3) (t2, o)) in
     ret (set_last_openness s4 o t2, (gesture, payload))).
Proof.
  intros Ho. unfold update.
  rewrite hand_of_openness by exact Ho. rewrite hand_of_center. reflexivity.
Qed.

(** Evaluation of a tick on a concrete state: the control flow is computed,
    the real-number tests are settled by linear arithmetic. *)
Ltac eval_tests :=
  repeat first
    [ match goal with
      | |- context [flt ?d (hypot ?a ?b)] =>
          first [ rewrite (flt_hypot_true d a b) by lra
                | rewrite (flt_hypot_false d a b) by lra ]
      | |- context [flt (Rabs ?v) ?c] =>
          first [ rewrite (flt_Rabs_true v c) by lra
                | rewrite (flt_Rabs_false v c) by lra ]
      | |- context [flt ?a ?b] =>
          first [ rewrite (flt_true a b) by lra
                | rewrite (flt_false a b) by lra ]
      | |- context [py_div ?a ?b] => rewrite (py_div_nonzero a b) by lra
      end ].

Ltac eval_control :=
  cbv - [Rplus Rminus Rmult Rdiv Rinv Ropp Rabs IZR Q2R sqrt hypot flt py_div
         Rlt Rle Rgt Rge].

Lemma run_cons_inr (s s1 s2 : GestureRecogniser) (t : Tick) (ts : list Tick)
    (out : Gesture * Payload) (outs : list (Gesture * Payload)) :
  tick s t = inr (s1, out) ->
  run s1 ts = inr (s2, outs) ->
  run s (t :: ts) = inr (s2, out :: outs).
Proof. intros H1 H2. simpl. rewrite H1. simpl. rewrite H2. reflexivity. Qed.

Ltac eval_tick :=
  unfold tick;
  first [ rewrite update_hand_of by lra | idtac ];
  repeat (eval_control; progress eval_tests);
  eval_control.

Ltac eval_run :=
  repeat (eapply run_cons_inr; [eval_tick; reflexivity |]);
  reflexivity.

(** ** Openness speed *)

Lemma getitem_lt {A : Type} (xs : list A) (i : nat) (d : A) :
  (i < length xs)%nat -> getitem xs i = inr (nth i xs d).
Proof.
  intros H. unfold getitem. rewrite (nth_error_nth' xs d H). reflexivity.
Qed.

Lemma getitem_ge {A : Type} (xs : list A) (i : nat) :
  (length xs <= i)%nat -> getitem xs i = inl IndexError.
Proof.
  intros H. unfold getitem. apply nth_error_None in H. rewrite H. reflexivity.
Qed.

Lemma getlast_nonempty {A : Type} (xs : list A) (d : A) :
  xs <> [] -> getlast xs = inr (last xs d).
Proof.
  intros H. destruct (exists_last H) as [ys [a ->]].
  unfold getlast. rewrite rev_unit, last_last. reflexivity.
Qed.

Lemma nonzero_of_not_lt (d eps : R) : 0 < eps -> ~ d < eps -> d <> 0.
Proof. intros He Hd. lra. Qed.

(** [_openness_speed] never raises: its result is fixed by the window. *)
Lemma openness_speed_eq (s : GestureRecogniser) :
  let h := _openness_history s in
  _openness_speed s
  = inr (if (length h <? 4)%nat then None
         else if flt (history_span h) 0.05 then None
         else Some ((snd (newest h) - snd (oldest h)) / history_span h)).
Proof.
  cbn zeta. unfold _openness_speed.
  destruct (length (_openness_history s) <? 4)%nat eqn:Hlen; [reflexivity |].
  apply Nat.ltb_ge in Hlen.
  rewrite (getlast_nonempty _ (0, 0))
    by (destruct (_openness_history s); [simpl in Hlen; lia | discriminate]).
  unfold history_span, newest, oldest.
  set (e1 := last (_openness_history s) (0, 0)).
  destruct (_openness_history s) as [| e0 rest]; [simpl in Hlen; lia |].
  cbn [getitem nth_error hd].
  destruct e0 as [t0 o0], e1 as [t1 o1]. cbn [bind ret fst snd].
  destruct (flt_spec (t1 - t0) 0.05) as [Hdt | Hdt]; [reflexivity |].
  rewrite py_div_nonzero by (apply (nonzero_of_not_lt _ 0.05); [lra | exact Hdt]).
  reflexivity.
Qed.

(** C6. [_openness_speed] returns [None] exactly when fewer than 4 samples
    are buffered or the oldest and newest buffered samples are less than
    0.05 s apart; otherwise it returns the change of openness from the oldest
    to the newest sample divided by the time between them. *)
Theorem openness_speed_requires_history :
  forall s : GestureRecogniser,
    let h := _openness_history s in
    (_openness_speed s = inr None
     <-> (length h < 4)%nat \/ history_span h < 0.05)
    /\ (~ ((length h < 4)%nat \/ history_span h < 0.05) ->
        _openness_speed s
        = inr (Some ((snd (newest h) - snd (oldest h))
                     / (fst (newest h) - fst (oldest h))))).
Proof.
  intros s h. rewrite openness_speed_eq. fold h.
  destruct (Nat.ltb_spec (length h) 4) as [Hlen | Hlen].
  - split; [split; auto | intros H; exfalso; auto].
  - destruct (flt_spec (history_span h) 0.05) as [Hdt | Hdt].
    + split; [split; auto | intros H; exfalso; auto].
    + split.
      * split; [discriminate | intros [H | H]; [lia | contradiction]].
      * intros _. reflexivity.
Qed.

(** ** Openness estimator *)

Lemma py_min_Rmin (a b : R) : py_min a b = Rmin a b.
Proof.
  unfold py_min, Rmin. destruct (flt_spec b a), (Rle_dec a b); lra.
Qed.

Lemma py_max_Rmax (a b : R) : py_max a b = Rmax a b.
Proof.
  unfold py_max, fgt, Rmax. destruct (flt_spec a b), (Rle_dec a b); lra.
Qed.

Lemma clamp01_bounds (v : R) : 0 <= clamp01 v <= 1.
Proof.
  unfold clamp01. split.
  - apply Rmax_l.
  - apply Rmax_lub; [lra | apply Rmin_l].
Qed.

Lemma py_sum_fold_right (xs : list R) : py_sum xs = fold_right Rplus 0 xs.
Proof.
  unfold py_sum. apply fold_symmetric; intros; ring.
Qed.

Lemma survives_iff (hand : HandData) (f : nat * nat) :
  survives hand f = negb (flt (knuckle_dist hand f) 1e-6).
Proof.
  unfold survives.
  destruct (Rle_dec 1e-6 (knuckle_dist hand f)), (flt_spec (knuckle_dist hand f) 1e-6);
    try reflexivity; lra.
Qed.

Section OpennessLoop.

Variable hand : HandData.
Let lms := landmarks hand.
Let wrist := landmark_at hand 0.

(** What the loop does, finger by finger.  It returns, in order, the ratios
    of the surviving fingers when every index is in the list and every
    distance within range.  The first index out of the list raises
    [IndexError], the first distance out of range [OverflowError]; the
    division is guarded, so nothing else can raise. *)
Lemma openness_loop_cases (ids : list (nat * nat)) :
  forall ratios,
    match openness_loop lms wrist ids ratios with
    | inr rs =>
        Forall (fun f => (fst f < length lms)%nat /\ (snd f < length lms)%nat) ids
        /\ Forall (finger_ok hand) ids
        /\ rs = ratios ++ map (finger_ratio hand) (filter (survives hand) ids)
    | inl e =>
        (e = IndexError
         /\ Exists (fun f => (length lms <= fst f)%nat \/ (length lms <= snd f)%nat)
              ids)
        \/ (e = OverflowError /\ Exists (fun f => ~ finger_ok hand f) ids)
    end.
Proof.
  induction ids as [| [tip_i mcp_i] ids IH]; intros ratios.
  - cbn [openness_loop ret filter map].
    split; [constructor |]. split; [constructor |].
    rewrite app_nil_r. reflexivity.
  - cbn [openness_loop].
    destruct (Nat.le_gt_cases (length lms) tip_i) as [Htip | Htip].
    { rewrite getitem_ge by exact Htip. cbn [bind]. left.
      split; [reflexivity | apply Exists_cons_hd; left; exact Htip]. }
    rewrite (getitem_lt _ tip_i (Landmark.mk 0 0 0)) by exact Htip. cbn [bind].
    destruct (Nat.le_gt_cases (length lms) mcp_i) as [Hmcp | Hmcp].
    { rewrite getitem_ge by exact Hmcp. cbn [bind]. left.
      split; [reflexivity | apply Exists_cons_hd; right; exact Hmcp]. }
    rewrite (getitem_lt _ mcp_i (Landmark.mk 0 0 0)) by exact Hmcp. cbn [bind].
    change (nth tip_i lms (Landmark.mk 0 0 0)) with (landmark_at hand tip_i).
    change (nth mcp_i lms (Landmark.mk 0 0 0)) with (landmark_at hand mcp_i).
    destruct (dist_ok_dec (landmark_at hand tip_i) wrist) as [Hdt | Hdt].
    2:{ rewrite dist3_raises by exact Hdt. cbn [bind]. right.
        split; [reflexivity |]. apply Exists_cons_hd. intros [H _]. exact (Hdt H). }
    rewrite dist3_returns by exact Hdt. cbn [bind].
    destruct (dist_ok_dec (landmark_at hand mcp_i) wrist) as [Hdm | Hdm].
    2:{ rewrite dist3_raises by exact Hdm. cbn [bind]. right.
        split; [reflexivity |]. apply Exists_cons_hd. intros [_ H]. exact (Hdm H). }
    rewrite dist3_returns by exact Hdm. cbn [bind].
    assert (Hhead : (fst (tip_i, mcp_i) < length lms)%nat
                    /\ (snd (tip_i, mcp_i) < length lms)%nat)
      by (split; assumption).
    assert (Hok : finger_ok hand (tip_i, mcp_i)) by (split; assumption).
    cbn [filter]. rewrite survives_iff.
    unfold knuckle_dist at 1; cbn [snd]. fold wrist.
    destruct (flt_spec (dist (landmark_at hand mcp_i) wrist) 1e-6)
      as [Hd | Hd]; cbn [negb].
    + specialize (IH ratios).
      destruct (openness_loop lms wrist ids ratios) as [e | rs].
      * destruct IH as [[-> H] | [-> H]]; [left | right];
          (split; [reflexivity | apply Exists_cons_tl; exact H]).
      * destruct IH as (Hi & Hf & ->).
        split; [constructor; assumption |].
        split; [constructor; assumption | reflexivity].
    + rewrite py_div_nonzero
        by (apply (nonzero_of_not_lt _ 1e-6); [lra | exact Hd]).
      cbn [bind].
      specialize (IH (ratios
                        ++ [dist (landmark_at hand tip_i) wrist
                            / dist (landmark_at hand mcp_i) wrist])).
      destruct (openness_loop lms wrist ids _) as [e | rs].
      * destruct IH as [[-> H] | [-> H]]; [left | right];
          (split; [reflexivity | apply Exists_cons_tl; exact H]).
      * destruct IH as (Hi & Hf & ->).
        split; [constructor; assumption |].
        split; [constructor; assumption |].
        cbn [map]. rewrite <- app_assoc. reflexivity.
Qed.

End OpennessLoop.

Lemma finger_ids_in_range (n : nat) :
  (21 <= n)%nat ->
  Forall (fun f : nat * nat => (fst f < n)%nat /\ (snd f < n)%nat) fingers.
Proof.
  intros H. unfold fingers, tip_ids, mcp_ids. cbn [combine].
  repeat constructor; cbn [fst snd]; lia.
Qed.

(** [_hand_openness], case by case.  It returns on the snapshots that have
    21 landmarks or more and are in range, and returns there what the
    specification describes; it raises [IndexError] only on a shorter
    snapshot and [OverflowError] only on one out of range. *)
Lemma hand_openness_cases (hand : HandData) :
  match _hand_openness hand with
  | inr o =>
      (21 <= length (landmarks hand))%nat /\ in_range hand
      /\ o = openness_spec hand
  | inl e =>
      (e = IndexError /\ (length (landmarks hand) < 21)%nat)
      \/ (e = OverflowError /\ ~ in_range hand)
  end.
Proof.
  unfold _hand_openness.
  destruct (Nat.le_gt_cases (length (landmarks hand)) 0) as [H0 | H0].
  { rewrite getitem_ge by exact H0. cbn [bind]. left. split; [reflexivity | lia]. }
  rewrite (getitem_lt _ 0%nat (Landmark.mk 0 0 0)) by exact H0.
  cbn [bind]. fold (landmark_at hand 0). fold fingers.
  pose proof (openness_loop_cases hand fingers []) as Hloop.
  destruct (openness_loop (landmarks hand) (landmark_at hand 0) fingers [])
    as [e | rs]; cbn [bind].
  - destruct Hloop as [[-> Hex] | [-> Hex]]; [left | right];
      (split; [reflexivity |]).
    + apply Exists_exists in Hex as (f & Hin & Hbad).
      unfold fingers, tip_ids, mcp_ids in Hin. cbn [combine In] in Hin.
      repeat (destruct Hin as [<- | Hin]; [cbn [fst snd] in Hbad; lia |]).
      destruct Hin.
    + intros Hr. apply Exists_exists in Hex as (f & Hin & Hbad).
      unfold in_range in Hr. rewrite Forall_forall in Hr. exact (Hbad (Hr f Hin)).
  - destruct Hloop as (Hidx & Hok & ->). cbn [app].
    assert (Hlen : (21 <= length (landmarks hand))%nat).
    { rewrite Forall_forall in Hidx.
      assert (Hin : In (20%nat, 17%nat) fingers) by (simpl; auto 6).
      apply Hidx in Hin. cbn [fst] in Hin. lia. }
    unfold openness_spec.
    destruct (filter (survives hand) fingers) as [| f fs] eqn:Hfs;
      [cbn [map]; repeat split; assumption |].
    set (ratios := map (finger_ratio hand) (f :: fs)).
    assert (Hne : INR (length ratios) <> 0).
    { apply not_0_INR. unfold ratios. discriminate. }
    cbn [map] in ratios. subst ratios.
    set (ratios := finger_ratio hand f :: map (finger_ratio hand) fs) in *.
    rewrite py_div_nonzero by exact Hne. cbn [bind].
    rewrite py_div_nonzero by lra. cbn [bind ret].
    rewrite py_max_Rmax, py_min_Rmin, py_sum_fold_right.
    split; [exact Hlen |]. split; [exact Hok | reflexivity].
Qed.

(** On a snapshot with at least 21 landmarks, in range, the estimator
    returns, and returns what the specification describes. *)
Lemma hand_openness_refines (hand : HandData) :
  (21 <= length (landmarks hand))%nat ->
  in_range hand ->
  _hand_openness hand = inr (openness_spec hand).
Proof.
  intros Hlen Hr. pose proof (hand_openness_cases hand) as H.
  destruct (_hand_openness hand) as [e | o].
  - destruct H as [[_ H] | [_ H]]; [lia | contradiction].
  - destruct H as (_ & _ & ->). reflexivity.
Qed.

Lemma hand_openness_inv (hand : HandData) (o : R) :
  _hand_openness hand = inr o ->
  (21 <= length (landmarks hand))%nat /\ in_range hand
  /\ o = openness_spec hand.
Proof.
  intros Ho. pose proof (hand_openness_cases hand) as H.
  rewrite Ho in H. exact H.
Qed.

Lemma hand_openness_raises (hand : HandData) (e : PyError) :
  _hand_openness hand = inl e ->
  (e = IndexError /\ (length (landmarks hand) < 21)%nat)
  \/ (e = OverflowError /\ ~ in_range hand).
Proof.
  intros He. pose proof (hand_openness_cases hand) as H.
  rewrite He in H. exact H.
Qed.

Lemma openness_spec_bounds (hand : HandData) :
  (filter (survives hand) fingers = [] -> openness_spec hand = 0)
  /\ 0 <= openness_spec hand <= 1.
Proof.
  unfold openness_spec.
  destruct (filter (survives hand) fingers); split;
    try reflexivity; try discriminate; try apply clamp01_bounds; lra.
Qed.

(** The thumb tip of [far_thumb_hand] is out of range of the wrist: the
    first square [_dist3] takes raises. *)
Lemma far_thumb_hand_openness :
  _hand_openness far_thumb_hand = inl OverflowError.
Proof.
  unfold _hand_openness, far_thumb_hand.
  cbv [landmarks repeat app getitem nth_error bind ret tip_ids mcp_ids combine
       openness_loop].
  rewrite dist3_raises; [reflexivity |].
  unfold dist_ok, float_max. cbv [Landmark.x Landmark.y Landmark.z].
  intros (H & _). lra.
Qed.

(** C7, as the code has it.  For every snapshot of 21 landmarks whose
    fingertips and knuckles lie at a finite distance from the wrist (the sum
    of the three squared coordinate differences is within the float range),
    [_hand_openness] returns the clamped linear map of the mean tip/knuckle
    ratio over the fingers whose knuckle is at least [1e-6] from the wrist,
    and [0] when no finger passes that guard; the value lies in [0, 1]. *)
Theorem hand_openness_clamped_mean_ratio :
  forall hand : HandData,
    length (landmarks hand) = 21%nat ->
    finite_distances hand ->
    _hand_openness hand = inr (openness_spec hand)
    /\ (filter (survives hand) fingers = [] -> openness_spec hand = 0)
    /\ 0 <= openness_spec hand <= 1.
Proof.
  intros hand Hlen Hfin.
  split; [apply hand_openness_refines;
          [lia | apply finite_distances_in_range; exact Hfin] |].
  apply openness_spec_bounds.
Qed.

Lemma hand_openness_clamped_mean_ratio_witness :
  (length (landmarks (hand_of 0.8 0.5 0.5)) = 21%nat
   /\ finite_distances (hand_of 0.8 0.5 0.5))
  /\ _hand_openness (hand_of 0.8 0.5 0.5)
     = inr (openness_spec (hand_of 0.8 0.5 0.5))
  /\ (filter (survives (hand_of 0.8 0.5 0.5)) fingers = [] ->
      openness_spec (hand_of 0.8 0.5 0.5) = 0)
  /\ 0 <= openness_spec (hand_of 0.8 0.5 0.5) <= 1.
Proof.
  assert (Hr : finite_distances (hand_of 0.8 0.5 0.5))
    by (apply hand_of_finite_distances; lra).
  split; [split; [reflexivity | exact Hr] |].
  exact (hand_openness_clamped_mean_ratio (hand_of 0.8 0.5 0.5) eq_refl Hr).
Defined.

(** A snapshot of 21 landmarks whose thumb tip lies at [x = 1e200]:
    [_hand_openness] raises [OverflowError], although no knuckle passes the
    guard. *)
Lemma hand_openness_raises_on_far_landmark :
  length (landmarks far_thumb_hand) = 21%nat
  /\ filter (survives far_thumb_hand) fingers = []
  /\ _hand_openness far_thumb_hand = inl OverflowError.
Proof.
  split; [reflexivity |]. split; [| exact far_thumb_hand_openness].
  assert (Hnone : forall f, In f fingers -> survives far_thumb_hand f = false).
  { intros f Hin. unfold fingers, tip_ids, mcp_ids in Hin. cbn [combine In] in Hin.
    unfold survives, knuckle_dist, dist.
    repeat (destruct Hin as [<- | Hin];
            [cbv [landmark_at far_thumb_hand landmarks repeat app nth snd
                  Landmark.x Landmark.y Landmark.z];
             replace ((0.5 - 0.5) ^ 2 + (0.5 - 0.5) ^ 2 + (0 - 0) ^ 2) with 0 by ring;
             rewrite sqrt_0; destruct (Rle_dec 1e-6 0); [lra | reflexivity] |]).
    destruct Hin. }
  unfold fingers, tip_ids, mcp_ids in *. cbn [combine filter].
  rewrite !Hnone by (cbn [combine In]; auto 6). reflexivity.
Qed.

(** ** The shape of a classification *)

Lemma emit_eq (s : GestureRecogniser) (g : Gesture) (p : Payload) :
  emit s g p = inr (feed s g, (_current_gesture (feed s g), p)).
Proof.
  unfold emit, feed.
  pose proof (set_gesture_returns_confirmed s g) as H.
  destruct (_set_gesture s g) as [s' out]. simpl in *. subst out. reflexivity.
Qed.

Lemma speed_zoom_not_orbit (speed : option R) (g : Gesture) :
  speed_zoom speed = Some g -> g = ZOOM_IN \/ g = ZOOM_OUT.
Proof.
  unfold speed_zoom. destruct speed as [v |]; [| discriminate].
  destruct (fgt v _); [intros [= <-]; auto |].
  destruct (flt v _); [intros [= <-]; auto | discriminate].
Qed.

Lemma emit_without_payload (s s1 : GestureRecogniser) (o sx sy now : R)
    (g : Gesture) (r : GestureRecogniser * (Gesture * Payload)) :
  s1 = s
  \/ (s1 = set_zoom_end_time s now
      /\ (_current_gesture s = ZOOM_IN \/ _current_gesture s = ZOOM_OUT)) ->
  g <> ORBIT ->
  emit s1 g None = inr r ->
  emitted s o sx sy now r.
Proof.
  intros Hs1 Hg. rewrite emit_eq. intros [= <-]. exists s1, g, None.
  split; [reflexivity |]. split; [exact Hs1 |].
  split; [split; congruence | congruence].
Qed.

Lemma classify_shape (s : GestureRecogniser) (hand : HandData)
    (o sx sy now : R) (r : GestureRecogniser * (Gesture * Payload)) :
  _classify s hand o sx sy now = inr r -> emitted s o sx sy now r.
Proof.
  unfold _classify. rewrite openness_speed_eq. cbn [bind].
  set (speed := if (length _ <? 4)%nat then _ else _). clearbody speed.
  destruct (speed_zoom speed) as [g |] eqn:Hzoom.
  { apply emit_without_payload; [left; reflexivity |].
    apply speed_zoom_not_orbit in Hzoom as [-> | ->]; discriminate. }
  destruct (Gesture_eqb (_current_gesture s) ZOOM_IN && fgt o 0.7);
    [apply emit_without_payload; [left; reflexivity | discriminate] |].
  destruct (Gesture_eqb (_current_gesture s) ZOOM_OUT && flt o 0.3);
    [apply emit_without_payload; [left; reflexivity | discriminate] |].
  set (s1 := if zoom_ended s speed then set_zoom_end_time s now else s).
  assert (Hs1 : s1 = s
                \/ (s1 = set_zoom_end_time s now
                    /\ (_current_gesture s = ZOOM_IN \/ _current_gesture s = ZOOM_OUT))).
  { subst s1. unfold zoom_ended.
    destruct (Gesture_eqb_spec (_current_gesture s) ZOOM_IN);
      destruct (Gesture_eqb_spec (_current_gesture s) ZOOM_OUT);
      cbn [orb andb]; try (left; reflexivity);
      (destruct speed as [v |]; [destruct (flt (Rabs v) _) |]); auto. }
  assert (Hprev : _prev_x s1 = _prev_x s /\ _prev_y s1 = _prev_y s).
  { destruct Hs1 as [-> | [-> _]]; split; reflexivity. }
  destruct Hprev as [Hpx Hpy]. clearbody s1.
  assert (Hidle : emit s1 IDLE None = inr r -> emitted s o sx sy now r)
    by (apply emit_without_payload; [exact Hs1 | discriminate]).
  destruct (flt_spec (now - _zoom_end_time s1) _ORBIT_AFTER_ZOOM_COOLDOWN)
    as [Hcool | Hcool]; [exact Hidle |].
  unfold fgt. destruct (flt_spec 0.55 o) as [Hopen | Hopen]; [| exact Hidle].
  rewrite Hpx, Hpy. clear Hpx Hpy.
  destruct (_prev_x s) as [px |] eqn:Hpx; [| exact Hidle].
  destruct (_prev_y s) as [py |] eqn:Hpy; [| discriminate].
  cbn [operand bind ret].
  destruct (flt_spec cfg.ORBIT_DEAD_ZONE (hypot (sx - px) (sy - py)))
    as [Hdist | Hdist]; [| exact Hidle].
  rewrite emit_eq. intros [= <-]. exists s1, ORBIT, (Some (sx - px, sy - py)).
  split; [reflexivity |]. split; [exact Hs1 |].
  split; [split; [discriminate | reflexivity] |].
  intros _. split; [exact Hcool |]. split; [exact Hopen |].
  exists px, py. auto.
Qed.

(** ** The shape of a tick *)

Lemma ema_shape (s s1 : GestureRecogniser) (x y z sx sy sz : R) :
  _ema s x y z = inr (s1, (sx, sy, sz)) ->
  s1 = set_smooth s (Some sx) (Some sy) (Some sz).
Proof.
  unfold _ema. destruct (_smooth_x s) as [px |].
  - destruct (_smooth_y s) as [py |]; [| discriminate].
    destruct (_smooth_z s) as [pz |]; [| discriminate].
    cbn [operand bind ret]. intros [= <- <- <- <-]. reflexivity.
  - intros [= <- <- <- <-]. reflexivity.
Qed.

Lemma ema_returns (s : GestureRecogniser) (x y z : R) :
  unset_together s -> returns (_ema s x y z).
Proof.
  intros (_ & Hxy & Hyz). unfold _ema, returns.
  destruct (_smooth_x s) as [px |] eqn:Hx; [| eexists; reflexivity].
  destruct (_smooth_y s) as [py |] eqn:Hy;
    [| destruct Hxy as [_ Hxy]; specialize (Hxy eq_refl); discriminate].
  destruct (_smooth_z s) as [pz |] eqn:Hz;
    [| destruct Hyz as [_ Hyz]; specialize (Hyz eq_refl); discriminate].
  eexists; reflexivity.
Qed.

(** A returning presence tick, step by step. *)
Lemma update_present_inv (s s' : GestureRecogniser) (hand : HandData)
    (t1 t2 : R) (out : Gesture * Payload) :
  update s (Some hand) t1 t2 = inr (s', out) ->
  exists o cx cy cz sx sy sz s2,
    _hand_openness hand = inr o
    /\ fingertip_center hand = inr (cx, cy, cz)
    /\ _ema s cx cy cz
       = inr (set_smooth s (Some sx) (Some sy) (Some sz), (sx, sy, sz))
    /\ _classify (set_smooth s (Some sx) (Some sy) (Some sz)) hand o sx sy t1
       = inr (s2, out)
    /\ s' = set_last_openness
              (set_history (set_prev s2 (Some sx) (Some sy))
                 (deque_append history_maxlen (_openness_history s2) (t2, o)))
              o t2.
Proof.
  unfold update.
  destruct (_hand_openness hand) as [e | o]; [discriminate |].
  destruct (fingertip_center hand) as [e | [[cx cy] cz]]; [discriminate |].
  cbn [bind].
  destruct (_ema s cx cy cz) as [e | [s1 [[sx sy] sz]]] eqn:Hema; [discriminate |].
  apply ema_shape in Hema as Hs1. subst s1. cbn [bind].
  destruct (_classify _ hand o sx sy t1) as [e | [s2 [g p]]] eqn:Hcls;
    [discriminate |].
  cbn [bind ret set_prev _openness_history]. intros [= <- <-].
  exists o, cx, cy, cz, sx, sy, sz, s2. repeat split; assumption.
Qed.

Lemma update_absent_eq (s : GestureRecogniser) (t1 t2 : R) :
  update s None t1 t2
  = inr (feed (_reset_smooth s) IDLE,
         (_current_gesture (feed (_reset_smooth s) IDLE), None)).
Proof.
  unfold update, feed.
  pose proof (set_gesture_returns_confirmed (_reset_smooth s) IDLE) as H.
  destruct (_set_gesture (_reset_smooth s) IDLE) as [s' g]. simpl in *.
  subst g. reflexivity.
Qed.

(** What one returning tick does to the state: the hysteresis fields are
    fed exactly one candidate; the zoom end is kept or stamped with the
    classification reading; the optional fields are set or unset in groups;
    a payload comes exactly with candidate Orbit, outside the cooldown. *)
Lemma tick_shape (s s' : GestureRecogniser) (t : Tick) (g : Gesture) (p : Payload) :
  tick s t = inr (s', (g, p)) ->
  let cand := _candidate s' in
  _gesture_streak s'
  = (if Gesture_eqb cand (_candidate s) then (_gesture_streak s + 1)%Z else 1%Z)
  /\ _current_gesture s'
     = (if (cfg.GESTURE_CONFIDENCE_FRAMES <=? _gesture_streak s')%Z
        then cand else _current_gesture s)
  /\ g = _current_gesture s'
  /\ (cand = ORBIT <-> p <> None)
  /\ unset_together s'
  /\ match t with
     | Absent =>
         cand = IDLE /\ _zoom_end_time s' = _zoom_end_time s
         /\ _openness_history s' = []
     | Present hand t1 t2 =>
         (_zoom_end_time s' = _zoom_end_time s
          \/ (_zoom_end_time s' = t1
              /\ (_current_gesture s = ZOOM_IN \/ _current_gesture s = ZOOM_OUT)))
         /\ (cand = ORBIT ->
             ~ t1 - _zoom_end_time s' < _ORBIT_AFTER_ZOOM_COOLDOWN)
         /\ _last_openness_time s' = t2
     end.
Proof.
  destruct t as [| hand t1 t2]; cbn [tick].
  - rewrite update_absent_eq. intros [= <- <- <-]. cbn zeta.
    rewrite set_gesture_candidate, set_gesture_streak, set_gesture_current.
    rewrite set_gesture_streak.
    destruct (set_gesture_frame (_reset_smooth s) IDLE)
      as (Hsx & Hsy & Hsz & Hpx & Hpy & Hh & _ & _ & _ & Hz).
    split; [reflexivity |]. split; [reflexivity |]. split; [reflexivity |].
    split; [split; congruence |].
    split.
    { unfold unset_together. rewrite Hsx, Hsy, Hsz, Hpx, Hpy. simpl.
      repeat split; reflexivity. }
    split; [reflexivity |]. split; [rewrite Hz; reflexivity |].
    rewrite Hh. reflexivity.
  - intros Hup. apply update_present_inv in Hup
      as (o & cx & cy & cz & sx & sy & sz & s2 & _ & _ & _ & Hcls & ->).
    apply classify_shape in Hcls as (s1 & cand & p' & [= -> -> ->] & Hs1 & Hp & Horbit).
    cbn zeta. cbn [set_last_openness set_history set_prev _candidate
                   _gesture_streak _current_gesture _zoom_end_time
                   _last_openness_time].
    fold (feed s1 cand).
    rewrite set_gesture_candidate, set_gesture_current, set_gesture_streak.
    destruct (set_gesture_frame s1 cand)
      as (Hfx & Hfy & Hfz & _ & _ & _ & _ & _ & _ & Hz).
    rewrite Hz.
    assert (Hsmooth : _smooth_x (feed s1 cand) = Some sx
                      /\ _smooth_y (feed s1 cand) = Some sy
                      /\ _smooth_z (feed s1 cand) = Some sz).
    { rewrite Hfx, Hfy, Hfz. destruct Hs1 as [-> | [-> _]]; repeat split. }
    destruct Hsmooth as (Hx & Hy & Hz').
    assert (Hfields : _candidate s1 = _candidate s
                      /\ _gesture_streak s1 = _gesture_streak s
                      /\ _current_gesture s1 = _current_gesture s).
    { destruct Hs1 as [-> | [-> _]]; repeat split. }
    destruct Hfields as (-> & -> & ->).
    split; [reflexivity |]. split; [reflexivity |]. split; [reflexivity |].
    split; [exact Hp |].
    split.
    { unfold unset_together. simpl. rewrite Hx, Hy, Hz'.
      repeat split; discriminate. }
    split.
    { destruct Hs1 as [-> | [-> Hzoom]]; [left; reflexivity | right].
      split; [reflexivity | exact Hzoom]. }
    split; [| reflexivity].
    intros Hc. apply Horbit in Hc as [Hc _]. exact Hc.
Qed.

(** ** Payload and returned gesture *)

(** The payload of a tick goes with its candidate: it is present exactly
    when the candidate is Orbit, and it is then the move of the smoothed
    fingertip centre from the previous position. *)
Lemma tick_payload (s s' : GestureRecogniser) (t : Tick) (g : Gesture) (p : Payload) :
  tick s t = inr (s', (g, p)) ->
  (p <> None <-> _candidate s' = ORBIT)
  /\ (forall d, p = Some d ->
        exists px py sx sy,
          _prev_x s = Some px /\ _prev_y s = Some py
          /\ _smooth_x s' = Some sx /\ _smooth_y s' = Some sy
          /\ d = (sx - px, sy - py)).
Proof.
  intros Htick. split.
  { apply tick_shape in Htick. cbn zeta in Htick. tauto. }
  intros d ->. destruct t as [| hand t1 t2]; cbn [tick] in Htick.
  - rewrite update_absent_eq in Htick. discriminate.
  - apply update_present_inv in Htick
      as (o & cx & cy & cz & sx & sy & sz & s2 & _ & _ & _ & Hcls & ->).
    apply classify_shape in Hcls
      as (s1 & cand & p' & [= -> -> <-] & Hs1 & Hpay & Horbit).
    destruct Horbit as (_ & _ & px & py & Hpx & Hpy & [= ->] & _);
      [apply Hpay; discriminate |].
    exists px, py, sx, sy.
    cbn [set_last_openness set_history set_prev _smooth_x _smooth_y].
    destruct (set_gesture_frame s1 cand) as (-> & -> & _).
    repeat split; try assumption;
      destruct Hs1 as [-> | [-> _]]; reflexivity.
Qed.

(** C1. The class documentation pairs a payload with Orbit only (Idle and the
    zooms carry [None]).  [_classify] pairs the payload with the candidate it
    feeds to [_set_gesture], while the gesture it returns is the confirmed
    one: on every tick the payload is present exactly when the candidate is
    Orbit, and is then the displacement of the smoothed fingertip centre.
    On the drifting open hand the second and third ticks return Idle
    together with a displacement, and the tick without a hand returns Orbit
    with no payload. *)
Theorem payload_follows_candidate_not_returned_gesture :
  (forall s s' t g p,
      tick s t = inr (s', (g, p)) ->
      g = _current_gesture s'
      /\ (p <> None <-> _candidate s' = ORBIT)
      /\ (forall d, p = Some d ->
            exists px py sx sy,
              _prev_x s = Some px /\ _prev_y s = Some py
              /\ _smooth_x s' = Some sx /\ _smooth_y s' = Some sy
              /\ d = (sx - px, sy - py)))
  /\ (exists s p2 p3 p4,
        run __init__ drifting_hand
        = inr (s, [(IDLE, None); (IDLE, Some p2); (IDLE, Some p3);
                   (ORBIT, Some p4); (ORBIT, None)])
        /\ p2 = (0.045, 0)).
Proof.
  split.
  - intros s s' t g p Htick. split.
    + apply tick_shape in Htick. cbn zeta in Htick. tauto.
    + apply (tick_payload s s' t g p Htick).
  - do 4 eexists. split.
    + unfold drifting_hand. eval_run.
    + f_equal; lra.
Qed.

(** ** Which calls return *)

(** A snapshot with fewer than 21 landmarks never gets through
    [_hand_openness]; in range, what it raises is [IndexError]. *)
Lemma hand_openness_short_raises (hand : HandData) :
  (length (landmarks hand) < 21)%nat -> exists e, _hand_openness hand = inl e.
Proof.
  intros Hlen. pose proof (hand_openness_cases hand) as H.
  destruct (_hand_openness hand) as [e | o]; [exists e; reflexivity |].
  destruct H as (H & _). lia.
Qed.

Lemma hand_openness_short (hand : HandData) :
  (length (landmarks hand) < 21)%nat ->
  in_range hand ->
  _hand_openness hand = inl IndexError.
Proof.
  intros Hlen Hr. destruct (hand_openness_short_raises hand Hlen) as [e He].
  rewrite He. apply hand_openness_raises in He.
  destruct He as [[-> _] | [_ H]]; [reflexivity | contradiction].
Qed.

Lemma update_raises_with_openness (s : GestureRecogniser) (hand : HandData)
    (t1 t2 : R) (e : PyError) :
  _hand_openness hand = inl e -> update s (Some hand) t1 t2 = inl e.
Proof. intros He. unfold update. rewrite He. reflexivity. Qed.

Lemma fingertip_center_returns (hand : HandData) :
  (21 <= length (landmarks hand))%nat -> returns (fingertip_center hand).
Proof.
  intros Hlen. unfold fingertip_center, tip_ids. cbn [mapM].
  rewrite !(getitem_lt _ _ (Landmark.mk 0 0 0)) by lia.
  cbn [bind ret]. rewrite !py_div_nonzero by lra.
  eexists; reflexivity.
Qed.

Lemma classify_returns (s : GestureRecogniser) (hand : HandData)
    (o sx sy now : R) :
  (_prev_x s = None <-> _prev_y s = None) ->
  returns (_classify s hand o sx sy now).
Proof.
  intros Hprev. unfold _classify, returns.
  rewrite openness_speed_eq. cbn [bind].
  set (speed := if (length _ <? 4)%nat then _ else _). clearbody speed.
  destruct (speed_zoom speed); [rewrite emit_eq; eexists; reflexivity |].
  destruct (_ && _); [rewrite emit_eq; eexists; reflexivity |].
  destruct (_ && _); [rewrite emit_eq; eexists; reflexivity |].
  set (s1 := if zoom_ended s speed then set_zoom_end_time s now else s).
  assert (Hs1 : _prev_x s1 = _prev_x s /\ _prev_y s1 = _prev_y s).
  { subst s1. destruct (zoom_ended s speed); split; reflexivity. }
  destruct Hs1 as [Hpx Hpy]. clearbody s1.
  destruct (flt _ _); [rewrite emit_eq; eexists; reflexivity |].
  destruct (fgt o 0.55); [| rewrite emit_eq; eexists; reflexivity].
  rewrite Hpx, Hpy.
  destruct (_prev_x s) as [px |] eqn:Hx; [| rewrite emit_eq; eexists; reflexivity].
  destruct (_prev_y s) as [py |] eqn:Hy;
    [| destruct Hprev as [_ Hprev]; specialize (Hprev eq_refl); discriminate].
  cbn [operand bind ret].
  destruct (fgt _ _); rewrite emit_eq; eexists; reflexivity.
Qed.

(** On a state whose optional fields are unset in groups, a tick without a
    hand or with a snapshot of at least 21 landmarks, in range, returns. *)
Lemma tick_returns (s : GestureRecogniser) (t : Tick) :
  unset_together s -> well_formed t -> in_range_tick t -> returns (tick s t).
Proof.
  intros Hinv Hwf Hr.
  destruct t as [| hand t1 t2]; cbn [tick well_formed in_range_tick] in *.
  - rewrite update_absent_eq. eexists; reflexivity.
  - unfold update. rewrite hand_openness_refines by assumption.
    destruct (fingertip_center_returns hand Hwf) as [[[cx cy] cz] ->].
    cbn [bind].
    destruct (ema_returns s cx cy cz Hinv) as [[s1 [[sx sy] sz]] Hema].
    rewrite Hema. cbn [bind].
    apply ema_shape in Hema. subst s1.
    destruct (classify_returns (set_smooth s (Some sx) (Some sy) (Some sz))
                hand (openness_spec hand) sx sy t1) as [[s2 [g p]] ->].
    { destruct Hinv as [Hprev _]. exact Hprev. }
    cbn [bind ret]. eexists; reflexivity.
Qed.


Lemma reachable_unset_together (s : GestureRecogniser) :
  reachable s -> unset_together s.
Proof.
  induction 1 as [| s t s' [g p] _ _ Htick].
  - unfold unset_together. simpl. repeat split; reflexivity.
  - apply tick_shape in Htick. cbn zeta in Htick. tauto.
Qed.

(** The exceptions a tick can raise: [IndexError], only on a short
    snapshot, and [OverflowError], only on a snapshot out of range. *)
Lemma tick_raises_cases (s : GestureRecogniser) (t : Tick) (e : PyError) :
  unset_together s -> tick s t = inl e ->
  (e = IndexError /\ ~ well_formed t)
  \/ (e = OverflowError /\ ~ in_range_tick t).
Proof.
  intros Hinv He. destruct t as [| hand t1 t2];
    [cbn [tick] in He; rewrite update_absent_eq in He; discriminate |].
  cbn [well_formed in_range_tick].
  destruct (_hand_openness hand) as [e0 | o] eqn:Ho.
  - cbn [tick] in He.
    rewrite (update_raises_with_openness s hand t1 t2 e0 Ho) in He.
    injection He as <-. apply hand_openness_raises in Ho.
    destruct Ho as [[-> H] | [-> H]];
      [left; split; [reflexivity | lia] | right; split; [reflexivity | exact H]].
  - apply hand_openness_inv in Ho as (Hlen & Hr & _).
    destruct (tick_returns s (Present hand t1 t2) Hinv Hlen Hr) as [r Hr'].
    congruence.
Qed.

(** C10. In every state reachable from the initial one, the previous
    position is unset as a pair and the smoothed position as a triple, so the
    unguarded arithmetic on [_prev_y] in [_classify] and on [_smooth_y],
    [_smooth_z] in [_ema] always finds a value: [_ema] and [_classify]
    return, and no tick raises [TypeError]. *)
Theorem optional_fields_unset_together :
  forall s : GestureRecogniser,
    reachable s ->
    (_prev_x s = None <-> _prev_y s = None)
    /\ (_smooth_x s = None <-> _smooth_y s = None)
    /\ (_smooth_y s = None <-> _smooth_z s = None)
    /\ (forall x y z, returns (_ema s x y z))
    /\ (forall hand o sx sy now, returns (_classify s hand o sx sy now))
    /\ (forall t, tick s t <> inl TypeError).
Proof.
  intros s Hreach. pose proof (reachable_unset_together s Hreach) as Hinv.
  destruct Hinv as (Hprev & Hxy & Hyz).
  split; [exact Hprev |]. split; [exact Hxy |]. split; [exact Hyz |].
  split; [intros; apply ema_returns; repeat split; tauto |].
  split; [intros; apply classify_returns; exact Hprev |].
  intros t Herr.
  apply tick_raises_cases in Herr; [| repeat split; tauto].
  destruct Herr as [[Herr _] | [Herr _]]; discriminate.
Qed.

Lemma first_tick_reachable :
  exists s, reachable s /\ _prev_x s = Some 0.5 /\ _smooth_x s = Some 0.5.
Proof.
  eexists. split.
  - eapply (reachable_tick __init__ (Present (hand_of 0.8 0.5 0.5) 1 1));
      [constructor | eval_tick; reflexivity].
  - split; reflexivity.
Qed.

Lemma optional_fields_unset_together_witness :
  exists s : GestureRecogniser,
    (reachable s /\ _prev_x s = Some 0.5)
    /\ (_prev_x s = None <-> _prev_y s = None)
    /\ (_smooth_x s = None <-> _smooth_y s = None)
    /\ (_smooth_y s = None <-> _smooth_z s = None)
    /\ (forall x y z, returns (_ema s x y z))
    /\ (forall hand o sx sy now, returns (_classify s hand o sx sy now))
    /\ (forall t, tick s t <> inl TypeError).
Proof.
  destruct first_tick_reachable as (s & Hreach & Hprev & _).
  exists s. split; [split; assumption |].
  exact (optional_fields_unset_together s Hreach).
Defined.

(** ** Which inputs make [update] return *)







(** ** Absence of a hand *)

Lemma run_reachable (ts : list Tick) :
  forall s s' outs, reachable s -> run s ts = inr (s', outs) -> reachable s'.
Proof.
  induction ts as [| t ts IH]; intros s s' outs Hreach Hrun.
  - injection Hrun as <- _. exact Hreach.
  - cbn [run] in Hrun.
    destruct (tick s t) as [e | [s1 out]] eqn:Htick; [discriminate |].
    cbn [bind] in Hrun.
    destruct (run s1 ts) as [e | [s2 outs']] eqn:Hrest; [discriminate |].
    injection Hrun as <- _.
    eapply IH; [| exact Hrest].
    eapply reachable_tick; eassumption.
Qed.

Lemma reachable_streak_nonneg (s : GestureRecogniser) :
  reachable s -> (0 <= _gesture_streak s)%Z.
Proof.
  induction 1 as [| s t s' [g p] _ IH Htick]; [simpl; lia |].
  apply tick_shape in Htick. cbn zeta in Htick.
  destruct Htick as (-> & _). destruct (Gesture_eqb _ _); lia.
Qed.

(** Ticks without a hand, one after the other: once the Idle streak reaches
    the confidence-frame count the confirmed gesture is Idle. *)
Lemma absent_ticks_drive_idle (n : nat) :
  forall (s : GestureRecogniser) (k : Z),
    (0 <= _gesture_streak s)%Z ->
    (_candidate s = IDLE /\ (k <= _gesture_streak s)%Z) \/ k = 0%Z ->
    exists s' outs,
      run s (repeat Absent n) = inr (s', outs)
      /\ length outs = n
      /\ ((1 <= n)%nat -> (cfg.GESTURE_CONFIDENCE_FRAMES <= k + Z.of_nat n)%Z ->
          _current_gesture s' = IDLE /\ last outs (ORBIT, None) = (IDLE, None)).
Proof.
  induction n as [| n IH]; intros s k Hpos Hk.
  - exists s, []. split; [reflexivity |]. split; [reflexivity | lia].
  - cbn [repeat run tick]. rewrite update_absent_eq. cbn [bind].
    set (s1 := feed (_reset_smooth s) IDLE).
    assert (Hcand : _candidate s1 = IDLE) by apply set_gesture_candidate.
    assert (Hstreak : (k + 1 <= _gesture_streak s1)%Z).
    { unfold s1. rewrite set_gesture_streak.
      change (_candidate (_reset_smooth s)) with (_candidate s).
      change (_gesture_streak (_reset_smooth s)) with (_gesture_streak s).
      destruct Hk as [[-> Hk] | ->]; [simpl; lia |].
      destruct (Gesture_eqb IDLE (_candidate s)); lia. }
    assert (Hpos1 : (1 <= _gesture_streak s1)%Z)
      by (apply set_gesture_streak_pos; exact Hpos).
    destruct (IH s1 (k + 1)%Z) as (s' & outs & Hrun & Hlen & Hidle);
      [lia | left; split; assumption |].
    rewrite Hrun. cbn [bind ret].
    exists s', ((_current_gesture s1, None) :: outs).
    split; [reflexivity |]. split; [simpl; lia |].
    intros _ Hn. destruct n as [| n].
    + cbn [repeat run ret] in Hrun. injection Hrun as <- <-.
      assert (Hcur : _current_gesture s1 = IDLE).
      { unfold s1 at 1. rewrite set_gesture_current. fold s1.
        destruct (Z.leb_spec cfg.GESTURE_CONFIDENCE_FRAMES (_gesture_streak s1));
          [reflexivity | lia]. }
      rewrite Hcur. split; reflexivity.
    + destruct Hidle as [Hcur Hlast]; [lia | lia |].
      split; [exact Hcur |].
      destruct outs as [| o outs]; [simpl in Hlen; lia |].
      exact Hlast.
Qed.

(** C8. A call with no hand clears the smoothed position, the previous
    position and the openness history, and leaves candidate, streak and
    confirmed gesture as they were; Idle is then fed to the hysteresis
    filter and the call returns the filter's confirmed gesture with no
    payload.  It never raises, and after at least [N] such calls in a row
    the confirmed gesture is Idle and (Idle, None) is what the call
    returns. *)
Theorem absence_resets_position_not_hysteresis :
  forall (s : GestureRecogniser) (t1 t2 : R),
    reachable s ->
    let r := _reset_smooth s in
    (_smooth_x r = None /\ _smooth_y r = None /\ _smooth_z r = None
     /\ _prev_x r = None /\ _prev_y r = None /\ _openness_history r = [])
    /\ (_candidate r = _candidate s
        /\ _gesture_streak r = _gesture_streak s
        /\ _current_gesture r = _current_gesture s)
    /\ update s None t1 t2 = inr (fst (_set_gesture r IDLE),
                                  (snd (_set_gesture r IDLE), None))
    /\ (let s' := fst (_set_gesture r IDLE) in
        _smooth_x s' = None /\ _smooth_y s' = None /\ _smooth_z s' = None
        /\ _prev_x s' = None /\ _prev_y s' = None /\ _openness_history s' = []
        /\ _zoom_end_time s' = _zoom_end_time s)
    /\ (forall n, (confidence_frames <= n)%nat ->
          exists s' outs,
            run s (repeat Absent n) = inr (s', outs)
            /\ _current_gesture s' = IDLE
            /\ last outs (ORBIT, None) = (IDLE, None)).
Proof.
  intros s t1 t2 Hreach r.
  split; [repeat split |]. split; [repeat split |].
  split.
  { rewrite update_absent_eq, set_gesture_returns_confirmed. reflexivity. }
  split.
  { cbn zeta. fold (feed r IDLE).
    destruct (set_gesture_frame r IDLE)
      as (-> & -> & -> & -> & -> & -> & _ & _ & _ & ->).
    repeat split. }
  intros n Hn.
  destruct (absent_ticks_drive_idle n s 0%Z) as (s' & outs & Hrun & _ & Hidle);
    [apply reachable_streak_nonneg; exact Hreach | right; reflexivity |].
  exists s', outs. split; [exact Hrun |].
  unfold confidence_frames, cfg.GESTURE_CONFIDENCE_FRAMES in *. apply Hidle; lia.
Qed.

Lemma orbit_confirmed_reachable :
  exists s, reachable s /\ _current_gesture s = ORBIT.
Proof.
  eexists. split.
  - eapply (run_reachable (firstn 4 drifting_hand) __init__);
      [constructor | unfold drifting_hand; cbn [firstn]; eval_run].
  - reflexivity.
Qed.

Lemma absence_resets_position_not_hysteresis_witness :
  exists s : GestureRecogniser,
    (reachable s /\ _current_gesture s = ORBIT)
    /\ exists s' outs,
         run s (repeat Absent confidence_frames) = inr (s', outs)
         /\ _current_gesture s' = IDLE
         /\ last outs (ORBIT, None) = (IDLE, None).
Proof.
  destruct orbit_confirmed_reachable as (s & Hreach & Horbit).
  exists s. split; [split; assumption |].
  apply (absence_resets_position_not_hysteresis s 0 0 Hreach).
  apply Nat.le_refl.
Defined.

(** ** The cooldown after a zoom *)

(** While the clock stays within 0.3 s of a time [T] that the zoom-end
    timestamp has reached, and the confirmed gesture is not Orbit, no tick
    makes Orbit the candidate, none returns Orbit or a payload. *)
Lemma cooldown_window (T : R) (ts : list Tick) :
  forall s s' outs,
    _current_gesture s <> ORBIT ->
    T <= _zoom_end_time s ->
    classify_readings_in T (T + _ORBIT_AFTER_ZOOM_COOLDOWN) ts ->
    run s ts = inr (s', outs) ->
    Forall no_orbit outs
    /\ (ts <> [] -> _candidate s' <> ORBIT)
    /\ _current_gesture s' <> ORBIT
    /\ T <= _zoom_end_time s'.
Proof.
  induction ts as [| t ts IH]; intros s s' outs Hcur Hzet Hclock Hrun.
  - injection Hrun as <- <-. repeat split; [constructor | congruence | assumption..].
  - cbn [run] in Hrun.
    destruct (tick s t) as [e | [s1 [g p]]] eqn:Htick; [discriminate |].
    cbn [bind] in Hrun.
    destruct (run s1 ts) as [e | [s2 outs']] eqn:Hrest; [discriminate |].
    injection Hrun as <- <-.
    inversion Hclock as [| ? ? Ht Hts]; subst.
    apply tick_shape in Htick. cbn zeta in Htick.
    destruct Htick as (_ & Hcur1 & -> & Hpay & _ & Hkind).
    assert (Hstep : _candidate s1 <> ORBIT /\ T <= _zoom_end_time s1).
    { destruct t as [| hand t1 t2].
      - destruct Hkind as (-> & -> & _). split; [discriminate | exact Hzet].
      - destruct Hkind as (Hz & Hgate & _).
        assert (Hz1 : T <= _zoom_end_time s1)
          by (destruct Hz as [-> | [-> _]]; lra).
        split; [| exact Hz1].
        intros Hc. apply Hgate in Hc. apply Hc. lra. }
    destruct Hstep as [Hcand1 Hzet1].
    assert (Hcur1' : _current_gesture s1 <> ORBIT).
    { rewrite Hcur1. destruct (_ <=? _)%Z; assumption. }
    assert (Hp : p = None).
    { destruct p as [d |]; [| reflexivity].
      exfalso. apply Hcand1, Hpay. discriminate. }
    destruct (IH s1 s2 outs' Hcur1' Hzet1 Hts Hrest) as (Houts & Hcand & Hcur2 & Hzet2).
    split; [constructor; [split; assumption | exact Houts] |].
    split; [| split; assumption].
    intros _. destruct ts as [| t' ts'].
    + injection Hrest as <- _. exact Hcand1.
    + apply Hcand. discriminate.
Qed.

(** ** The rules of [_classify] *)

Lemma openness_speed_of (s : GestureRecogniser) :
  _openness_speed s = inr (speed_of s).
Proof. unfold speed_of. rewrite openness_speed_eq. reflexivity. Qed.

Lemma opening_fast_zoom_in (s : GestureRecogniser) :
  opening_fast s -> speed_zoom (speed_of s) = Some ZOOM_IN.
Proof.
  intros (v & -> & Hv). unfold speed_zoom, fgt.
  rewrite flt_true by exact Hv. reflexivity.
Qed.

(** Rule 1: a speed-triggered zoom is the candidate, with no payload. *)
Lemma classify_speed_zoom (s : GestureRecogniser) (hand : HandData)
    (o sx sy now : R) (g : Gesture) :
  speed_zoom (speed_of s) = Some g ->
  _classify s hand o sx sy now = emit s g None.
Proof.
  intros Hz. unfold _classify. rewrite openness_speed_of. cbn [bind].
  rewrite Hz. reflexivity.
Qed.

(** Rule 4: when the zoom rules are silent and the cooldown is over, a
    qualifying motion is candidate Orbit with the displacement as payload. *)
Lemma classify_orbit (s : GestureRecogniser) (hand : HandData)
    (o sx sy now px py : R) :
  zoom_silent s o ->
  cooldown_over s now ->
  0.55 < o ->
  _prev_x s = Some px -> _prev_y s = Some py ->
  cfg.ORBIT_DEAD_ZONE < hypot (sx - px) (sy - py) ->
  _classify s hand o sx sy now = emit s ORBIT (Some (sx - px, sy - py)).
Proof.
  intros [Hz Hsus] [Hend Hcool] Ho Hpx Hpy Hd. unfold _classify.
  rewrite openness_speed_of. cbn [bind]. rewrite Hz.
  unfold sustain in Hsus. apply orb_false_elim in Hsus as [-> ->].
  rewrite Hend. rewrite flt_false by lra.
  unfold fgt. rewrite flt_true by exact Ho.
  rewrite Hpx, Hpy. cbn [operand bind ret].
  rewrite flt_true by exact Hd. reflexivity.
Qed.

(** Under silent zoom rules the candidate is Idle or Orbit. *)
Lemma classify_silent_candidate (s s' : GestureRecogniser) (hand : HandData)
    (o sx sy now : R) (out : Gesture * Payload) :
  zoom_silent s o ->
  _classify s hand o sx sy now = inr (s', out) ->
  _candidate s' = IDLE \/ _candidate s' = ORBIT.
Proof.
  intros [Hz Hsus]. unfold _classify.
  rewrite openness_speed_of. cbn [bind]. rewrite Hz.
  unfold sustain in Hsus. apply orb_false_elim in Hsus as [-> ->].
  set (s1 := if zoom_ended _ _ then _ else _). clearbody s1.
  assert (Hidle : emit s1 IDLE None = inr (s', out) -> _candidate s' = IDLE)
    by (rewrite emit_eq; intros [= <- _]; apply set_gesture_candidate).
  destruct (flt _ _); [auto |].
  destruct (fgt o 0.55); [| auto].
  destruct (_prev_x s1); [| auto].
  destruct (operand (_prev_y s1)); [discriminate |]. cbn [bind].
  destruct (fgt _ _); [| auto].
  rewrite emit_eq. intros [= <- _]. right. apply set_gesture_candidate.
Qed.

(** Where candidate ZoomIn comes from: the speed rule, or the sustain of a
    ZoomIn that is already confirmed. *)
Lemma classify_zoom_in_source (s s' : GestureRecogniser) (hand : HandData)
    (o sx sy now : R) (out : Gesture * Payload) :
  _classify s hand o sx sy now = inr (s', out) ->
  _candidate s' = ZOOM_IN ->
  speed_zoom (speed_of s) = Some ZOOM_IN \/ _current_gesture s = ZOOM_IN.
Proof.
  unfold _classify. rewrite openness_speed_of. cbn [bind].
  destruct (speed_zoom (speed_of s)) as [g |].
  { rewrite emit_eq. intros [= <- _]. rewrite set_gesture_candidate.
    intros ->. left; reflexivity. }
  destruct (Gesture_eqb_spec (_current_gesture s) ZOOM_IN) as [Hin | Hin];
    [right; exact Hin |].
  cbn [andb].
  assert (Hother : forall s1 g p,
             g <> ZOOM_IN ->
             emit s1 g p = inr (s', out) -> _candidate s' = ZOOM_IN -> False).
  { intros s1 g p Hg. rewrite emit_eq. intros [= <- _].
    rewrite set_gesture_candidate. exact Hg. }
  intros Hcls Hcand. exfalso. revert Hcls Hcand.
  destruct (_ && _); [apply Hother; discriminate |].
  set (s1 := if zoom_ended _ _ then _ else _). clearbody s1.
  destruct (flt _ _); [apply Hother; discriminate |].
  destruct (fgt o 0.55); [| apply Hother; discriminate].
  destruct (_prev_x s1); [| apply Hother; discriminate].
  destruct (operand (_prev_y s1)); [discriminate |]. cbn [bind].
  destruct (fgt _ _); apply Hother; discriminate.
Qed.

(** ** Ticks that feed a given candidate *)

(** A qualifying snapshot fed when the cooldown is over: the tick returns,
    its candidate is Orbit and its payload is the displacement. *)
Lemma tick_orbit (s : GestureRecogniser) (hand : HandData) (now now' : R) :
  orbit_qualifying s hand ->
  cooldown_over s now ->
  exists s' d,
    tick s (Present hand now now') = inr (s', (_current_gesture s', Some d))
    /\ _candidate s' = ORBIT.
Proof.
  intros (o & (cx & cy & cz & s1 & sx & sy & sz & px & py
               & Ho & Hc & Hema & Hopen & Hpx & Hpy & Hd) & Hsilent) Hover.
  cbn [tick]. unfold update. rewrite Ho, Hc. cbn [bind]. rewrite Hema.
  apply ema_shape in Hema. subst s1. cbn [bind].
  rewrite (classify_orbit _ hand o sx sy now px py);
    [| exact Hsilent | exact Hover | exact Hopen | exact Hpx | exact Hpy | exact Hd].
  rewrite emit_eq. cbn [bind]. unfold ret.
  lazymatch goal with
  | |- exists s' d, inr (?S, _) = _ /\ _ => exists S, (sx - px, sy - py)
  end.
  split; [reflexivity |]. apply set_gesture_candidate.
Qed.

(** A presence tick in a state whose openness speed is above the zoom
    threshold has candidate ZoomIn and no payload. *)
Lemma tick_zoom_in (s s' : GestureRecogniser) (hand : HandData) (now now' : R)
    (out : Gesture * Payload) :
  opening_fast s ->
  tick s (Present hand now now') = inr (s', out) ->
  _candidate s' = ZOOM_IN /\ snd out = None.
Proof.
  intros Hfast Htick. cbn [tick] in Htick.
  apply update_present_inv in Htick
    as (o & cx & cy & cz & sx & sy & sz & s2 & _ & _ & _ & Hcls & ->).
  rewrite (classify_speed_zoom _ hand o sx sy now ZOOM_IN) in Hcls
    by (apply opening_fast_zoom_in; exact Hfast).
  rewrite emit_eq in Hcls. injection Hcls as <- <-.
  split; [apply set_gesture_candidate | reflexivity].
Qed.

(** Three ticks in a row with the same candidate: the third returns it. *)
Lemma three_ticks_confirm (g : Gesture) (s s1 s2 s3 : GestureRecogniser)
    (a b c : Tick) (o1 o2 o3 : Gesture * Payload) :
  (0 <= _gesture_streak s)%Z ->
  tick s a = inr (s1, o1) -> tick s1 b = inr (s2, o2) -> tick s2 c = inr (s3, o3) ->
  _candidate s1 = g -> _candidate s2 = g -> _candidate s3 = g ->
  fst o3 = g /\ _current_gesture s3 = g.
Proof.
  intros Hpos H1 H2 H3 C1 C2 C3.
  destruct o1 as [g1 p1], o2 as [g2 p2], o3 as [g3 p3].
  apply tick_shape in H1, H2, H3. cbn zeta in *.
  destruct H1 as (S1 & _). destruct H2 as (S2 & _).
  destruct H3 as (S3 & Cur3 & -> & _).
  rewrite C1, C2, C3 in *. rewrite Gesture_eqb_refl in S2, S3.
  assert (1 <= _gesture_streak s1)%Z
    by (rewrite S1; destruct (Gesture_eqb g _); lia).
  cbn [fst]. rewrite Cur3.
  destruct (Z.leb_spec cfg.GESTURE_CONFIDENCE_FRAMES (_gesture_streak s3));
    [split; reflexivity |].
  unfold cfg.GESTURE_CONFIDENCE_FRAMES in *. lia.
Qed.

(** A presence tick on which the zoom rules are silent, read within the
    cooldown of the zoom end in force: the candidate is Idle and there is no
    payload. *)
Lemma tick_cooldown_idle (s s' : GestureRecogniser) (hand : HandData)
    (now now' : R) (out : Gesture * Payload) (o : R) :
  tick s (Present hand now now') = inr (s', out) ->
  _hand_openness hand = inr o ->
  zoom_silent s o ->
  now - _zoom_end_time s' < _ORBIT_AFTER_ZOOM_COOLDOWN ->
  _candidate s' = IDLE /\ snd out = None.
Proof.
  destruct out as [g p]. intros Htick Ho Hsilent Hcool.
  cbn [tick] in Htick.
  apply update_present_inv in Htick
    as (o' & cx & cy & cz & sx & sy & sz & s2 & Ho' & _ & _ & Hcls & ->).
  assert (o' = o) by congruence. subst o'.
  assert (Hsilent' : zoom_silent (set_smooth s (Some sx) (Some sy) (Some sz)) o)
    by exact Hsilent.
  pose proof (classify_silent_candidate _ _ hand o sx sy now _ Hsilent' Hcls)
    as Hcand.
  apply classify_shape in Hcls
    as (s1 & cand & p' & [= -> -> ->] & _ & Hpay & Horbit).
  cbn [set_last_openness set_history set_prev _candidate _zoom_end_time snd]
    in *.
  rewrite set_gesture_candidate in *.
  destruct (set_gesture_frame s1 cand)
    as (_ & _ & _ & _ & _ & _ & _ & _ & _ & Hz).
  rewrite Hz in Hcool.
  assert (Hidle : cand = IDLE).
  { destruct Hcand as [Hc | Hc]; [exact Hc |].
    apply Horbit in Hc as [Hc _]. contradiction. }
  split; [exact Hidle |].
  destruct p' as [d |]; [| reflexivity].
  assert (cand = ORBIT) by (apply Hpay; discriminate). congruence.
Qed.

(** The end of a zoom.  A tick taken with ZoomIn or ZoomOut confirmed that
    reads a known speed below the threshold in magnitude, with a hand that
    the sustain rule does not keep zooming, stamps the zoom end with its
    reading; its candidate is Idle and it has no payload. *)
Lemma tick_stamps_zoom_end (s s' : GestureRecogniser) (hand : HandData)
    (now now' : R) (out : Gesture * Payload) (o v : R) :
  _current_gesture s = ZOOM_IN \/ _current_gesture s = ZOOM_OUT ->
  speed_of s = Some v ->
  Rabs v < cfg.ZOOM_SPEED_THRESHOLD ->
  _hand_openness hand = inr o ->
  sustain s o = false ->
  tick s (Present hand now now') = inr (s', out) ->
  _zoom_end_time s' = now /\ _candidate s' = IDLE /\ snd out = None.
Proof.
  destruct out as [g p]. intros Hzoom Hv Habs Ho Hsus Htick.
  cbn [tick] in Htick.
  apply update_present_inv in Htick
    as (o' & cx & cy & cz & sx & sy & sz & s2 & Ho' & _ & _ & Hcls & ->).
  assert (o' = o) by congruence. subst o'.
  set (s1 := set_smooth s (Some sx) (Some sy) (Some sz)) in *.
  assert (Hv1 : speed_of s1 = Some v) by exact Hv.
  assert (Hsilent : speed_zoom (Some v) = None).
  { unfold speed_zoom, fgt. apply Rabs_def2 in Habs.
    rewrite (flt_false cfg.ZOOM_SPEED_THRESHOLD v) by lra.
    rewrite (flt_false v (- cfg.ZOOM_SPEED_THRESHOLD)) by lra. reflexivity. }
  assert (Hended : zoom_ended s1 (Some v) = true).
  { unfold zoom_ended. change (_current_gesture s1) with (_current_gesture s).
    rewrite (flt_true _ _ Habs).
    destruct Hzoom as [-> | ->]; reflexivity. }
  unfold _classify in Hcls. rewrite openness_speed_of, Hv1 in Hcls.
  cbn [bind] in Hcls. rewrite Hsilent in Hcls.
  unfold sustain in Hsus. apply orb_false_elim in Hsus as [Hin Hout].
  change (_current_gesture s1) with (_current_gesture s) in Hcls.
  rewrite Hin, Hout, Hended in Hcls.
  cbn [set_zoom_end_time _zoom_end_time] in Hcls.
  rewrite flt_true in Hcls by (unfold _ORBIT_AFTER_ZOOM_COOLDOWN; lra).
  rewrite emit_eq in Hcls. injection Hcls as <- _ <-.
  cbn [set_last_openness set_history set_prev _zoom_end_time _candidate snd].
  rewrite set_gesture_candidate.
  destruct (set_gesture_frame (set_zoom_end_time s1 now) IDLE)
    as (_ & _ & _ & _ & _ & _ & _ & _ & _ & ->).
  repeat split.
Qed.

(** C4, as the code has it.  Cooldown after a zoom.
    - The end of a zoom is recorded: a tick taken with ZoomIn or ZoomOut
      confirmed that reads a known speed below 0.8 in magnitude, on a hand
      that the sustain rule does not keep zooming, stamps the zoom end with
      its reading [T] and has candidate Idle.  That tick and every later
      tick read before [T + 0.3] returns neither Orbit nor a payload, and
      Orbit is never the candidate, however the hand moves.
    - The zoom rules precede the cooldown gate.  On a tick on which they are
      silent and whose reading is within 0.3 s of the zoom-end timestamp in
      force, the candidate is Idle.
    - Once the cooldown is over, a qualifying snapshot makes Orbit the
      candidate with the displacement as payload, and the third such tick in
      a row returns Orbit. *)
Theorem orbit_suppressed_during_cooldown :
  (forall s0 hand T T' o v s1 out ts s' outs,
      _current_gesture s0 = ZOOM_IN \/ _current_gesture s0 = ZOOM_OUT ->
      speed_of s0 = Some v ->
      Rabs v < cfg.ZOOM_SPEED_THRESHOLD ->
      _hand_openness hand = inr o ->
      sustain s0 o = false ->
      tick s0 (Present hand T T') = inr (s1, out) ->
      classify_readings_in T (T + _ORBIT_AFTER_ZOOM_COOLDOWN) ts ->
      run s1 ts = inr (s', outs) ->
      _zoom_end_time s1 = T
      /\ _candidate s1 = IDLE
      /\ Forall no_orbit (out :: outs)
      /\ _candidate s' <> ORBIT)
  /\ (forall s hand now now' s' out o,
        tick s (Present hand now now') = inr (s', out) ->
        _hand_openness hand = inr o ->
        zoom_silent s o ->
        now - _zoom_end_time s' < _ORBIT_AFTER_ZOOM_COOLDOWN ->
        _candidate s' = IDLE /\ snd out = None)
  /\ (forall s hand now now',
        orbit_qualifying s hand ->
        cooldown_over s now ->
        exists s' g d,
          tick s (Present hand now now') = inr (s', (g, Some d))
          /\ _candidate s' = ORBIT)
  /\ (forall s h1 h2 h3 t1 t1' t2 t2' t3 t3' s1 s2 s3 o1 o2 o3,
        (0 <= _gesture_streak s)%Z ->
        orbit_qualifying s h1 -> cooldown_over s t1 ->
        tick s (Present h1 t1 t1') = inr (s1, o1) ->
        orbit_qualifying s1 h2 -> cooldown_over s1 t2 ->
        tick s1 (Present h2 t2 t2') = inr (s2, o2) ->
        orbit_qualifying s2 h3 -> cooldown_over s2 t3 ->
        tick s2 (Present h3 t3 t3') = inr (s3, o3) ->
        fst o3 = ORBIT /\ snd o3 <> None).
Proof.
  split.
  { intros s0 hand T T' o v s1 [g p] ts s' outs
      Hzoom Hv Habs Ho Hsus Htick Hclock Hrun.
    destruct (tick_stamps_zoom_end s0 s1 hand T T' (g, p) o v
                Hzoom Hv Habs Ho Hsus Htick) as (Hstamp & Hidle & _).
    split; [exact Hstamp |]. split; [exact Hidle |].
    apply tick_shape in Htick. cbn zeta in Htick.
    destruct Htick as (_ & Hcur & -> & Hpay & _ & _ & Hgate & _).
    assert (Hcand : _candidate s1 <> ORBIT).
    { intros Hc. apply Hgate in Hc. apply Hc. rewrite Hstamp.
      unfold _ORBIT_AFTER_ZOOM_COOLDOWN. lra. }
    assert (Hcur1 : _current_gesture s1 <> ORBIT).
    { rewrite Hcur. destruct (_ <=? _)%Z; [exact Hcand |].
      destruct Hzoom as [-> | ->]; discriminate. }
    assert (Hp : p = None).
    { destruct p as [d |]; [| reflexivity].
      exfalso. apply Hcand, Hpay. discriminate. }
    destruct (cooldown_window T ts s1 s' outs Hcur1) as (Houts & Hc & _);
      [rewrite Hstamp; lra | exact Hclock | exact Hrun |].
    split; [constructor; [split; assumption | exact Houts] |].
    destruct ts as [| t ts]; [| apply Hc; discriminate].
    injection Hrun as <- _. exact Hcand. }
  split.
  { intros s hand now now' s' out o. apply tick_cooldown_idle. }
  split.
  { intros s hand now now' Hq Hover.
    destruct (tick_orbit s hand now now' Hq Hover) as (s' & d & Htick & Hc).
    exists s', (_current_gesture s'), d. split; assumption. }
  intros s h1 h2 h3 t1 t1' t2 t2' t3 t3' s1 s2 s3 o1 o2 o3
    Hpos Q1 V1 H1 Q2 V2 H2 Q3 V3 H3.
  destruct (tick_orbit s h1 t1 t1' Q1 V1) as (x1 & d1 & E1 & C1).
  destruct (tick_orbit s1 h2 t2 t2' Q2 V2) as (x2 & d2 & E2 & C2).
  destruct (tick_orbit s2 h3 t3 t3' Q3 V3) as (x3 & d3 & E3 & C3).
  rewrite H1 in E1. injection E1 as <- _.
  rewrite H2 in E2. injection E2 as <- _.
  rewrite H3 in E3. injection E3 as <- E3.
  split.
  - eapply (three_ticks_confirm ORBIT s s1 s2 s3); eassumption.
  - rewrite E3. discriminate.
Qed.

(** ** The zoom scenario, evaluated *)

Lemma hypot_lower (d a b : R) :
  0 <= d -> d * d < a * a + b * b -> d < hypot a b.
Proof.
  intros Hd H. pose proof (flt_hypot_true d a b Hd H) as Hf.
  destruct (flt_spec d (hypot a b)); [assumption | discriminate].
Qed.

(** Facts about a concrete state: the definitions are computed, the tests
    on reals settled by arithmetic. *)
Ltac eval_facts :=
  unfold opening_fast, zoom_silent, cooldown_over, speed_of, sustain,
    zoom_ended, _ORBIT_AFTER_ZOOM_COOLDOWN;
  repeat (eval_control; progress eval_tests);
  eval_control.

Ltac eval_pose :=
  unfold orbit_pose;
  do 9 eexists;
  split; [apply hand_of_openness; lra |];
  split; [apply hand_of_center |];
  split; [eval_control; reflexivity |];
  split; [lra |];
  split; [reflexivity |];
  split; [reflexivity |];
  apply hypot_lower; unfold cfg.ORBIT_DEAD_ZONE; lra.

Ltac eval_qualifying :=
  unfold orbit_qualifying;
  eexists; split; [eval_pose | eval_facts; split; reflexivity].

Lemma zoom_scenario :
  exists s4 s7 s10 s11 o11 s13 s14 s15 s16 o14 o15 o16,
    (run __init__ opening_hand
     = inr (s4, [(IDLE, None); (IDLE, None); (IDLE, None); (IDLE, None)])
     /\ _openness_history s4
        = [(10.00, 0.2); (10.03, 0.4); (10.07, 0.7); (10.10, 0.9)]
     /\ _candidate s4 = IDLE
     /\ run s4 zoom_in_ticks
        = inr (s7, [(IDLE, None); (IDLE, None); (ZOOM_IN, None)])
     /\ _candidate s7 = ZOOM_IN)
    /\ (run s7 zoom_decay_ticks
        = inr (s10, [(ZOOM_IN, None); (ZOOM_IN, None); (ZOOM_IN, None)])
        /\ (_current_gesture s10 = ZOOM_IN
            /\ speed_of s10 = Some ((0.6 - 0.2) / (11.10 - 10.00))
            /\ sustain s10 0.6 = false)
        /\ tick s10 (Present zoom_end_hand 11.20 11.20) = inr (s11, o11)
        /\ _zoom_end_time s11 = 11.20
        /\ orbit_qualifying s11 cooldown_hand_1
        /\ run s11 cooldown_ticks = inr (s13, [(IDLE, None); (IDLE, None)]))
    /\ ((0 <= _gesture_streak s13)%Z
        /\ orbit_qualifying s13 orbit_hand_1
        /\ cooldown_over s13 11.60
        /\ tick s13 (Present orbit_hand_1 11.60 11.60) = inr (s14, o14)
        /\ orbit_qualifying s14 orbit_hand_2
        /\ cooldown_over s14 11.70
        /\ tick s14 (Present orbit_hand_2 11.70 11.70) = inr (s15, o15)
        /\ orbit_qualifying s15 orbit_hand_3
        /\ cooldown_over s15 11.80
        /\ tick s15 (Present orbit_hand_3 11.80 11.80) = inr (s16, o16)).
Proof.
  do 12 eexists. split; [| split].
  - split. { unfold opening_hand. eval_run. }
    split. { reflexivity. }
    split. { reflexivity. }
    split. { unfold zoom_in_ticks. eval_run. }
    reflexivity.
  - split. { unfold zoom_decay_ticks. eval_run. }
    split.
    { split; [reflexivity |]. split; [| eval_facts; reflexivity].
      unfold speed_of. rewrite openness_speed_eq.
      unfold history_span, newest, oldest.
      cbn [_openness_history length Nat.ltb Nat.leb last hd fst snd].
      rewrite flt_false by lra. reflexivity. }
    split. { unfold zoom_end_hand. eval_tick. reflexivity. }
    split. { reflexivity. }
    split. { unfold cooldown_hand_1. eval_qualifying. }
    unfold cooldown_ticks, cooldown_hand_1, cooldown_hand_2. eval_run.
  - split. { simpl. lia. }
    split. { unfold orbit_hand_1. eval_qualifying. }
    split. { eval_facts. split; [reflexivity | lra]. }
    split. { unfold orbit_hand_1. eval_tick. reflexivity. }
    split. { unfold orbit_hand_2. eval_qualifying. }
    split. { eval_facts. split; [reflexivity | lra]. }
    split. { unfold orbit_hand_2. eval_tick. reflexivity. }
    split. { unfold orbit_hand_3. eval_qualifying. }
    split. { eval_facts. split; [reflexivity | lra]. }
    unfold orbit_hand_3. eval_tick. reflexivity.
Qed.

Lemma orbit_suppressed_during_cooldown_witness :
  exists s10 s11 o11 s13 outs s14 s15 s16 o14 o15 o16 v,
    (_current_gesture s10 = ZOOM_IN
     /\ speed_of s10 = Some v
     /\ Rabs v < cfg.ZOOM_SPEED_THRESHOLD
     /\ _hand_openness zoom_end_hand = inr 0.6
     /\ sustain s10 0.6 = false
     /\ tick s10 (Present zoom_end_hand 11.20 11.20) = inr (s11, o11)
     /\ orbit_qualifying s11 cooldown_hand_1
     /\ run s11 cooldown_ticks = inr (s13, outs))
    /\ (_zoom_end_time s11 = 11.20
        /\ _candidate s11 = IDLE
        /\ Forall no_orbit (o11 :: outs)
        /\ _candidate s13 <> ORBIT)
    /\ (tick s13 (Present orbit_hand_1 11.60 11.60) = inr (s14, o14)
        /\ tick s14 (Present orbit_hand_2 11.70 11.70) = inr (s15, o15)
        /\ tick s15 (Present orbit_hand_3 11.80 11.80) = inr (s16, o16)
        /\ fst o16 = ORBIT /\ snd o16 <> None).
Proof.
  destruct zoom_scenario
    as (s4 & s7 & s10 & s11 & o11 & s13 & s14 & s15 & s16 & o14 & o15 & o16
        & _ & (_ & (Hzoom & Hv & Hsus) & Hend & _ & Hq & Hcool)
        & (Hpos & Q1 & V1 & T1 & Q2 & V2 & T2 & Q3 & V3 & T3)).
  assert (Habs : Rabs ((0.6 - 0.2) / (11.10 - 10.00)) < cfg.ZOOM_SPEED_THRESHOLD)
    by (unfold cfg.ZOOM_SPEED_THRESHOLD; rewrite Rabs_pos_eq; lra).
  assert (Ho : _hand_openness zoom_end_hand = inr 0.6)
    by (apply hand_of_openness; lra).
  assert (Hclock : classify_readings_in 11.20
                     (11.20 + _ORBIT_AFTER_ZOOM_COOLDOWN) cooldown_ticks).
  { unfold classify_readings_in, cooldown_ticks, _ORBIT_AFTER_ZOOM_COOLDOWN.
    repeat constructor; lra. }
  exists s10, s11, o11, s13, [(IDLE, None); (IDLE, None)],
    s14, s15, s16, o14, o15, o16, ((0.6 - 0.2) / (11.10 - 10.00)).
  destruct orbit_suppressed_during_cooldown as (Hwindow & _ & _ & Hafter).
  split; [repeat (split; [assumption |]); exact Hcool |].
  split.
  - exact (Hwindow s10 zoom_end_hand 11.20 11.20 0.6 _ s11 o11 cooldown_ticks
             s13 _ (or_introl Hzoom) Hv Habs Ho Hsus Hend Hclock Hcool).
  - repeat (split; [assumption |]).
    exact (Hafter s13 orbit_hand_1 orbit_hand_2 orbit_hand_3
             11.60 11.60 11.70 11.70 11.80 11.80 s14 s15 s16 o14 o15 o16
             Hpos Q1 V1 T1 Q2 V2 T2 Q3 V3 T3).
Defined.

(** Inside the cooldown the sustain rule still wins.  The zoom end is
    stamped at 11.03 with ZoomIn still confirmed; at 11.10 a hand with
    openness 0.8 that has moved beyond the dead zone is sustained as
    ZoomIn: the candidate is not Idle. *)
Lemma zoom_sustained_inside_cooldown :
  exists s9 outs s' out,
    run __init__ zoom_just_ended = inr (s9, outs)
    /\ _current_gesture s9 = ZOOM_IN
    /\ _zoom_end_time s9 = 11.03
    /\ orbit_pose s9 wide_open_drifting_hand 0.8
    /\ tick s9 (Present wide_open_drifting_hand 11.10 11.10) = inr (s', out)
    /\ 11.10 - _zoom_end_time s' < _ORBIT_AFTER_ZOOM_COOLDOWN
    /\ _candidate s' = ZOOM_IN
    /\ _candidate s' <> IDLE.
Proof.
  do 4 eexists.
  split.
  { unfold zoom_just_ended, opening_hand, zoom_in_ticks, zoom_decay_ticks.
    cbn [app firstn]. eval_run. }
  split. { reflexivity. }
  split. { reflexivity. }
  split.
  { unfold wide_open_drifting_hand. eval_pose. }
  split. { unfold wide_open_drifting_hand. eval_tick. reflexivity. }
  split. { eval_facts. lra. }
  split; [reflexivity | discriminate].
Qed.

(** ** The cooldown of a fresh recogniser *)

(** C9, as the code has it.  A fresh recogniser has its zoom-end timestamp
    at clock value 0, as if a zoom had ended then, though none has occurred.
    - On the fresh recogniser a presence tick read at a clock value below
      0.3 gets candidate Idle and returns (Idle, None), whatever the hand
      does.
    - Along any trace whose readings all lie in [0, 0.3) Orbit is
      impossible: it is never the candidate, never returned, and no payload
      is emitted; a further tick read below 0.3 on which the zoom rules are
      silent has candidate Idle.
    - The drifting open hand shows it: fed at readings below 0.3 it yields
      Idle candidates, fed at readings above 0.3 it yields candidate
      Orbit. *)
Theorem fresh_recogniser_starts_in_cooldown :
  _zoom_end_time __init__ = 0
  /\ (forall hand now now' s' out,
        now < _ORBIT_AFTER_ZOOM_COOLDOWN ->
        tick __init__ (Present hand now now') = inr (s', out) ->
        _candidate s' = IDLE /\ out = (IDLE, None))
  /\ (forall ts s' outs,
        classify_readings_in 0 _ORBIT_AFTER_ZOOM_COOLDOWN ts ->
        run __init__ ts = inr (s', outs) ->
        Forall no_orbit outs
        /\ (ts <> [] ->
            _candidate s' = IDLE \/ _candidate s' = ZOOM_IN
            \/ _candidate s' = ZOOM_OUT))
  /\ (forall ts s outs hand now now' s' out o,
        classify_readings_in 0 _ORBIT_AFTER_ZOOM_COOLDOWN ts ->
        run __init__ ts = inr (s, outs) ->
        0 <= now < _ORBIT_AFTER_ZOOM_COOLDOWN ->
        tick s (Present hand now now') = inr (s', out) ->
        _hand_openness hand = inr o ->
        zoom_silent s o ->
        _candidate s' = IDLE /\ snd out = None)
  /\ (exists s,
        run __init__ early_drifting_hand
        = inr (s, [(IDLE, None); (IDLE, None); (IDLE, None)])
        /\ _candidate s = IDLE)
  /\ (exists s outs,
        run __init__ (firstn 3 drifting_hand) = inr (s, outs)
        /\ _candidate s = ORBIT).
Proof.
  assert (Hwindow : forall ts s' outs,
             classify_readings_in 0 _ORBIT_AFTER_ZOOM_COOLDOWN ts ->
             run __init__ ts = inr (s', outs) ->
             Forall no_orbit outs
             /\ (ts <> [] -> _candidate s' <> ORBIT)
             /\ 0 <= _zoom_end_time s').
  { intros ts s' outs Hclock Hrun.
    destruct (cooldown_window 0 ts __init__ s' outs) as (Houts & Hcand & _ & Hz).
    - discriminate.
    - simpl; lra.
    - rewrite Rplus_0_l. exact Hclock.
    - exact Hrun.
    - repeat split; assumption. }
  split; [reflexivity |].
  split.
  { intros hand now now' s' [g p] Hnow Htick. cbn [tick] in Htick.
    apply update_present_inv in Htick
      as (o & cx & cy & cz & sx & sy & sz & s2 & _ & _ & _ & Hcls & ->).
    unfold _ORBIT_AFTER_ZOOM_COOLDOWN in Hnow.
    cbv - [Rplus Rminus Rmult Rdiv Rinv Ropp Rabs IZR Q2R sqrt hypot flt
           py_div Rlt Rle Rgt Rge emit] in Hcls.
    rewrite flt_true in Hcls by lra.
    rewrite emit_eq in Hcls. injection Hcls as <- <- <-.
    split; reflexivity. }
  split.
  { intros ts s' outs Hclock Hrun.
    destruct (Hwindow ts s' outs Hclock Hrun) as (Houts & Hcand & _).
    split; [exact Houts |]. intros Hne. specialize (Hcand Hne).
    destruct (_candidate s'); auto. contradiction. }
  split.
  { intros ts s outs hand now now' s' [g p] o Hclock Hrun Hnow Htick Ho Hsilent.
    destruct (Hwindow ts s outs Hclock Hrun) as (_ & _ & Hz).
    apply (tick_cooldown_idle s s' hand now now' (g, p) o Htick Ho Hsilent).
    apply tick_shape in Htick. cbn zeta in Htick.
    destruct Htick as (_ & _ & _ & _ & _ & Hstamp & _).
    unfold _ORBIT_AFTER_ZOOM_COOLDOWN in *.
    destruct Hstamp as [-> | [-> _]]; lra. }
  split.
  { eexists. split; [unfold early_drifting_hand; eval_run | reflexivity]. }
  do 2 eexists. split;
    [unfold drifting_hand; cbn [firstn]; eval_run | reflexivity].
Qed.

(** Inside the initial cooldown the zoom rules still fire.  On a fresh
    recogniser fed a hand that opens fast, every reading below 0.3, the
    candidate is ZoomIn, not Idle, from the fifth tick on, and the seventh
    tick returns ZoomIn. *)
Lemma zoom_in_inside_initial_cooldown :
  exists s5 outs5 s7 outs7,
    classify_readings_in 0 _ORBIT_AFTER_ZOOM_COOLDOWN early_opening_hand
    /\ run __init__ (firstn 5 early_opening_hand) = inr (s5, outs5)
    /\ _candidate s5 = ZOOM_IN
    /\ _candidate s5 <> IDLE
    /\ run __init__ early_opening_hand = inr (s7, outs7)
    /\ last outs7 (IDLE, None) = (ZOOM_IN, None)
    /\ _candidate s7 = ZOOM_IN
    /\ _current_gesture s7 = ZOOM_IN.
Proof.
  do 4 eexists.
  split.
  { unfold classify_readings_in, early_opening_hand,
      _ORBIT_AFTER_ZOOM_COOLDOWN.
    repeat constructor; lra. }
  split. { unfold early_opening_hand. cbn [firstn]. eval_run. }
  split. { reflexivity. }
  split. { discriminate. }
  split. { unfold early_opening_hand. eval_run. }
  repeat split.
Qed.

(** ** The zoom-in scenario *)

(** A window of four samples that rises from 0.2 to 0.9 in at most 0.1 s
    (and at least the 0.05 s the speed needs) reads as a speed of 7 per
    second or more. *)
Lemma rising_window_speed (s : GestureRecogniser) (t0 t3 : R) (e1 e2 : R * R) :
  _openness_history s = [(t0, 0.2); e1; e2; (t3, 0.9)] ->
  0.05 <= t3 - t0 <= 0.1 ->
  exists v, speed_of s = Some v /\ 7 <= v.
Proof.
  intros Hh Hdt. unfold speed_of. rewrite openness_speed_eq. rewrite Hh.
  unfold history_span, newest, oldest. cbn [length Nat.ltb Nat.leb last hd fst snd].
  rewrite flt_false by lra.
  eexists. split; [reflexivity |].
  apply Rmult_le_reg_r with (t3 - t0); [lra |].
  unfold Rdiv. rewrite Rmult_assoc, Rinv_l by lra. lra.
Qed.

(** A tick that reads fewer than four buffered samples, with no ZoomIn
    confirmed, cannot have candidate ZoomIn. *)
Lemma tick_short_window_no_zoom_in (s s' : GestureRecogniser) (hand : HandData)
    (now now' : R) (out : Gesture * Payload) :
  (length (_openness_history s) < 4)%nat ->
  _current_gesture s <> ZOOM_IN ->
  tick s (Present hand now now') = inr (s', out) ->
  _candidate s' <> ZOOM_IN.
Proof.
  intros Hlen Hcur Htick Hcand. cbn [tick] in Htick.
  apply update_present_inv in Htick
    as (o & cx & cy & cz & sx & sy & sz & s2 & _ & _ & _ & Hcls & ->).
  apply classify_zoom_in_source in Hcls; [| exact Hcand].
  destruct Hcls as [Hspeed | Hin]; [| exact (Hcur Hin)].
  unfold speed_of in Hspeed. rewrite openness_speed_eq in Hspeed.
  cbn [set_smooth _openness_history] in Hspeed.
  apply Nat.ltb_lt in Hlen. rewrite Hlen in Hspeed. discriminate.
Qed.

(** C5, as the code has it.  Zoom-in scenario.
    - [_classify] reads the speed from the samples buffered by earlier
      ticks: a tick that reads fewer than four samples, with no ZoomIn
      confirmed, cannot have candidate ZoomIn.
    - A tick that reads a window of four samples rising from 0.2 to 0.9
      within 0.1 s measures a speed of at least 7 per second, above the 0.8
      threshold; such a tick has candidate ZoomIn and no payload, and the
      third such tick in a row returns (ZoomIn, None).
    - From a fresh recogniser: four snapshots with openness 0.2, 0.4, 0.7,
      0.9 at clock 10.00 to 10.10 fill the window and leave the candidate at
      Idle; the tick after them is the first with candidate ZoomIn, and the
      third tick after them returns (ZoomIn, None). *)
Theorem zoom_in_on_fast_opening :
  (forall s hand now now' s' out,
      (length (_openness_history s) < 4)%nat ->
      _current_gesture s <> ZOOM_IN ->
      tick s (Present hand now now') = inr (s', out) ->
      _candidate s' <> ZOOM_IN)
  /\ (forall s t0 t3 e1 e2,
        _openness_history s = [(t0, 0.2); e1; e2; (t3, 0.9)] ->
        0.05 <= t3 - t0 <= 0.1 ->
        opening_fast s /\ exists v, speed_of s = Some v /\ 7 <= v)
  /\ (forall s hand now now' s' out,
        opening_fast s ->
        tick s (Present hand now now') = inr (s', out) ->
        _candidate s' = ZOOM_IN /\ snd out = None)
  /\ (forall s h1 h2 h3 t1 t1' t2 t2' t3 t3' s1 s2 s3 o1 o2 o3,
        (0 <= _gesture_streak s)%Z ->
        opening_fast s -> tick s (Present h1 t1 t1') = inr (s1, o1) ->
        opening_fast s1 -> tick s1 (Present h2 t2 t2') = inr (s2, o2) ->
        opening_fast s2 -> tick s2 (Present h3 t3 t3') = inr (s3, o3) ->
        o3 = (ZOOM_IN, None))
  /\ (exists s4 s7,
        run __init__ opening_hand
        = inr (s4, [(IDLE, None); (IDLE, None); (IDLE, None); (IDLE, None)])
        /\ _openness_history s4
           = [(10.00, 0.2); (10.03, 0.4); (10.07, 0.7); (10.10, 0.9)]
        /\ _candidate s4 = IDLE
        /\ speed_of s4 = Some ((0.9 - 0.2) / (10.10 - 10.00))
        /\ run s4 zoom_in_ticks
           = inr (s7, [(IDLE, None); (IDLE, None); (ZOOM_IN, None)])
        /\ _candidate s7 = ZOOM_IN).
Proof.
  split; [intros; eapply tick_short_window_no_zoom_in; eassumption |].
  split.
  { intros s t0 t3 e1 e2 Hh Hdt.
    destruct (rising_window_speed s t0 t3 e1 e2 Hh Hdt) as (v & Hv & Hge).
    split; [| exists v; split; assumption].
    exists v. split; [exact Hv | unfold cfg.ZOOM_SPEED_THRESHOLD; lra]. }
  split; [intros; eapply tick_zoom_in; eassumption |].
  split.
  { intros s h1 h2 h3 t1 t1' t2 t2' t3 t3' s1 s2 s3 o1 o2 o3
      Hpos F1 H1 F2 H2 F3 H3.
    destruct (tick_zoom_in _ _ _ _ _ _ F1 H1) as [C1 _].
    destruct (tick_zoom_in _ _ _ _ _ _ F2 H2) as [C2 _].
    destruct (tick_zoom_in _ _ _ _ _ _ F3 H3) as [C3 P3].
    destruct (three_ticks_confirm ZOOM_IN s s1 s2 s3 _ _ _ o1 o2 o3
                Hpos H1 H2 H3 C1 C2 C3) as [G3 _].
    destruct o3 as [g3 p3]. cbn [fst snd] in G3, P3. subst g3 p3.
    reflexivity. }
  destruct zoom_scenario
    as (s4 & s7 & s10 & s11 & o11 & s13 & s14 & s15 & s16 & o14 & o15 & o16
        & (Hfill & Hhist & Hcand & Hzoom & Hcand7) & _ & _).
  exists s4, s7. split; [exact Hfill |]. split; [exact Hhist |].
  split; [exact Hcand |].
  split.
  { unfold speed_of. rewrite openness_speed_eq, Hhist.
    unfold history_span, newest, oldest.
    cbn [length Nat.ltb Nat.leb last hd fst snd].
    rewrite flt_false by lra. reflexivity. }
  split; [exact Hzoom | exact Hcand7].
Qed.

(** The four rising snapshots alone.  The fourth tick is classified on a
    window of three samples: its speed is unknown and its candidate is Idle,
    as on the three ticks before it. *)
Lemma fourth_rising_tick_has_candidate_idle :
  exists s3 outs3 s4 out4,
    run __init__ (firstn 3 opening_hand) = inr (s3, outs3)
    /\ length (_openness_history s3) = 3%nat
    /\ speed_of s3 = None
    /\ tick s3 (Present (hand_of 0.9 0.5 0.5) 10.10 10.10) = inr (s4, out4)
    /\ _candidate s4 = IDLE
    /\ _candidate s4 <> ZOOM_IN.
Proof.
  do 4 eexists.
  split. { unfold opening_hand. cbn [firstn]. eval_run. }
  split. { reflexivity. }
  split. { reflexivity. }
  split. { eval_tick. reflexivity. }
  split; [reflexivity | discriminate].
Qed.

(** ** Presence ticks, step by step *)

Lemma hand_openness_range (hand : HandData) (o : R) :
  _hand_openness hand = inr o -> 0 <= o <= 1.
Proof.
  intros Ho. apply hand_openness_inv in Ho as (_ & _ & ->).
  apply openness_spec_bounds.
Qed.

Lemma hand_openness_well_formed (hand : HandData) (o : R) :
  _hand_openness hand = inr o -> (21 <= length (landmarks hand))%nat.
Proof.
  intros Ho. apply hand_openness_inv in Ho. tauto.
Qed.

Lemma ema_value (s s1 : GestureRecogniser) (x y z sx sy sz : R) :
  _ema s x y z = inr (s1, (sx, sy, sz)) ->
  match _smooth_x s, _smooth_y s, _smooth_z s with
  | Some px, Some py, Some pz =>
      sx = cfg.EMA_ALPHA * x + (1 - cfg.EMA_ALPHA) * px
      /\ sy = cfg.EMA_ALPHA * y + (1 - cfg.EMA_ALPHA) * py
      /\ sz = cfg.EMA_ALPHA * z + (1 - cfg.EMA_ALPHA) * pz
  | None, _, _ => sx = x /\ sy = y /\ sz = z
  | _, _, _ => False
  end.
Proof.
  unfold _ema. destruct (_smooth_x s) as [px |].
  - destruct (_smooth_y s) as [py |]; [| discriminate].
    destruct (_smooth_z s) as [pz |]; [| discriminate].
    cbn [operand bind ret]. intros [= _ <- <- <-]. repeat split.
  - intros [= _ <- <- <-]. repeat split.
Qed.

Lemma classify_orbit_silent (s s' : GestureRecogniser) (hand : HandData)
    (o sx sy now : R) (out : Gesture * Payload) :
  _classify s hand o sx sy now = inr (s', out) ->
  _candidate s' = ORBIT ->
  zoom_silent s o.
Proof.
  unfold _classify, zoom_silent, sustain. rewrite openness_speed_of. cbn [bind].
  destruct (speed_zoom (speed_of s)) as [g |] eqn:Hz.
  { rewrite emit_eq. intros [= <- _]. rewrite set_gesture_candidate. intros ->.
    apply speed_zoom_not_orbit in Hz as [Hz | Hz]; discriminate. }
  destruct (_ && _).
  { rewrite emit_eq. intros [= <- _]. rewrite set_gesture_candidate. discriminate. }
  destruct (_ && _).
  { rewrite emit_eq. intros [= <- _]. rewrite set_gesture_candidate. discriminate. }
  intros _ _. split; reflexivity.
Qed.

(** What a returning presence tick leaves in the state. *)
Lemma tick_present_frame (s s' : GestureRecogniser) (hand : HandData)
    (t1 t2 : R) (g : Gesture) (p : Payload) :
  tick s (Present hand t1 t2) = inr (s', (g, p)) ->
  exists o cx cy cz sx sy sz,
    _hand_openness hand = inr o
    /\ fingertip_center hand = inr (cx, cy, cz)
    /\ _ema s cx cy cz
       = inr (set_smooth s (Some sx) (Some sy) (Some sz), (sx, sy, sz))
    /\ (_smooth_x s' = Some sx /\ _smooth_y s' = Some sy /\ _smooth_z s' = Some sz
        /\ _prev_x s' = Some sx /\ _prev_y s' = Some sy)
    /\ _openness_history s'
       = deque_append history_maxlen (_openness_history s) (t2, o)
    /\ (_last_openness s' = Some o /\ _last_openness_time s' = t2
        /\ _last_zoom_time s' = _last_zoom_time s)
    /\ (_candidate s' = ORBIT ->
        0.55 < o
        /\ ~ t1 - _zoom_end_time s' < _ORBIT_AFTER_ZOOM_COOLDOWN
        /\ zoom_silent s o
        /\ exists px py,
             _prev_x s = Some px /\ _prev_y s = Some py
             /\ p = Some (sx - px, sy - py)
             /\ cfg.ORBIT_DEAD_ZONE < hypot (sx - px) (sy - py)).
Proof.
  intros Htick. cbn [tick] in Htick.
  apply update_present_inv in Htick
    as (o & cx & cy & cz & sx & sy & sz & s2 & Ho & Hc & Hema & Hcls & ->).
  exists o, cx, cy, cz, sx, sy, sz.
  pose proof (classify_orbit_silent _ _ _ _ _ _ _ _ Hcls) as Hsil.
  apply classify_shape in Hcls
    as (s1 & cand & p' & [= -> -> ->] & Hs1 & Hpay & Horbit).
  cbn [set_last_openness set_history set_prev _smooth_x _smooth_y _smooth_z
       _prev_x _prev_y _openness_history _last_openness _last_openness_time
       _last_zoom_time _candidate _zoom_end_time] in *.
  destruct (set_gesture_frame s1 cand)
    as (-> & -> & -> & _ & _ & -> & _ & _ & -> & ->).
  rewrite set_gesture_candidate in *.
  split; [exact Ho |]. split; [exact Hc |]. split; [exact Hema |].
  split; [destruct Hs1 as [-> | [-> _]]; repeat split |].
  split; [destruct Hs1 as [-> | [-> _]]; reflexivity |].
  split; [destruct Hs1 as [-> | [-> _]]; repeat split |].
  intros Hcand. destruct (Horbit Hcand) as (Hcool & Hopen & px & py & Hx & Hy & Hp & Hd).
  split; [exact Hopen |]. split; [exact Hcool |]. split; [exact (Hsil Hcand) |].
  exists px, py. repeat split; assumption.
Qed.

Lemma run_cons_inv (s s' : GestureRecogniser) (t : Tick) (ts : list Tick)
    (outs : list (Gesture * Payload)) :
  run s (t :: ts) = inr (s', outs) ->
  exists s1 out outs',
    tick s t = inr (s1, out) /\ run s1 ts = inr (s', outs')
    /\ outs = out :: outs'.
Proof.
  cbn [run]. destruct (tick s t) as [e | [s1 out]]; [discriminate |].
  cbn [bind]. destruct (run s1 ts) as [e | [s2 outs']] eqn:Hrest; [discriminate |].
  intros [= <- <-]. exists s1, out, outs'.
  split; [reflexivity |]. split; [exact Hrest | reflexivity].
Qed.

(** ** Sample states *)

Lemma opening_hand_state :
  exists s outs,
    run __init__ opening_hand = inr (s, outs)
    /\ reachable s
    /\ _openness_history s
       = [(10.00, 0.2); (10.03, 0.4); (10.07, 0.7); (10.10, 0.9)]
    /\ speed_of s = Some ((0.9 - 0.2) / (10.10 - 10.00)).
Proof.
  do 2 eexists.
  assert (Hrun : run __init__ opening_hand = inr (?[s], ?[outs]))
    by (unfold opening_hand; eval_run).
  split; [exact Hrun |].
  split; [exact (run_reachable _ _ _ _ reachable_init Hrun) |].
  split; [reflexivity |].
  unfold speed_of. rewrite openness_speed_eq.
  unfold history_span, newest, oldest.
  cbn [_openness_history length Nat.ltb Nat.leb last hd fst snd].
  rewrite flt_false by lra. reflexivity.
Qed.

Lemma second_tick_state :
  exists s s' d,
    reachable s
    /\ tick s (Present (hand_of 0.8 0.6 0.5) 1.1 1.1) = inr (s', (IDLE, Some d))
    /\ _candidate s' = ORBIT.
Proof.
  do 3 eexists. split; [| split].
  - eapply (reachable_tick __init__ (Present (hand_of 0.8 0.5 0.5) 1 1));
      [constructor | eval_tick; reflexivity].
  - eval_tick. reflexivity.
  - reflexivity.
Qed.


Lemma zoom_confirmed_state :
  exists s,
    reachable s /\ _current_gesture s = ZOOM_IN
    /\ speed_zoom (speed_of s) = Some ZOOM_IN.
Proof.
  eexists. split; [| split].
  - eapply (run_reachable (opening_hand ++ zoom_in_ticks) __init__);
      [constructor | unfold opening_hand, zoom_in_ticks; cbn [app]; eval_run].
  - reflexivity.
  - eval_facts. reflexivity.
Qed.


(** ** The openness window *)

Lemma deque_append_length {A : Type} (m : nat) (d : list A) (a : A) :
  (0 < m)%nat -> (length d <= m)%nat -> (length (deque_append m d a) <= m)%nat.
Proof.
  intros Hm Hd. unfold deque_append.
  destruct (Nat.ltb_spec m (length (d ++ [a]))) as [Hlt | Hge]; [| exact Hge].
  rewrite length_app in Hlt. cbn [length] in Hlt.
  destruct d as [| b d]; cbn [app tl length] in *; [lia |].
  rewrite length_app. cbn [length]. lia.
Qed.

Lemma deque_append_Forall {A : Type} (P : A -> Prop) (m : nat) (d : list A) (a : A) :
  Forall P d -> P a -> Forall P (deque_append m d a).
Proof.
  intros Hd Ha. assert (H : Forall P (d ++ [a]))
    by (apply Forall_app; split; [exact Hd | constructor; [exact Ha | constructor]]).
  unfold deque_append. destruct (_ <? _)%nat; [| exact H].
  destruct (d ++ [a]); [constructor | inversion H; assumption].
Qed.

Lemma reachable_window (s : GestureRecogniser) :
  reachable s ->
  (length (_openness_history s) <= history_maxlen)%nat
  /\ samples_in_unit (_openness_history s)
  /\ (forall o, _last_openness s = Some o -> 0 <= o <= 1).
Proof.
  induction 1 as [| s t s' [g p] _ (IHlen & IHin & IHlast) Htick].
  - split; [simpl; lia |]. split; [constructor | discriminate].
  - destruct t as [| hand t1 t2].
    + cbn [tick] in Htick. rewrite update_absent_eq in Htick.
      injection Htick as <- _ _.
      destruct (set_gesture_frame (_reset_smooth s) IDLE)
        as (_ & _ & _ & _ & _ & -> & -> & _).
      split; [simpl; lia |]. split; [constructor | exact IHlast].
    + apply tick_present_frame in Htick
        as (o & cx & cy & cz & sx & sy & sz & Ho & _ & _ & _ & -> & (-> & _) & _).
      apply hand_openness_range in Ho.
      split; [apply deque_append_length; [unfold history_maxlen; lia | exact IHlen] |].
      split; [apply deque_append_Forall; [exact IHin | exact Ho] |].
      intros o' [= <-]. exact Ho.
Qed.

Lemma last_In {A : Type} (l : list A) (d : A) : l <> [] -> In (last l d) l.
Proof.
  induction l as [| a [| b l] IH]; intros Hne; [congruence | left; reflexivity |].
  right. apply IH. discriminate.
Qed.

Lemma speed_of_inv (s : GestureRecogniser) (v : R) :
  speed_of s = Some v ->
  let h := _openness_history s in
  (4 <= length h)%nat /\ 0.05 <= history_span h
  /\ v = (snd (newest h) - snd (oldest h)) / history_span h.
Proof.
  unfold speed_of. rewrite openness_speed_eq. cbn zeta.
  destruct (Nat.ltb_spec (length (_openness_history s)) 4); [discriminate |].
  destruct (flt_spec (history_span (_openness_history s)) 0.05); [discriminate |].
  intros [= <-]. split; [assumption |]. split; [lra | reflexivity].
Qed.

(** X1. In every reachable state the openness window holds at most 10
    samples, every buffered openness lies in [0, 1], and so does the last
    openness recorded. *)
Theorem openness_window_bounded :
  forall s : GestureRecogniser,
    reachable s ->
    (length (_openness_history s) <= 10)%nat
    /\ samples_in_unit (_openness_history s)
    /\ (forall o, _last_openness s = Some o -> 0 <= o <= 1).
Proof. intros s Hreach. exact (reachable_window s Hreach). Qed.

Lemma openness_window_bounded_witness :
  exists s : GestureRecogniser,
    (reachable s /\ length (_openness_history s) = 4%nat)
    /\ (length (_openness_history s) <= 10)%nat
    /\ samples_in_unit (_openness_history s)
    /\ (forall o, _last_openness s = Some o -> 0 <= o <= 1).
Proof.
  destruct opening_hand_state as (s & outs & _ & Hreach & Hh & _).
  exists s. split; [split; [exact Hreach | rewrite Hh; reflexivity] |].
  exact (openness_window_bounded s Hreach).
Defined.

(** X2. In every reachable state a known openness speed is at most 20 per
    second in magnitude (a change of at most 1 over at least 0.05 s), is
    positive exactly when the newest buffered sample is more open than the
    oldest, and negative exactly when it is less open. *)
Theorem openness_speed_bounded :
  forall (s : GestureRecogniser) (v : R),
    reachable s ->
    speed_of s = Some v ->
    let h := _openness_history s in
    Rabs v <= 20
    /\ (0 < v <-> snd (oldest h) < snd (newest h))
    /\ (v < 0 <-> snd (newest h) < snd (oldest h)).
Proof.
  intros s v Hreach Hv h. apply speed_of_inv in Hv. cbn zeta in Hv. fold h in Hv.
  destruct Hv as (Hlen & Hspan & ->).
  destruct (reachable_window s Hreach) as (_ & Hin & _). fold h in Hin.
  assert (Hne : h <> []) by (destruct h; [simpl in Hlen; lia | discriminate]).
  unfold samples_in_unit in Hin. rewrite Forall_forall in Hin.
  assert (Hnew : 0 <= snd (newest h) <= 1) by (apply Hin, last_In, Hne).
  assert (Hold : 0 <= snd (oldest h) <= 1)
    by (apply Hin; unfold oldest; destruct h; [congruence | left; reflexivity]).
  set (d := snd (newest h) - snd (oldest h)) in *.
  set (dt := history_span h) in *.
  assert (Hdt : 0 < dt) by lra.
  assert (Hinv : 0 < / dt) by (apply Rinv_0_lt_compat; exact Hdt).
  assert (Hmul : d / dt * dt = d) by (unfold Rdiv; rewrite Rmult_assoc, Rinv_l by lra; ring).
  split; [| split].
  - apply Rabs_le. split.
    + apply Rmult_le_reg_r with dt; [exact Hdt |]. rewrite Hmul. subst d. nra.
    + apply Rmult_le_reg_r with dt; [exact Hdt |]. rewrite Hmul. subst d. nra.
  - split; intros H.
    + assert (0 < d) by (rewrite <- Hmul; apply Rmult_lt_0_compat; assumption).
      subst d; lra.
    + apply Rdiv_lt_0_compat; [subst d; lra | exact Hdt].
  - split; intros H.
    + assert (d < 0) by (rewrite <- Hmul; nra). subst d; lra.
    + assert (d < 0) by (subst d; lra). unfold Rdiv. nra.
Qed.

Lemma openness_speed_bounded_witness :
  exists (s : GestureRecogniser) (v : R),
    (reachable s /\ speed_of s = Some v /\ 7 <= v)
    /\ Rabs v <= 20
    /\ (0 < v <-> snd (oldest (_openness_history s))
                  < snd (newest (_openness_history s)))
    /\ (v < 0 <-> snd (newest (_openness_history s))
                  < snd (oldest (_openness_history s))).
Proof.
  destruct opening_hand_state as (s & outs & _ & Hreach & _ & Hv).
  exists s, ((0.9 - 0.2) / (10.10 - 10.00)).
  split; [split; [exact Hreach | split; [exact Hv | lra]] |].
  exact (openness_speed_bounded s _ Hreach Hv).
Defined.

(** ** The window under a monotone clock *)

Lemma chronological_snoc (h : list (R * R)) (e : R * R) :
  chronological h -> Forall (fun e' => fst e' <= fst e) h ->
  chronological (h ++ [e]).
Proof.
  unfold chronological. induction h as [| a h IH]; intros Hs Hle.
  - repeat constructor.
  - cbn [map app]. inversion Hs as [| ? ? Hs' Ha]; subst.
    inversion Hle as [| ? ? Hae Hle']; subst.
    constructor; [apply IH; assumption |].
    rewrite map_app. apply Forall_app. split; [exact Ha |].
    constructor; [exact Hae | constructor].
Qed.

Lemma chronological_tl (h : list (R * R)) :
  chronological h -> chronological (tl h).
Proof.
  unfold chronological. destruct h as [| a h]; [trivial |].
  intros Hs. inversion Hs; assumption.
Qed.

Lemma Forall_tl {A : Type} (P : A -> Prop) (l : list A) :
  Forall P l -> Forall P (tl l).
Proof. destruct l; [trivial | intros H; inversion H; assumption]. Qed.

Lemma chronological_span (h : list (R * R)) :
  chronological h -> 0 <= history_span h.
Proof.
  unfold chronological, history_span, newest, oldest.
  destruct h as [| a h]; [simpl; lra |].
  intros Hs. cbn [map] in Hs. inversion Hs as [| ? ? _ Ha]; subst.
  cbn [hd]. destruct h as [| b h]; [simpl; lra |].
  assert (Hin : In (last (b :: h) (0, 0)) (b :: h)) by (apply last_In; discriminate).
  rewrite Forall_forall in Ha.
  specialize (Ha (fst (last (b :: h) (0, 0))) (in_map fst _ _ Hin)).
  change (last (a :: b :: h) (0, 0)) with (last (b :: h) (0, 0)). lra.
Qed.

Lemma tick_clock_consistent (s s' : GestureRecogniser) (t : Tick)
    (out : Gesture * Payload) :
  clock_consistent s ->
  clock_monotone (_last_openness_time s) [t] ->
  tick s t = inr (s', out) ->
  clock_consistent s' /\ _last_openness_time s <= _last_openness_time s'.
Proof.
  intros (Hsort & Hle & Hz) Hclock Htick. destruct out as [g p].
  pose proof (tick_shape _ _ _ _ _ Htick) as Hshape. cbn zeta in Hshape.
  destruct Hshape as (_ & _ & _ & _ & _ & Ht).
  destruct t as [| hand t1 t2].
  - destruct Ht as (_ & Hzet & Hh).
    cbn [tick] in Htick. rewrite update_absent_eq in Htick.
    injection Htick as <- _ _.
    destruct (set_gesture_frame (_reset_smooth s) IDLE)
      as (_ & _ & _ & _ & _ & Hh' & _ & Hlast & _ & Hz').
    unfold clock_consistent. rewrite Hh', Hlast, Hz'. cbn.
    split; [| lra]. split; [constructor |]. split; [constructor | exact Hz].
  - destruct Ht as (Hzet & _ & Hlast).
    cbn [clock_monotone] in Hclock. destruct Hclock as [Hclock _].
    apply tick_present_frame in Htick
      as (o & cx & cy & cz & sx & sy & sz & _ & _ & _ & _ & Hh & _ & _).
    unfold clock_consistent. rewrite Hh, Hlast.
    assert (Hle' : Forall (fun e => fst e <= t2) (_openness_history s)).
    { eapply Forall_impl; [| exact Hle]. cbn beta. intros e He. lra. }
    split; [| lra]. split; [| split].
    + unfold deque_append. destruct (_ <? _)%nat;
        [apply chronological_tl |]; apply chronological_snoc; assumption.
    + apply deque_append_Forall; [exact Hle' | cbn [fst]; lra].
    + destruct Hzet as [-> | [-> _]]; lra.
Qed.

Lemma run_clock_consistent (ts : list Tick) :
  forall s s' outs,
    clock_consistent s ->
    clock_monotone (_last_openness_time s) ts ->
    run s ts = inr (s', outs) ->
    clock_consistent s'.
Proof.
  induction ts as [| t ts IH]; intros s s' outs Hs Hclock Hrun.
  - injection Hrun as <- _. exact Hs.
  - cbn [run] in Hrun.
    destruct (tick s t) as [e | [s1 out]] eqn:Htick; [discriminate |].
    cbn [bind] in Hrun.
    destruct (run s1 ts) as [e | [s2 outs']] eqn:Hrest; [discriminate |].
    injection Hrun as <- _.
    assert (H1 : clock_monotone (_last_openness_time s) [t]).
    { destruct t as [| hand t1 t2]; cbn [clock_monotone] in *; tauto. }
    destruct (tick_clock_consistent _ _ _ _ Hs H1 Htick) as [Hs1 Hmono].
    apply (IH s1 s2 outs' Hs1); [| exact Hrest].
    destruct t as [| hand t1 t2]; cbn [clock_monotone] in Hclock.
    + cbn [tick] in Htick. rewrite update_absent_eq in Htick.
      injection Htick as <- _.
      destruct (set_gesture_frame (_reset_smooth s) IDLE)
        as (_ & _ & _ & _ & _ & _ & _ & -> & _). exact Hclock.
    + destruct out as [g p]. apply tick_shape in Htick. cbn zeta in Htick.
      destruct Htick as (_ & _ & _ & _ & _ & _ & _ & ->). tauto.
Qed.

(** X3. When the clock read by the recogniser never runs backwards, every
    trace from a fresh recogniser leaves the openness window in
    chronological order, no buffered timestamp or zoom-end stamp lies after
    the latest reading, and the time spanned by the window is not
    negative. *)
Theorem history_chronological :
  forall (ts : list Tick) (s : GestureRecogniser)
         (outs : list (Gesture * Payload)),
    clock_monotone 0 ts ->
    run __init__ ts = inr (s, outs) ->
    chronological (_openness_history s)
    /\ Forall (fun e => fst e <= _last_openness_time s) (_openness_history s)
    /\ 0 <= _zoom_end_time s <= _last_openness_time s
    /\ 0 <= history_span (_openness_history s).
Proof.
  intros ts s outs Hclock Hrun.
  assert (Hinit : clock_consistent __init__).
  { split; [constructor |]. split; [constructor | simpl; lra]. }
  destruct (run_clock_consistent ts __init__ s outs Hinit Hclock Hrun)
    as (Hsort & Hle & Hz).
  repeat split; try assumption; try tauto.
  apply chronological_span. exact Hsort.
Qed.

Lemma history_chronological_witness :
  exists (s : GestureRecogniser) (outs : list (Gesture * Payload)),
    (clock_monotone 0 opening_hand /\ run __init__ opening_hand = inr (s, outs))
    /\ chronological (_openness_history s)
    /\ Forall (fun e => fst e <= _last_openness_time s) (_openness_history s)
    /\ 0 <= _zoom_end_time s <= _last_openness_time s
    /\ 0 <= history_span (_openness_history s).
Proof.
  destruct opening_hand_state as (s & outs & Hrun & _).
  assert (Hclock : clock_monotone 0 opening_hand)
    by (unfold opening_hand; cbn [clock_monotone]; repeat split; lra).
  exists s, outs. split; [split; assumption |].
  exact (history_chronological opening_hand s outs Hclock Hrun).
Defined.

(** ** The lag of the confirmed gesture *)

Lemma reachable_lag (s : GestureRecogniser) :
  reachable s ->
  ((cfg.GESTURE_CONFIDENCE_FRAMES <= _gesture_streak s)%Z ->
   _current_gesture s = _candidate s)
  /\ (_current_gesture s <> _candidate s -> (1 <= _gesture_streak s)%Z).
Proof.
  induction 1 as [| s t s' [g p] Hreach _ Htick].
  - split; [reflexivity | intros H; exfalso; apply H; reflexivity].
  - apply reachable_streak_nonneg in Hreach.
    apply tick_shape in Htick. cbn zeta in Htick.
    destruct Htick as (Hstreak & Hcur & _).
    split.
    + intros Hn. rewrite Hcur. apply Z.leb_le in Hn. rewrite Hn. reflexivity.
    + intros _. rewrite Hstreak. destruct (Gesture_eqb _ _); lia.
Qed.

(** X4. In every reachable state the confirmed gesture equals the candidate
    once the candidate has been seen 3 or more times in a row; and whenever a
    tick returns a gesture other than its own candidate, the returned gesture
    is the one confirmed before the tick and the candidate has been seen
    once or twice. *)
Theorem confirmed_gesture_lags_candidate :
  forall s : GestureRecogniser,
    reachable s ->
    ((3 <= _gesture_streak s)%Z -> _current_gesture s = _candidate s)
    /\ (forall t s' g p,
          tick s t = inr (s', (g, p)) ->
          g <> _candidate s' ->
          g = _current_gesture s /\ (1 <= _gesture_streak s' <= 2)%Z).
Proof.
  intros s Hreach. split; [apply reachable_lag; exact Hreach |].
  intros t s' g p Htick Hg.
  assert (Hreach' : reachable s') by (eapply reachable_tick; eassumption).
  destruct (reachable_lag s' Hreach') as [Hconf Hpos].
  apply tick_shape in Htick. cbn zeta in Htick.
  destruct Htick as (_ & Hcur & -> & _).
  unfold cfg.GESTURE_CONFIDENCE_FRAMES in *.
  destruct (Z.leb_spec 3 (_gesture_streak s')) as [Hn | Hn].
  - exfalso. apply Hg. exact (Hconf Hn).
  - split; [exact Hcur |]. specialize (Hpos Hg). lia.
Qed.

Lemma confirmed_gesture_lags_candidate_witness :
  exists s : GestureRecogniser,
    reachable s
    /\ ((3 <= _gesture_streak s)%Z -> _current_gesture s = _candidate s)
    /\ (forall t s' g p,
          tick s t = inr (s', (g, p)) ->
          g <> _candidate s' ->
          g = _current_gesture s /\ (1 <= _gesture_streak s' <= 2)%Z).
Proof.
  destruct second_tick_state as (s & _ & _ & Hreach & _).
  exists s. split; [exact Hreach |].
  exact (confirmed_gesture_lags_candidate s Hreach).
Defined.

(** ** Orbit and the raw fingertip centre *)

Lemma reachable_prev_is_smooth (s : GestureRecogniser) :
  reachable s -> _prev_x s = _smooth_x s /\ _prev_y s = _smooth_y s.
Proof.
  induction 1 as [| s t s' [g p] _ _ Htick]; [split; reflexivity |].
  destruct t as [| hand t1 t2].
  - cbn [tick] in Htick. rewrite update_absent_eq in Htick.
    injection Htick as <- _ _.
    destruct (set_gesture_frame (_reset_smooth s) IDLE)
      as (-> & -> & _ & -> & -> & _). split; reflexivity.
  - apply tick_present_frame in Htick
      as (o & cx & cy & cz & sx & sy & sz & _ & _ & _
          & (-> & -> & _ & -> & ->) & _).
    split; reflexivity.
Qed.

Lemma hypot_scale (a u v : R) : 0 <= a -> hypot (a * u) (a * v) = a * hypot u v.
Proof.
  intros Ha. unfold hypot.
  replace (a * u * (a * u) + a * v * (a * v)) with (a * a * (u * u + v * v)) by ring.
  rewrite sqrt_mult by nra. rewrite sqrt_square by exact Ha. reflexivity.
Qed.

(** X5. In every reachable state the previous position is the smoothed
    position; hence the displacement a tick emits is the offset of the raw
    fingertip centre from the smoothed position held before the tick, scaled
    by the smoothing factor 0.45. *)
Theorem payload_is_damped_raw_offset :
  forall s : GestureRecogniser,
    reachable s ->
    (_prev_x s = _smooth_x s /\ _prev_y s = _smooth_y s)
    /\ (forall hand t1 t2 s' g d cx cy cz,
          tick s (Present hand t1 t2) = inr (s', (g, Some d)) ->
          fingertip_center hand = inr (cx, cy, cz) ->
          exists px py,
            _smooth_x s = Some px /\ _smooth_y s = Some py
            /\ d = (0.45 * (cx - px), 0.45 * (cy - py))).
Proof.
  intros s Hreach.
  destruct (reachable_prev_is_smooth s Hreach) as [Hpx Hpy].
  split; [split; assumption |].
  intros hand t1 t2 s' g d cx cy cz Htick Hc.
  pose proof (tick_shape _ _ _ _ _ Htick) as Hshape. cbn zeta in Hshape.
  destruct Hshape as (_ & _ & _ & Hpay & _).
  apply tick_present_frame in Htick
    as (o & cx' & cy' & cz' & sx & sy & sz & _ & Hc' & Hema & _ & _ & _ & Horbit).
  rewrite Hc in Hc'. injection Hc' as <- <- <-.
  destruct Horbit as (_ & _ & _ & px & py & Hx & Hy & [= ->] & _);
    [apply Hpay; discriminate |].
  apply ema_value in Hema. rewrite <- Hpx, <- Hpy, Hx, Hy in *.
  destruct (_smooth_z s); [| contradiction].
  destruct Hema as (-> & -> & _). exists px, py.
  split; [reflexivity |]. split; [reflexivity |].
  unfold cfg.EMA_ALPHA. f_equal; lra.
Qed.

Lemma payload_is_damped_raw_offset_witness :
  exists s : GestureRecogniser,
    reachable s
    /\ (_prev_x s = _smooth_x s /\ _prev_y s = _smooth_y s)
    /\ (forall hand t1 t2 s' g d cx cy cz,
          tick s (Present hand t1 t2) = inr (s', (g, Some d)) ->
          fingertip_center hand = inr (cx, cy, cz) ->
          exists px py,
            _smooth_x s = Some px /\ _smooth_y s = Some py
            /\ d = (0.45 * (cx - px), 0.45 * (cy - py))).
Proof.
  destruct second_tick_state as (s & _ & _ & Hreach & _).
  exists s. split; [exact Hreach |].
  exact (payload_is_damped_raw_offset s Hreach).
Defined.

(** X6. What candidate Orbit needs.  On a reachable state a presence tick
    has candidate Orbit only if the hand's openness exceeds 0.55, at least
    0.3 s have passed since the zoom-end stamp (which the tick leaves as it
    was), neither zoom rule fires, a smoothed position is held from the tick
    before, and the raw fingertip centre lies more than 1/30 (the dead zone
    0.015 divided by the smoothing factor 0.45) away from it. *)
Theorem orbit_candidate_requires :
  forall (s s' : GestureRecogniser) (hand : HandData) (t1 t2 : R)
         (g : Gesture) (p : Payload) (o cx cy cz : R),
    reachable s ->
    tick s (Present hand t1 t2) = inr (s', (g, p)) ->
    _candidate s' = ORBIT ->
    _hand_openness hand = inr o ->
    fingertip_center hand = inr (cx, cy, cz) ->
    0.55 < o
    /\ _zoom_end_time s' = _zoom_end_time s
    /\ 0.3 <= t1 - _zoom_end_time s
    /\ zoom_silent s o
    /\ exists px py,
         _smooth_x s = Some px /\ _smooth_y s = Some py
         /\ 1 / 30 < hypot (cx - px) (cy - py).
Proof.
  intros s s' hand t1 t2 g p o cx cy cz Hreach Htick Hcand Ho Hc.
  destruct (reachable_prev_is_smooth s Hreach) as [Hpx Hpy].
  pose proof (tick_shape _ _ _ _ _ Htick) as Hshape. cbn zeta in Hshape.
  destruct Hshape as (_ & _ & _ & _ & _ & Hzet & _).
  apply tick_present_frame in Htick
    as (o' & cx' & cy' & cz' & sx & sy & sz & Ho' & Hc' & Hema & _ & _ & _ & Horbit).
  rewrite Ho in Ho'. injection Ho' as <-.
  rewrite Hc in Hc'. injection Hc' as <- <- <-.
  destruct (Horbit Hcand) as (Hopen & Hcool & Hsil & px & py & Hx & Hy & _ & Hd).
  unfold _ORBIT_AFTER_ZOOM_COOLDOWN in Hcool.
  assert (Hz : _zoom_end_time s' = _zoom_end_time s).
  { destruct Hzet as [Hz | [Hz _]]; [exact Hz |]. rewrite Hz in Hcool. lra. }
  rewrite Hz in Hcool.
  split; [exact Hopen |]. split; [exact Hz |]. split; [lra |].
  split; [exact Hsil |].
  apply ema_value in Hema. rewrite <- Hpx, <- Hpy, Hx, Hy in *.
  destruct (_smooth_z s); [| contradiction].
  destruct Hema as (-> & -> & _). exists px, py.
  split; [reflexivity |]. split; [reflexivity |].
  unfold cfg.EMA_ALPHA, cfg.ORBIT_DEAD_ZONE in Hd.
  replace (0.45 * cx + (1 - 0.45) * px - px) with (0.45 * (cx - px)) in Hd by lra.
  replace (0.45 * cy + (1 - 0.45) * py - py) with (0.45 * (cy - py)) in Hd by lra.
  rewrite hypot_scale in Hd by lra. lra.
Qed.

Lemma orbit_candidate_requires_witness :
  exists (s s' : GestureRecogniser) (d : R * R),
    (reachable s
     /\ tick s (Present (hand_of 0.8 0.6 0.5) 1.1 1.1) = inr (s', (IDLE, Some d))
     /\ _candidate s' = ORBIT
     /\ _hand_openness (hand_of 0.8 0.6 0.5) = inr 0.8
     /\ fingertip_center (hand_of 0.8 0.6 0.5) = inr (0.6, 0.5, 0))
    /\ 0.55 < 0.8
    /\ _zoom_end_time s' = _zoom_end_time s
    /\ 0.3 <= 1.1 - _zoom_end_time s
    /\ zoom_silent s 0.8
    /\ exists px py,
         _smooth_x s = Some px /\ _smooth_y s = Some py
         /\ 1 / 30 < hypot (0.6 - px) (0.5 - py).
Proof.
  destruct second_tick_state as (s & s' & d & Hreach & Htick & Hcand).
  assert (Ho : _hand_openness (hand_of 0.8 0.6 0.5) = inr 0.8)
    by (apply hand_of_openness; lra).
  pose proof (hand_of_center 0.8 0.6 0.5) as Hc.
  exists s, s', d. split; [repeat split; assumption |].
  exact (orbit_candidate_requires s s' _ 1.1 1.1 IDLE (Some d) 0.8 0.6 0.5 0
           Hreach Htick Hcand Ho Hc).
Defined.





(** ** The zoom rules *)

(** A presence tick whose classification is [emit s1 cand None] with the
    zoom end left alone. *)
Lemma tick_emits (s : GestureRecogniser) (hand : HandData) (t1 t2 : R)
    (cand : Gesture) :
  reachable s ->
  (21 <= length (landmarks hand))%nat ->
  in_range hand ->
  (forall s1 o sx sy,
      _hand_openness hand = inr o ->
      s1 = set_smooth s (_smooth_x s1) (_smooth_y s1) (_smooth_z s1) ->
      _classify s1 hand o sx sy t1 = emit s1 cand None) ->
  exists s',
    tick s (Present hand t1 t2) = inr (s', (_current_gesture s', None))
    /\ _candidate s' = cand
    /\ _zoom_end_time s' = _zoom_end_time s
    /\ _gesture_streak s'
       = (if Gesture_eqb cand (_candidate s)
          then (_gesture_streak s + 1)%Z else 1%Z)
    /\ _current_gesture s'
       = (if (cfg.GESTURE_CONFIDENCE_FRAMES <=? _gesture_streak s')%Z
          then cand else _current_gesture s).
Proof.
  intros Hreach Hlen Hrange Hcls.
  destruct (tick_returns s (Present hand t1 t2)
              (reachable_unset_together s Hreach) Hlen Hrange)
    as [[s' [g p]] Htick].
  exists s'.
  pose proof (tick_shape _ _ _ _ _ Htick) as Hshape. cbn zeta in Hshape.
  destruct Hshape as (Hstreak & Hcur & Hg & _).
  cbn [tick] in Htick.
  pose proof Htick as Hinv. apply update_present_inv in Hinv
    as (o & cx & cy & cz & sx & sy & sz & s2 & Ho & _ & _ & Hc & Hs').
  rewrite (Hcls _ o sx sy Ho eq_refl) in Hc. rewrite emit_eq in Hc.
  injection Hc as Hs2 _ Hp. subst s2 p.
  assert (Hcand : _candidate s' = cand)
    by (rewrite Hs'; cbn; apply set_gesture_candidate).
  assert (Hz : _zoom_end_time s' = _zoom_end_time s).
  { rewrite Hs'. cbn [set_last_openness set_history set_prev _zoom_end_time].
    destruct (set_gesture_frame (set_smooth s (Some sx) (Some sy) (Some sz)) cand)
      as (_ & _ & _ & _ & _ & _ & _ & _ & _ & ->). reflexivity. }
  rewrite Hcand in Hstreak, Hcur. subst g. cbn [tick].
  repeat split; assumption.
Qed.

(** X8. The speed rule comes first.  On a reachable state whose openness
    speed is known and beyond 0.8 per second in magnitude, a tick with a
    snapshot of at least 21 landmarks, in range, returns with no payload and
    leaves the zoom-end stamp alone,
    whatever the hand's openness and position and whether or not the
    cooldown is running; its candidate is ZoomIn when the hand opens and
    ZoomOut when it closes, and the tick returns that gesture when it is the
    third in a row with this candidate. *)
Theorem speed_rule_takes_precedence :
  forall (s : GestureRecogniser) (hand : HandData) (t1 t2 v : R),
    reachable s ->
    (21 <= length (landmarks hand))%nat ->
    in_range hand ->
    speed_of s = Some v ->
    0.8 < Rabs v ->
    exists s' g,
      tick s (Present hand t1 t2) = inr (s', (g, None))
      /\ (0 < v -> _candidate s' = ZOOM_IN)
      /\ (v < 0 -> _candidate s' = ZOOM_OUT)
      /\ _zoom_end_time s' = _zoom_end_time s
      /\ (_candidate s = _candidate s' -> (2 <= _gesture_streak s)%Z ->
          g = _candidate s').
Proof.
  intros s hand t1 t2 v Hreach Hlen Hrange Hv Habs.
  set (z := if flt 0 v then ZOOM_IN else ZOOM_OUT).
  assert (Hz : speed_zoom (speed_of s) = Some z).
  { rewrite Hv. unfold speed_zoom, fgt, z, cfg.ZOOM_SPEED_THRESHOLD.
    unfold Rabs in Habs.
    destruct (Rcase_abs v); destruct (flt_spec 0.8 v); destruct (flt_spec 0 v);
      try lra; try reflexivity.
    destruct (flt_spec v (Ropp 0.8)); [reflexivity | lra]. }
  destruct (tick_emits s hand t1 t2 z Hreach Hlen Hrange)
    as (s' & Htick & Hcand & Hzet & Hstreak & Hcur).
  { intros s1 o sx sy _ Hs1. apply classify_speed_zoom.
    rewrite Hs1. exact Hz. }
  exists s', (_current_gesture s').
  split; [exact Htick |].
  split; [intros Hpos; rewrite Hcand; unfold z; rewrite flt_true by lra; reflexivity |].
  split; [intros Hneg; rewrite Hcand; unfold z; rewrite flt_false by lra; reflexivity |].
  split; [exact Hzet |].
  intros Hsame Hn. rewrite Hcur, Hstreak, Hcand. rewrite <- Hcand, <- Hsame.
  rewrite Gesture_eqb_refl.
  destruct (Z.leb_spec cfg.GESTURE_CONFIDENCE_FRAMES (_gesture_streak s + 1));
    [congruence |].
  unfold cfg.GESTURE_CONFIDENCE_FRAMES in *. lia.
Qed.

Lemma speed_rule_takes_precedence_witness :
  exists (s : GestureRecogniser) (v : R),
    (reachable s
     /\ (21 <= length (landmarks (hand_of 0.9 0.5 0.5)))%nat
     /\ in_range (hand_of 0.9 0.5 0.5)
     /\ speed_of s = Some v
     /\ 0.8 < Rabs v)
    /\ exists s' g,
         tick s (Present (hand_of 0.9 0.5 0.5) 10.13 10.13) = inr (s', (g, None))
         /\ (0 < v -> _candidate s' = ZOOM_IN)
         /\ (v < 0 -> _candidate s' = ZOOM_OUT)
         /\ _zoom_end_time s' = _zoom_end_time s
         /\ (_candidate s = _candidate s' -> (2 <= _gesture_streak s)%Z ->
             g = _candidate s').
Proof.
  destruct opening_hand_state as (s & outs & _ & Hreach & _ & Hv).
  assert (Hlen : (21 <= length (landmarks (hand_of 0.9 0.5 0.5)))%nat)
    by (simpl; lia).
  assert (Hrange : in_range (hand_of 0.9 0.5 0.5))
    by (apply hand_of_in_range; lra).
  assert (Habs : 0.8 < Rabs ((0.9 - 0.2) / (10.10 - 10.00)))
    by (rewrite Rabs_pos_eq; lra).
  exists s, ((0.9 - 0.2) / (10.10 - 10.00)).
  split; [split; [exact Hreach | split; [exact Hlen | split; [exact Hrange
            | split; [exact Hv | exact Habs]]]] |].
  exact (speed_rule_takes_precedence s _ 10.13 10.13 _ Hreach Hlen Hrange Hv
           Habs).
Defined.



(** ** Smoothing *)

Lemma run_smoothing (cx cy cz : R) (ts : list Tick) :
  forall s s' outs px py pz,
    _smooth_x s = Some px -> _smooth_y s = Some py -> _smooth_z s = Some pz ->
    centred_at (cx, cy, cz) ts ->
    all_present ts ->
    run s ts = inr (s', outs) ->
    let q := (1 - cfg.EMA_ALPHA) ^ length ts in
    _smooth_x s' = Some (cx + q * (px - cx))
    /\ _smooth_y s' = Some (cy + q * (py - cy))
    /\ _smooth_z s' = Some (cz + q * (pz - cz)).
Proof.
  induction ts as [| t ts IH]; intros s s' outs px py pz Hx Hy Hz Hc Hall Hrun.
  - injection Hrun as <- _. cbn [length pow]. rewrite Hx, Hy, Hz.
    repeat split; f_equal; ring.
  - apply run_cons_inv in Hrun as (s1 & [g p] & outs' & Htick & Hrest & ->).
    inversion Hc as [| ? ? Ht Hts]; subst.
    inversion Hall as [| ? ? Hpres Hall']; subst.
    destruct t as [| hand t1 t2]; [congruence |].
    apply tick_present_frame in Htick
      as (o & cx' & cy' & cz' & sx & sy & sz & _ & Hc' & Hema
          & (Hx1 & Hy1 & Hz1 & _) & _).
    rewrite Ht in Hc'. injection Hc' as <- <- <-.
    apply ema_value in Hema. rewrite Hx, Hy, Hz in Hema.
    destruct Hema as (-> & -> & ->).
    specialize (IH s1 s' outs' _ _ _ Hx1 Hy1 Hz1 Hts Hall' Hrest).
    cbn zeta in *. destruct IH as (-> & -> & ->).
    cbn [length pow]. repeat split; f_equal; ring.
Qed.

(** X10. Smoothing.  The first snapshot after the smoothed position was
    unset seeds it with the raw fingertip centre.  While the hand then
    stays in view with its fingertip centre at a point [c], the distance of
    each smoothed coordinate from [c] shrinks by the factor 1 - 0.45 on
    every tick: after [n] ticks it is (0.55)^n times what it was, so the
    smoothed position never overshoots. *)
Theorem smoothing_converges_geometrically :
  forall (s : GestureRecogniser) (cx cy cz : R),
    (forall hand t1 t2 s' out,
        _smooth_x s = None ->
        fingertip_center hand = inr (cx, cy, cz) ->
        tick s (Present hand t1 t2) = inr (s', out) ->
        _smooth_x s' = Some cx /\ _smooth_y s' = Some cy /\ _smooth_z s' = Some cz)
    /\ (forall ts s' outs px py pz,
          _smooth_x s = Some px -> _smooth_y s = Some py -> _smooth_z s = Some pz ->
          centred_at (cx, cy, cz) ts ->
          all_present ts ->
          run s ts = inr (s', outs) ->
          let q := 0.55 ^ length ts in
          0 <= q <= 1
          /\ _smooth_x s' = Some (cx + q * (px - cx))
          /\ _smooth_y s' = Some (cy + q * (py - cy))
          /\ _smooth_z s' = Some (cz + q * (pz - cz))).
Proof.
  intros s cx cy cz. split.
  - intros hand t1 t2 s' [g p] Hnone Hc Htick.
    apply tick_present_frame in Htick
      as (o & cx' & cy' & cz' & sx & sy & sz & _ & Hc' & Hema
          & (Hx1 & Hy1 & Hz1 & _) & _).
    rewrite Hc in Hc'. injection Hc' as <- <- <-.
    apply ema_value in Hema. rewrite Hnone in Hema.
    destruct Hema as (-> & -> & ->). repeat split; assumption.
  - intros ts s' outs px py pz Hx Hy Hz Hc Hall Hrun.
    pose proof (run_smoothing cx cy cz ts s s' outs px py pz Hx Hy Hz Hc Hall Hrun)
      as H.
    cbn zeta in *. replace (1 - cfg.EMA_ALPHA) with 0.55 in H
      by (unfold cfg.EMA_ALPHA; lra).
    split; [| exact H].
    split; [apply pow_le; lra |].
    clear. induction (length ts) as [| n IH]; [simpl; lra |].
    cbn [pow]. assert (0 <= 0.55 ^ n) by (apply pow_le; lra). nra.
Qed.

(** ** Place and size of the hand *)

Lemma dist_place (k dx dy dz : R) (a b : Landmark.t) :
  0 <= k ->
  dist (place k dx dy dz a) (place k dx dy dz b) = k * dist a b.
Proof.
  intros Hk. unfold dist, place. cbv [Landmark.x Landmark.y Landmark.z].
  destruct a as [ax ay az], b as [bx by_ bz].
  replace ((k * ax + dx - (k * bx + dx)) ^ 2 + (k * ay + dy - (k * by_ + dy)) ^ 2
           + (k * az + dz - (k * bz + dz)) ^ 2)
    with (k * k * ((ax - bx) ^ 2 + (ay - by_) ^ 2 + (az - bz) ^ 2)) by ring.
  rewrite sqrt_mult;
    [| nra | repeat apply Rplus_le_le_0_compat; apply pow2_ge_0].
  rewrite sqrt_square by exact Hk. reflexivity.
Qed.

Lemma landmark_at_transform (k dx dy dz : R) (hand : HandData) (i : nat) :
  (i < length (landmarks hand))%nat ->
  landmark_at (transform k dx dy dz hand) i
  = place k dx dy dz (landmark_at hand i).
Proof.
  intros Hi. unfold landmark_at, transform. cbn [landmarks].
  rewrite (nth_indep _ _ (place k dx dy dz (Landmark.mk 0 0 0)))
    by (rewrite length_map; exact Hi).
  apply map_nth.
Qed.

Lemma transform_length (k dx dy dz : R) (hand : HandData) :
  length (landmarks (transform k dx dy dz hand)) = length (landmarks hand).
Proof. unfold transform. cbn [landmarks]. apply length_map. Qed.

Lemma finger_in_range (hand : HandData) (f : nat * nat) :
  (21 <= length (landmarks hand))%nat -> In f fingers ->
  (fst f < length (landmarks hand))%nat /\ (snd f < length (landmarks hand))%nat.
Proof.
  intros Hlen Hin.
  pose proof (finger_ids_in_range _ Hlen) as Hall.
  rewrite Forall_forall in Hall. exact (Hall f Hin).
Qed.

Lemma knuckle_dist_transform (k dx dy dz : R) (hand : HandData) (f : nat * nat) :
  0 <= k -> (21 <= length (landmarks hand))%nat -> In f fingers ->
  knuckle_dist (transform k dx dy dz hand) f = k * knuckle_dist hand f.
Proof.
  intros Hk Hlen Hin. destruct (finger_in_range hand f Hlen Hin) as [_ Hmcp].
  unfold knuckle_dist. rewrite !landmark_at_transform by lia.
  apply dist_place. exact Hk.
Qed.

Lemma finger_ratio_transform (k dx dy dz : R) (hand : HandData) (f : nat * nat) :
  0 < k -> (21 <= length (landmarks hand))%nat -> In f fingers ->
  survives hand f = true ->
  finger_ratio (transform k dx dy dz hand) f = finger_ratio hand f.
Proof.
  intros Hk Hlen Hin Hsurv. destruct (finger_in_range hand f Hlen Hin) as [Htip _].
  unfold finger_ratio. rewrite knuckle_dist_transform by (lra || assumption).
  rewrite !landmark_at_transform by lia. rewrite dist_place by lra.
  unfold survives in Hsurv. destruct (Rle_dec _ _) as [Hd |]; [| discriminate].
  set (d := knuckle_dist hand f) in *. set (n := dist _ _).
  unfold Rdiv. rewrite Rinv_mult.
  replace (k * n * (/ k * / d)) with (k * / k * (n * / d)) by ring.
  rewrite Rinv_r by lra. ring.
Qed.

Lemma openness_transform (k dx dy dz : R) (hand : HandData) :
  0 < k ->
  (forall f, In f fingers ->
             survives (transform k dx dy dz hand) f = survives hand f) ->
  in_range hand ->
  in_range (transform k dx dy dz hand) ->
  _hand_openness (transform k dx dy dz hand) = _hand_openness hand.
Proof.
  intros Hk Hsurv Hr Hr'.
  destruct (Nat.le_gt_cases 21 (length (landmarks hand))) as [Hlen | Hlen].
  - rewrite !hand_openness_refines
      by (rewrite ?transform_length; assumption).
    f_equal. unfold openness_spec.
    rewrite (filter_ext_in _ _ _ Hsurv).
    assert (Hmap : map (finger_ratio (transform k dx dy dz hand))
                     (filter (survives hand) fingers)
                   = map (finger_ratio hand) (filter (survives hand) fingers)).
    { apply map_ext_in. intros f Hf. apply filter_In in Hf as [Hin Hs].
      apply finger_ratio_transform; assumption. }
    destruct (filter (survives hand) fingers) as [| f fs]; [reflexivity |].
    rewrite Hmap. reflexivity.
  - rewrite !hand_openness_short
      by (rewrite ?transform_length; assumption).
    reflexivity.
Qed.

(** Moving two landmarks by the same vector changes nothing for [_dist3]:
    the same distance, or the same [OverflowError]. *)
Lemma dist3_moved (dx dy dz : R) (a b : Landmark.t) :
  _dist3 (place 1 dx dy dz a) (place 1 dx dy dz b) = _dist3 a b.
Proof.
  unfold _dist3, place. cbv [Landmark.x Landmark.y Landmark.z].
  destruct a as [ax ay az], b as [bx by_ bz].
  cbv [Landmark.x Landmark.y Landmark.z].
  replace (1 * ax + dx - (1 * bx + dx)) with (ax - bx) by ring.
  replace (1 * ay + dy - (1 * by_ + dy)) with (ay - by_) by ring.
  replace (1 * az + dz - (1 * bz + dz)) with (az - bz) by ring.
  reflexivity.
Qed.

Lemma getitem_map {A B : Type} (f : A -> B) (xs : list A) (i : nat) :
  getitem (map f xs) i
  = match getitem xs i with
    | inr v => inr (f v)
    | inl e => inl e
    end.
Proof.
  unfold getitem. rewrite nth_error_map.
  destruct (nth_error xs i); reflexivity.
Qed.

Lemma openness_loop_moved (dx dy dz : R) (lms : list Landmark.t)
    (wrist : Landmark.t) (ids : list (nat * nat)) :
  forall ratios,
    openness_loop (map (place 1 dx dy dz) lms) (place 1 dx dy dz wrist) ids ratios
    = openness_loop lms wrist ids ratios.
Proof.
  induction ids as [| [tip_i mcp_i] ids IH]; intros ratios; [reflexivity |].
  cbn [openness_loop]. rewrite !getitem_map.
  destruct (getitem lms tip_i) as [e | tip]; [reflexivity |]. cbn [bind].
  destruct (getitem lms mcp_i) as [e | mcp]; [reflexivity |]. cbn [bind].
  rewrite !dist3_moved.
  destruct (_dist3 tip wrist) as [e | d_tip]; [reflexivity |]. cbn [bind].
  destruct (_dist3 mcp wrist) as [e | d_mcp]; [reflexivity |]. cbn [bind].
  destruct (flt d_mcp 1e-6); [apply IH |].
  destruct (py_div d_tip d_mcp) as [e | r]; [reflexivity |]. cbn [bind].
  apply IH.
Qed.

Lemma openness_moved (dx dy dz : R) (hand : HandData) :
  _hand_openness (transform 1 dx dy dz hand) = _hand_openness hand.
Proof.
  unfold _hand_openness, transform. cbn [landmarks]. rewrite getitem_map.
  destruct (getitem (landmarks hand) 0) as [e | wrist]; [reflexivity |].
  cbn [bind]. rewrite openness_loop_moved. reflexivity.
Qed.

(** X11. The openness does not depend on where the hand is in the frame nor
    on its size.  Moving every landmark by the same vector leaves
    [_hand_openness] unchanged (the same value, or the same exception);
    scaling the hand by a factor [k > 0] as well leaves it unchanged
    provided the scaling moves no knuckle across the 1e-6 guard and the
    distances of tips and knuckles to the wrist are finite before and
    after. *)
Theorem openness_is_position_and_scale_invariant :
  forall (hand : HandData) (dx dy dz : R),
    _hand_openness (transform 1 dx dy dz hand) = _hand_openness hand
    /\ (forall k,
          0 < k ->
          (forall f, In f fingers ->
                     survives (transform k dx dy dz hand) f = survives hand f) ->
          finite_distances hand ->
          finite_distances (transform k dx dy dz hand) ->
          _hand_openness (transform k dx dy dz hand) = _hand_openness hand).
Proof.
  intros hand dx dy dz. split; [apply openness_moved |].
  intros k Hk Hsurv Hfin Hfin'.
  apply openness_transform;
    [exact Hk | exact Hsurv | apply finite_distances_in_range; exact Hfin
    | apply finite_distances_in_range; exact Hfin'].
Qed.

Lemma fingertip_center_eq (hand : HandData) :
  (21 <= length (landmarks hand))%nat ->
  let tips := map (landmark_at hand) tip_ids in
  fingertip_center hand
  = inr (py_sum (map Landmark.x tips) / 5, py_sum (map Landmark.y tips) / 5,
         py_sum (map Landmark.z tips) / 5).
Proof.
  intros Hlen. cbn zeta. unfold fingertip_center, tip_ids. cbn [mapM].
  rewrite !(getitem_lt _ _ (Landmark.mk 0 0 0)) by lia.
  cbn [bind ret]. rewrite !py_div_nonzero by lra. reflexivity.
Qed.

Lemma palm_center_eq (hand : HandData) :
  (18 <= length (landmarks hand))%nat ->
  let pts := map (landmark_at hand) palm_ids in
  palm_center hand
  = inr (py_sum (map Landmark.x pts) / 5, py_sum (map Landmark.y pts) / 5,
         py_sum (map Landmark.z pts) / 5).
Proof.
  intros Hlen. cbn zeta. unfold palm_center, palm_ids. cbn [mapM].
  rewrite !(getitem_lt _ _ (Landmark.mk 0 0 0)) by lia.
  cbn [bind ret length].
  replace (INR 5) with 5 by (simpl; lra).
  rewrite !py_div_nonzero by lra. reflexivity.
Qed.

Lemma mapM_getitem_short (hand : HandData) (ids : list nat) :
  Exists (fun i => (length (landmarks hand) <= i)%nat) ids ->
  mapM (getitem (landmarks hand)) ids = inl IndexError.
Proof.
  induction ids as [| i ids IH]; intros Hex; [inversion Hex |].
  cbn [mapM].
  destruct (Nat.le_gt_cases (length (landmarks hand)) i) as [Hi | Hi].
  - rewrite getitem_ge by exact Hi. reflexivity.
  - rewrite (getitem_lt _ _ (Landmark.mk 0 0 0)) by exact Hi. cbn [bind].
    rewrite IH; [reflexivity |].
    inversion Hex; subst; [lia | assumption].
Qed.

Lemma fingertip_center_short (hand : HandData) :
  (length (landmarks hand) < 21)%nat -> fingertip_center hand = inl IndexError.
Proof.
  intros Hlen. unfold fingertip_center.
  rewrite mapM_getitem_short; [reflexivity |].
  unfold tip_ids. do 4 apply Exists_cons_tl. apply Exists_cons_hd. lia.
Qed.

Lemma palm_center_short (hand : HandData) :
  (length (landmarks hand) < 18)%nat -> palm_center hand = inl IndexError.
Proof.
  intros Hlen. unfold palm_center.
  rewrite mapM_getitem_short; [reflexivity |].
  unfold palm_ids. do 4 apply Exists_cons_tl. apply Exists_cons_hd. lia.
Qed.

(** X12. The two centres of a hand.  [fingertip_center] returns exactly on
    snapshots with at least 21 landmarks and [palm_center] exactly on those
    with at least 18, and both raise IndexError otherwise.  Each returns the
    mean of its five landmarks, so when the hand is scaled by [k] and moved
    by [(dx, dy, dz)] the centre is scaled and moved in the same way. *)
Theorem centres_follow_the_hand :
  forall (hand : HandData) (k dx dy dz : R),
    ((21 <= length (landmarks hand))%nat <-> returns (fingertip_center hand))
    /\ ((length (landmarks hand) < 21)%nat ->
        fingertip_center hand = inl IndexError)
    /\ ((18 <= length (landmarks hand))%nat <-> returns (palm_center hand))
    /\ ((length (landmarks hand) < 18)%nat -> palm_center hand = inl IndexError)
    /\ (forall cx cy cz,
          fingertip_center hand = inr (cx, cy, cz) ->
          fingertip_center (transform k dx dy dz hand)
          = inr (k * cx + dx, k * cy + dy, k * cz + dz))
    /\ (forall cx cy cz,
          palm_center hand = inr (cx, cy, cz) ->
          palm_center (transform k dx dy dz hand)
          = inr (k * cx + dx, k * cy + dy, k * cz + dz)).
Proof.
  intros hand k dx dy dz.
  assert (Hf : (21 <= length (landmarks hand))%nat <-> returns (fingertip_center hand)).
  { split; [apply fingertip_center_returns |]. intros [c Hc].
    destruct (Nat.le_gt_cases 21 (length (landmarks hand))) as [H | H]; [exact H |].
    rewrite fingertip_center_short in Hc by exact H. discriminate. }
  assert (Hp : (18 <= length (landmarks hand))%nat <-> returns (palm_center hand)).
  { split; [intros H; rewrite palm_center_eq by exact H; eexists; reflexivity |].
    intros [c Hc].
    destruct (Nat.le_gt_cases 18 (length (landmarks hand))) as [H | H]; [exact H |].
    rewrite palm_center_short in Hc by exact H. discriminate. }
  split; [exact Hf |]. split; [apply fingertip_center_short |].
  split; [exact Hp |]. split; [apply palm_center_short |].
  split.
  - intros cx cy cz Hc.
    assert (Hlen : (21 <= length (landmarks hand))%nat)
      by (apply Hf; eexists; exact Hc).
    rewrite fingertip_center_eq in Hc by exact Hlen.
    rewrite fingertip_center_eq by (rewrite transform_length; exact Hlen).
    cbn zeta in *. unfold tip_ids in *. cbn [map] in *.
    rewrite !landmark_at_transform by lia.
    injection Hc as <- <- <-.
    unfold place, py_sum. cbn [fold_left Landmark.x Landmark.y Landmark.z].
    apply f_equal. apply f_equal2; [apply f_equal2 |]; field.
  - intros cx cy cz Hc.
    assert (Hlen : (18 <= length (landmarks hand))%nat)
      by (apply Hp; eexists; exact Hc).
    rewrite palm_center_eq in Hc by exact Hlen.
    rewrite palm_center_eq by (rewrite transform_length; exact Hlen).
    cbn zeta in *. unfold palm_ids in *. cbn [map] in *.
    rewrite !landmark_at_transform by lia.
    injection Hc as <- <- <-.
    unfold place, py_sum. cbn [fold_left Landmark.x Landmark.y Landmark.z].
    apply f_equal. apply f_equal2; [apply f_equal2 |]; field.
Qed.

(** ** The controller: the middle button *)

Lemma button_after_app (held : bool) (a b : list MouseCall) :
  button_after held (a ++ b)
  = match button_after held a with
    | Some h => button_after h b
    | None => None
    end.
Proof.
  revert held. induction a as [| m a IH]; intros held; [reflexivity |].
  destruct m, held; cbn [app button_after]; try reflexivity; apply IH.
Qed.

Lemma act_button (c : FusionController.t) (g : Gesture) (p : Payload) (now : R) :
  button_after (FusionController._orbiting c) (snd (FusionController.act c g p now))
  = Some (FusionController._orbiting (fst (FusionController.act c g p now))).
Proof.
  unfold FusionController.act, FusionController._do_orbit,
    FusionController._end_orbit, FusionController._do_zoom.
  destruct c as [[|] last]; destruct g; cbn [Gesture_eqb FusionController._orbiting negb];
    try reflexivity;
    try (destruct p as [[dx dy] |]; reflexivity);
    cbn [FusionController._last_zoom_time];
    destruct (flt _ _); reflexivity.
Qed.

Lemma acts_button (cs : list ActCall) :
  forall c,
    button_after (FusionController._orbiting c) (concat (map snd (snd (acts c cs))))
    = Some (FusionController._orbiting (fst (acts c cs))).
Proof.
  induction cs as [| [[g p] now] cs IH]; intros c; [reflexivity |].
  cbn [acts]. pose proof (act_button c g p now) as Hact.
  destruct (FusionController.act c g p now) as [c1 calls]. cbn [fst snd] in Hact.
  specialize (IH c1). destruct (acts c1 cs) as [c2 log]. cbn [fst snd] in *.
  cbn [map concat snd]. rewrite button_after_app, Hact. exact IH.
Qed.

(** X13. The controller keeps the middle button in step with [_orbiting].
    Over every sequence of [act] calls on a fresh controller, and a final
    [release_all], the mouse calls never press a held button, never release
    a free one, move the pointer only while the button is held and scroll
    only while it is free; after each call the button is held exactly when
    [_orbiting] is set, and after [release_all] it is free. *)
Theorem button_follows_orbiting :
  forall cs : list ActCall,
    let c := fst (acts FusionController.__init__ cs) in
    let calls := concat (map snd (snd (acts FusionController.__init__ cs))) in
    button_after false calls = Some (FusionController._orbiting c)
    /\ button_after false (calls ++ snd (FusionController.release_all c))
       = Some false
    /\ FusionController._orbiting (fst (FusionController.release_all c)) = false.
Proof.
  intros cs c calls.
  pose proof (acts_button cs FusionController.__init__) as H.
  cbn [FusionController.__init__ FusionController._orbiting] in H.
  fold c calls in H. split; [exact H |].
  rewrite button_after_app, H.
  unfold FusionController.release_all, FusionController._end_orbit.
  destruct (FusionController._orbiting c) eqn:Ho; cbn; rewrite ?Ho; split; reflexivity.
Qed.

(** ** The controller: scrolling *)

Lemma do_zoom_log (c : FusionController.t) (ticks : Z) (now : R) :
  let r := FusionController._do_zoom c ticks now in
  FusionController._orbiting (fst r) = FusionController._orbiting c
  /\ ((snd r = []
       /\ FusionController._last_zoom_time (fst r)
          = FusionController._last_zoom_time c)
      \/ (snd r = [scroll 0 ticks]
          /\ FusionController._last_zoom_time (fst r) = now
          /\ cfg.ZOOM_SCROLL_INTERVAL
             <= now - FusionController._last_zoom_time c)).
Proof.
  cbn zeta. unfold FusionController._do_zoom.
  destruct (flt_spec (now - FusionController._last_zoom_time c)
              cfg.ZOOM_SCROLL_INTERVAL) as [H | H]; cbn [fst snd].
  - split; [reflexivity | left; split; reflexivity].
  - split; [reflexivity | right]. repeat split. lra.
Qed.

(** One call of [act]: either it does not scroll and leaves the time of the
    last scroll alone, or it scrolls once, by the amount that goes with the
    gesture, at least the interval after the last scroll. *)
Lemma act_scroll (c : FusionController.t) (g : Gesture) (p : Payload) (now : R) :
  let r := FusionController.act c g p now in
  (existsb is_scroll (snd r) = false
   /\ FusionController._last_zoom_time (fst r)
      = FusionController._last_zoom_time c)
  \/ (existsb is_scroll (snd r) = true
      /\ FusionController._last_zoom_time (fst r) = now
      /\ cfg.ZOOM_SCROLL_INTERVAL <= now - FusionController._last_zoom_time c
      /\ (g = ZOOM_IN \/ g = ZOOM_OUT)
      /\ filter is_scroll (snd r)
         = [scroll 0 (if Gesture_eqb g ZOOM_IN then 3 else -3)]).
Proof.
  cbn zeta. unfold FusionController.act.
  assert (Hend : forall c0,
             existsb is_scroll (snd (FusionController._end_orbit c0)) = false
             /\ filter is_scroll (snd (FusionController._end_orbit c0)) = []
             /\ FusionController._last_zoom_time (fst (FusionController._end_orbit c0))
                = FusionController._last_zoom_time c0).
  { intros c0. unfold FusionController._end_orbit.
    destruct (FusionController._orbiting c0); repeat split. }
  assert (Hzoom : forall ticks,
             let r0 := FusionController._end_orbit c in
             let r1 := FusionController._do_zoom (fst r0) ticks now in
             (existsb is_scroll (snd r0 ++ snd r1) = false
              /\ FusionController._last_zoom_time (fst r1)
                 = FusionController._last_zoom_time c)
             \/ (existsb is_scroll (snd r0 ++ snd r1) = true
                 /\ FusionController._last_zoom_time (fst r1) = now
                 /\ cfg.ZOOM_SCROLL_INTERVAL
                    <= now - FusionController._last_zoom_time c
                 /\ filter is_scroll (snd r0 ++ snd r1) = [scroll 0 ticks])).
  { intros ticks. cbn zeta. destruct (Hend c) as (He & Hf & Hl).
    rewrite existsb_app, filter_app, He, Hf.
    destruct (do_zoom_log (fst (FusionController._end_orbit c)) ticks now)
      as (_ & [[-> ->] | (-> & -> & Hgap)]); rewrite Hl in *.
    - left. split; reflexivity.
    - right. repeat split. exact Hgap. }
  destruct g; cbn [Gesture_eqb].
  - left. destruct (Hend c) as (He & _ & Hl). split; assumption.
  - left. unfold FusionController._do_orbit.
    destruct p as [[dx dy] |]; [| split; reflexivity].
    destruct (negb _); split; reflexivity.
  - specialize (Hzoom cfg.ZOOM_IN_SCROLL). cbn zeta in Hzoom.
    destruct (FusionController._end_orbit c) as [c1 e1]. cbn [fst snd] in Hzoom.
    destruct (FusionController._do_zoom c1 _ now) as [c2 e2]. cbn [fst snd] in *.
    destruct Hzoom as [H | (H1 & H2 & H3 & H4)]; [left; exact H | right].
    repeat split; try assumption. left; reflexivity.
  - specialize (Hzoom cfg.ZOOM_OUT_SCROLL). cbn zeta in Hzoom.
    destruct (FusionController._end_orbit c) as [c1 e1]. cbn [fst snd] in Hzoom.
    destruct (FusionController._do_zoom c1 _ now) as [c2 e2]. cbn [fst snd] in *.
    destruct Hzoom as [H | (H1 & H2 & H3 & H4)]; [left; exact H | right].
    repeat split; try assumption. right; reflexivity.
Qed.

Lemma acts_spaced (cs : list ActCall) :
  forall c,
    spaced cfg.ZOOM_SCROLL_INTERVAL (FusionController._last_zoom_time c)
      (scroll_times (snd (acts c cs))).
Proof.
  induction cs as [| [[g p] now] cs IH]; intros c; [exact I |].
  cbn [acts]. pose proof (act_scroll c g p now) as Hact. cbn zeta in Hact.
  destruct (FusionController.act c g p now) as [c1 calls]. cbn [fst snd] in Hact.
  specialize (IH c1). destruct (acts c1 cs) as [c2 log]. cbn [snd] in *.
  unfold scroll_times in *. cbn [filter snd].
  destruct Hact as [[-> Hlast] | (-> & Hlast & Hgap & _)]; rewrite Hlast in IH.
  - exact IH.
  - cbn [map fst spaced]. split; [exact Hgap | exact IH].
Qed.

(** X14. Scrolling is rate-limited.  Over every sequence of [act] calls on
    a fresh controller, each call that scrolls reads the clock at least
    0.05 s after the call that scrolled before it (the first one at a
    reading of at least 0.05); a call scrolls at most once, only for a zoom
    gesture, by 3 up for ZoomIn and 3 down for ZoomOut. *)
Theorem scroll_is_rate_limited :
  forall cs : list ActCall,
    spaced 0.05 0 (scroll_times (snd (acts FusionController.__init__ cs)))
    /\ (forall c g p now m,
          In m (snd (FusionController.act c g p now)) ->
          is_scroll m = true ->
          (g = ZOOM_IN /\ m = scroll 0 3 \/ g = ZOOM_OUT /\ m = scroll 0 (-3))
          /\ filter is_scroll (snd (FusionController.act c g p now)) = [m]
          /\ 0.05 <= now - FusionController._last_zoom_time c).
Proof.
  intros cs. split; [exact (acts_spaced cs FusionController.__init__) |].
  intros c g p now m Hin Hm.
  destruct (act_scroll c g p now) as [[Hnone _] | (_ & _ & Hgap & Hg & Hf)].
  - exfalso. assert (Hex : existsb is_scroll (snd (FusionController.act c g p now)) = true)
      by (apply existsb_exists; exists m; split; assumption).
    congruence.
  - assert (Hm' : In m (filter is_scroll (snd (FusionController.act c g p now))))
      by (apply filter_In; split; assumption).
    rewrite Hf in *. destruct Hm' as [<- | []].
    split; [| split; [reflexivity | exact Hgap]].
    destruct Hg as [-> | ->]; [left | right]; split; reflexivity.
Qed.

(** ** The controller: pointer moves *)





Lemma do_orbit_some (c : FusionController.t) (dx dy : R) :
  let px := py_int (dx * 640 * 2.5) in
  let py := py_int (dy * 480 * 2.5) in
  FusionController._do_orbit c (Some (dx, dy))
  = ({| FusionController._orbiting := true;
        FusionController._last_zoom_time := FusionController._last_zoom_time c |},
     (if FusionController._orbiting c then [] else [press_middle])
     ++ [move px py]).
Proof.
  cbn zeta. unfold FusionController._do_orbit. destruct c as [[|] last]; reflexivity.
Qed.






(** ** The main loop *)

Lemma update_poll_tick (s : GestureRecogniser) (p : Poll) :
  update s (poll_hand p) (poll_now_classify p) (poll_now_append p)
  = tick s (poll_tick p).
Proof.
  unfold poll_tick. destruct (poll_hand p) as [hand |]; [reflexivity |].
  cbn [tick]. rewrite !update_absent_eq. reflexivity.
Qed.

Lemma iteration_inv (l l' : main.t) (p : Poll) (calls : list MouseCall) :
  main.iteration l p = inr (l', calls) ->
  (poll_seq p = main.last_seq l /\ l' = l /\ calls = [])
  \/ (poll_seq p <> main.last_seq l
      /\ main.last_seq l' = poll_seq p
      /\ exists g pay,
           tick (main.recogniser l) (poll_tick p)
           = inr (main.recogniser l', (g, pay))
           /\ FusionController.act (main.controller l) g pay (poll_now_zoom p)
              = (main.controller l', calls)).
Proof.
  unfold main.iteration. rewrite update_poll_tick.
  destruct (Z.eqb_spec (poll_seq p) (main.last_seq l)) as [Heq | Hne]; cbn [negb].
  - intros [= <- <-]. left. repeat split. exact Heq.
  - destruct (tick _ _) as [e | [r [g pay]]]; [discriminate |]. cbn [bind].
    destruct (FusionController.act _ g pay _) as [c calls'] eqn:Hact.
    intros [= <- <-]. right. split; [exact Hne |]. split; [reflexivity |].
    exists g, pay. split; [reflexivity | exact Hact].
Qed.

Lemma iteration_button (l l' : main.t) (p : Poll) (calls : list MouseCall) :
  main.iteration l p = inr (l', calls) ->
  button_after (FusionController._orbiting (main.controller l)) calls
  = Some (FusionController._orbiting (main.controller l')).
Proof.
  intros Hit. apply iteration_inv in Hit
    as [(_ & -> & ->) | (_ & _ & g & pay & _ & Hact)]; [reflexivity |].
  pose proof (act_button (main.controller l) g pay (poll_now_zoom p)) as H.
  rewrite Hact in H. exact H.
Qed.

Lemma loop_button (ps : list Poll) :
  forall l,
    button_after (FusionController._orbiting (main.controller l))
      (snd (fst (main.loop l ps)))
    = Some (FusionController._orbiting (main.controller (fst (fst (main.loop l ps))))).
Proof.
  induction ps as [| p ps IH]; intros l; [reflexivity |].
  cbn [main.loop].
  destruct (main.iteration l p) as [e | [l1 calls]] eqn:Hit; [reflexivity |].
  specialize (IH l1). destruct (main.loop l1 ps) as [[l2 more] e].
  cbn [fst snd] in *. rewrite button_after_app.
  rewrite (iteration_button _ _ _ _ Hit). exact IH.
Qed.

(** X17. A whole run leaves the mouse as it found it.  Whatever the tracker
    delivers, and also when [update] raises and ends the loop, the mouse
    calls of [main] never press a held button or release a free one, move
    the pointer only with the button held and scroll only with it free;
    after the [release_all] of the [finally] block the button is free. *)
Theorem main_releases_the_button :
  forall ps : list Poll,
    button_after false (fst (main.main ps)) = Some false.
Proof.
  intros ps. unfold main.main.
  pose proof (loop_button ps main.init) as H.
  destruct (main.loop main.init ps) as [[l calls] e]. cbn [fst snd] in *.
  rewrite button_after_app.
  change (FusionController._orbiting (main.controller main.init)) with false in H.
  rewrite H.
  unfold FusionController.release_all, FusionController._end_orbit.
  destruct (FusionController._orbiting (main.controller l)) eqn:Ho; cbn;
    rewrite ?Ho; reflexivity.
Qed.

(** X18. A frame is processed once.  A pass that sees the frame number of
    the pass before it changes nothing and sends no mouse call, so polling
    the same frame again, whatever else the poll reads, does not change what
    the loop does. *)
Theorem repeated_frame_is_skipped :
  forall (l : main.t) (p p' : Poll) (rest : list Poll),
    poll_seq p' = poll_seq p ->
    main.loop l (p :: p' :: rest) = main.loop l (p :: rest).
Proof.
  intros l p p' rest Hseq. cbn [main.loop].
  destruct (main.iteration l p) as [e | [l1 calls]] eqn:Hit; [reflexivity |].
  assert (Hlast : main.last_seq l1 = poll_seq p).
  { apply iteration_inv in Hit as [(Heq & -> & _) | (_ & Hlast & _)];
      [symmetry; exact Heq | exact Hlast]. }
  unfold main.iteration at 1. rewrite Hseq, <- Hlast, Z.eqb_refl. cbn [negb ret].
  destruct (main.loop l1 rest) as [[l2 more] e]. reflexivity.
Qed.

Lemma repeated_frame_is_skipped_witness :
  poll_seq (mkPoll (Some collapsed_hand) 0 1 1 1) = poll_seq (mkPoll None 0 0 0 0)
  /\ main.loop main.init
       [mkPoll None 0 0 0 0; mkPoll (Some collapsed_hand) 0 1 1 1]
     = main.loop main.init [mkPoll None 0 0 0 0].
Proof.
  split; [reflexivity |].
  apply (repeated_frame_is_skipped main.init (mkPoll None 0 0 0 0)
           (mkPoll (Some collapsed_hand) 0 1 1 1) []).
  reflexivity.
Defined.

Lemma act_drag (c : FusionController.t) (g : Gesture) (p : Payload) (now : R) :
  let r := FusionController.act c g p now in
  (existsb is_drag (snd r) = true -> g = ORBIT /\ p <> None)
  /\ (FusionController._orbiting (fst r) = true ->
      g = ORBIT /\ (p <> None \/ FusionController._orbiting c = true)).
Proof.
  cbn zeta. unfold FusionController.act, FusionController._do_orbit,
    FusionController._end_orbit, FusionController._do_zoom.
  destruct c as [[|] last]; destruct g;
    cbn [Gesture_eqb FusionController._orbiting negb FusionController._last_zoom_time];
    try (destruct p as [[dx dy] |]);
    try (destruct (flt _ _));
    cbn; (split; intros H); try discriminate H;
    (split; [reflexivity
            | first [discriminate | left; discriminate | right; reflexivity]]).
Qed.

Lemma iteration_returns (l : main.t) (p : Poll) :
  unset_together (main.recogniser l) ->
  sound_poll p ->
  returns (main.iteration l p).
Proof.
  intros Hinv [Hwf Hr]. unfold main.iteration, returns. rewrite update_poll_tick.
  destruct (negb _); [| eexists; reflexivity].
  destruct (tick_returns _ _ Hinv Hwf Hr) as [[r [g pay]] ->]. cbn [bind].
  destruct (FusionController.act _ _ _ _). eexists; reflexivity.
Qed.

(** A processed pass, from the tick and the [act] call it makes. *)
Lemma iteration_step (l : main.t) (p : Poll) (r : GestureRecogniser)
    (g : Gesture) (pay : Payload) (c : FusionController.t)
    (calls : list MouseCall) :
  poll_seq p <> main.last_seq l ->
  tick (main.recogniser l) (poll_tick p) = inr (r, (g, pay)) ->
  FusionController.act (main.controller l) g pay (poll_now_zoom p) = (c, calls) ->
  main.iteration l p
  = inr ({| main.recogniser := r; main.controller := c;
            main.last_seq := poll_seq p |}, calls).
Proof.
  intros Hseq Htick Hact. unfold main.iteration. rewrite update_poll_tick.
  destruct (Z.eqb_spec (poll_seq p) (main.last_seq l)) as [Heq | _];
    [contradiction |].
  cbn [negb]. rewrite Htick. cbn [bind]. rewrite Hact. reflexivity.
Qed.

Lemma loop_cons_inr (l l1 l2 : main.t) (p : Poll) (ps : list Poll)
    (calls more all : list MouseCall) (e : option PyError) :
  main.iteration l p = inr (l1, calls) ->
  main.loop l1 ps = (l2, more, e) ->
  calls ++ more = all ->
  main.loop l (p :: ps) = (l2, all, e).
Proof.
  intros Hit Hrest <-. cbn [main.loop]. rewrite Hit, Hrest. reflexivity.
Qed.

Lemma loop_snoc (ps : list Poll) :
  forall (l l1 l2 : main.t) (p : Poll) (calls calls' : list MouseCall),
    main.loop l ps = (l1, calls, None) ->
    main.iteration l1 p = inr (l2, calls') ->
    main.loop l (ps ++ [p]) = (l2, calls ++ calls', None).
Proof.
  induction ps as [| q ps IH]; intros l l1 l2 p calls calls' Hloop Hit.
  - injection Hloop as <- <-. cbn [app main.loop]. rewrite Hit.
    rewrite app_nil_r. reflexivity.
  - cbn [main.loop] in Hloop.
    destruct (main.iteration l q) as [e | [l0 calls0]] eqn:Hq; [discriminate |].
    destruct (main.loop l0 ps) as [[l0' more] e] eqn:Hrest.
    injection Hloop as <- <- ->.
    cbn [app main.loop]. rewrite Hq, (IH _ _ _ _ _ _ Hrest Hit).
    rewrite app_assoc. reflexivity.
Qed.

(** Evaluation of a pass on a concrete loop state. *)
Ltac eval_pass :=
  eapply iteration_step;
  [ cbn [poll_seq main.last_seq]; discriminate
  | cbn [poll_tick poll_hand poll_now_classify poll_now_append main.recogniser];
    eval_tick; reflexivity
  | cbv [FusionController.act FusionController._do_orbit
         FusionController._end_orbit FusionController._do_zoom Gesture_eqb negb
         FusionController._orbiting FusionController._last_zoom_time
         FusionController.__init__ main.controller main.init app];
    reflexivity ].

(** The first three passes of [drifting_polls] send nothing; the fourth
    presses the middle button and moves the pointer. *)
Lemma drifting_polls_evaluated :
  exists l3 l4 px py,
    main.loop main.init (firstn 3 drifting_polls) = (l3, [], None)
    /\ main.iteration l3 (mkPoll (Some (hand_of 0.8 0.8 0.5)) 4 1.3 1.3 1.3)
       = inr (l4, [press_middle; move px py]).
Proof.
  do 4 eexists. split.
  - unfold drifting_polls. cbn [firstn].
    eapply loop_cons_inr; [eval_pass | | reflexivity].
    eapply loop_cons_inr; [eval_pass | | reflexivity].
    eapply loop_cons_inr; [eval_pass | reflexivity | reflexivity].
  - eval_pass.
Qed.

Lemma drifting_polls_passes :
  exists l3 l4 px py,
    main.loop main.init (firstn 3 drifting_polls) = (l3, [], None)
    /\ main.iteration l3 (mkPoll (Some (hand_of 0.8 0.8 0.5)) 4 1.3 1.3 1.3)
       = inr (l4, [press_middle; move px py])
    /\ main.loop main.init drifting_polls
       = (l4, [press_middle; move px py], None).
Proof.
  destruct drifting_polls_evaluated as (l3 & l4 & px & py & H3 & H4).
  exists l3, l4, px, py. split; [exact H3 |]. split; [exact H4 |].
  exact (loop_snoc _ _ _ _ _ _ _ H3 H4).
Qed.

Lemma iteration_reachable (l l' : main.t) (p : Poll) (calls : list MouseCall) :
  reachable (main.recogniser l) ->
  main.iteration l p = inr (l', calls) ->
  reachable (main.recogniser l').
Proof.
  intros Hreach Hit. apply iteration_inv in Hit
    as [(_ & -> & _) | (_ & _ & g & pay & Htick & _)]; [exact Hreach |].
  eapply reachable_tick; eassumption.
Qed.

Lemma loop_reachable (ps : list Poll) :
  forall l l' calls e,
    reachable (main.recogniser l) ->
    main.loop l ps = (l', calls, e) ->
    reachable (main.recogniser l').
Proof.
  induction ps as [| p ps IH]; intros l l' calls e Hreach Hloop.
  - injection Hloop as <- _ _. exact Hreach.
  - cbn [main.loop] in Hloop.
    destruct (main.iteration l p) as [e1 | [l1 calls1]] eqn:Hit.
    + injection Hloop as <- _ _. exact Hreach.
    + destruct (main.loop l1 ps) as [[l2 more] e2] eqn:Hrest.
      injection Hloop as <- _ _.
      eapply IH; [| exact Hrest]. eapply iteration_reachable; eassumption.
Qed.

(** X19. The pointer is dragged only for a confirmed Orbit that is also
    this frame's candidate.  When a pass of the main loop presses the middle
    button or moves the pointer, the frame was new and showed a hand, and
    Orbit is both the gesture the recogniser has confirmed and the candidate
    of this frame; a displacement that comes with a returned Idle, or a
    returned Orbit without displacement, moves nothing.  After a processed
    pass the button is held only if Orbit is the confirmed gesture. *)
Theorem drag_needs_confirmed_orbit :
  forall (l l' : main.t) (p : Poll) (calls : list MouseCall),
    main.iteration l p = inr (l', calls) ->
    (existsb is_drag calls = true ->
     poll_seq p <> main.last_seq l
     /\ poll_hand p <> None
     /\ _current_gesture (main.recogniser l') = ORBIT
     /\ _candidate (main.recogniser l') = ORBIT
     /\ FusionController._orbiting (main.controller l') = true)
    /\ (poll_seq p <> main.last_seq l ->
        FusionController._orbiting (main.controller l') = true ->
        _current_gesture (main.recogniser l') = ORBIT).
Proof.
  intros l l' p calls Hit.
  pose proof (iteration_button _ _ _ _ Hit) as Hbutton.
  apply iteration_inv in Hit
    as [(Heq & -> & ->) | (Hne & _ & g & pay & Htick & Hact)].
  - split; [discriminate | contradiction].
  - pose proof (act_drag (main.controller l) g pay (poll_now_zoom p)) as Hd.
    cbn zeta in Hd. rewrite Hact in Hd. cbn [fst snd] in Hd.
    destruct Hd as [Hdrag Horb].
    pose proof (tick_shape _ _ _ _ _ Htick) as Hshape. cbn zeta in Hshape.
    destruct Hshape as (_ & _ & Hg & Hpay & _).
    split.
    + intros Hex. destruct (Hdrag Hex) as [-> Hsome].
      split; [exact Hne |]. split.
      { unfold poll_tick in Htick. destruct (poll_hand p); [discriminate |].
        cbn [tick] in Htick. rewrite update_absent_eq in Htick.
        injection Htick as _ _ Hnone. congruence. }
      split; [symmetry; exact Hg |]. split; [apply Hpay; exact Hsome |].
      unfold FusionController.act in Hact. cbn [Gesture_eqb] in Hact.
      destruct pay as [[dx dy] |]; [| congruence].
      rewrite (do_orbit_some (main.controller l) dx dy) in Hact.
      injection Hact as <- _. reflexivity.
    + intros _ Ho. destruct (Horb Ho) as [-> _]. symmetry. exact Hg.
Qed.

Lemma drag_needs_confirmed_orbit_witness :
  exists (l l' : main.t) (calls : list MouseCall),
    (main.loop main.init (firstn 3 drifting_polls) = (l, [], None)
     /\ main.iteration l (mkPoll (Some (hand_of 0.8 0.8 0.5)) 4 1.3 1.3 1.3)
        = inr (l', calls)
     /\ existsb is_drag calls = true)
    /\ (4%Z <> main.last_seq l
        /\ Some (hand_of 0.8 0.8 0.5) <> None
        /\ _current_gesture (main.recogniser l') = ORBIT
        /\ _candidate (main.recogniser l') = ORBIT
        /\ FusionController._orbiting (main.controller l') = true)
    /\ _current_gesture (main.recogniser l') = ORBIT.
Proof.
  destruct drifting_polls_passes as (l & l' & px & py & Hloop & Hit & _).
  exists l, l', [press_middle; move px py].
  split; [split; [exact Hloop | split; [exact Hit | reflexivity]] |].
  destruct (drag_needs_confirmed_orbit l l' _ _ Hit) as [Hdrag Hheld].
  pose proof (Hdrag eq_refl) as H. split; [exact H |].
  apply Hheld; [apply H | apply H].
Defined.

Lemma loop_errors (ps : list Poll) :
  forall l,
    reachable (main.recogniser l) ->
    (Forall sound_poll ps -> snd (main.loop l ps) = None)
    /\ (forall e, snd (main.loop l ps) = Some e ->
          (e = IndexError
           /\ Exists (fun p => ~ well_formed (poll_tick p)) ps)
          \/ (e = OverflowError
              /\ Exists (fun p => ~ in_range_tick (poll_tick p)) ps)).
Proof.
  induction ps as [| p ps IH]; intros l Hreach.
  - split; [reflexivity | discriminate].
  - cbn [main.loop].
    destruct (main.iteration l p) as [e1 | [l1 calls]] eqn:Hit.
    + cbn [snd]. unfold main.iteration in Hit. rewrite update_poll_tick in Hit.
      destruct (negb _); [| discriminate].
      destruct (tick _ _) as [e2 | [r [g pay]]] eqn:Htick;
        [| cbn [bind] in Hit; destruct (FusionController.act _ _ _ _); discriminate].
      cbn [bind] in Hit. injection Hit as <-.
      apply tick_raises_cases in Htick;
        [| apply reachable_unset_together; exact Hreach].
      split.
      * intros Hall. inversion Hall as [| ? ? [Hwf Hr] _]; subst.
        destruct Htick as [[_ H] | [_ H]]; contradiction.
      * intros e [= <-].
        destruct Htick as [[-> H] | [-> H]]; [left | right];
          (split; [reflexivity | apply Exists_cons_hd; exact H]).
    + assert (Hreach1 : reachable (main.recogniser l1))
        by (eapply iteration_reachable; eassumption).
      destruct (IH l1 Hreach1) as [IHok IHerr].
      destruct (main.loop l1 ps) as [[l2 more] e]. cbn [snd] in *.
      split.
      * intros Hall. inversion Hall; subst. auto.
      * intros e' He. destruct (IHerr e' He) as [[-> Hex] | [-> Hex]];
          [left | right];
          (split; [reflexivity | apply Exists_cons_tl; exact Hex]).
Qed.

Lemma far_thumb_poll_raises :
  main.main [mkPoll (Some far_thumb_hand) 0 1 1 1] = ([], Some OverflowError).
Proof.
  unfold main.main. cbn [main.loop].
  assert (Hit : main.iteration main.init (mkPoll (Some far_thumb_hand) 0 1 1 1)
                = inl OverflowError).
  { unfold main.iteration.
    cbn [poll_seq poll_hand poll_now_classify poll_now_append main.last_seq
         main.init main.recogniser].
    rewrite (update_raises_with_openness _ _ _ _ _ far_thumb_hand_openness).
    reflexivity. }
  rewrite Hit. reflexivity.
Qed.

(** X20. What can end the main loop.  When every snapshot the tracker
    delivers has at least 21 landmarks whose coordinates have magnitude at
    most [1e150], no pass of the loop raises, however long it runs.  A run
    that ends with IndexError was given a snapshot with fewer than 21
    landmarks; a run that ends with OverflowError was given a snapshot with
    a coordinate beyond that bound: the snapshot with the thumb tip at
    [x = 1e200] ends the run with OverflowError, no mouse call sent. *)
Theorem main_loop_raises_only_on_bad_snapshot :
  forall ps : list Poll,
    (Forall bounded_poll ps -> snd (main.main ps) = None)
    /\ (snd (main.main ps) = Some IndexError ->
        Exists (fun p => ~ well_formed (poll_tick p)) ps)
    /\ (snd (main.main ps) = Some OverflowError ->
        Exists (fun p => ~ bounded_tick (poll_tick p)) ps)
    /\ main.main [mkPoll (Some far_thumb_hand) 0 1 1 1]
       = ([], Some OverflowError).
Proof.
  intros ps. unfold main.main at 1 2 3.
  destruct (loop_errors ps main.init reachable_init) as [Hok Herr].
  destruct (main.loop main.init ps) as [[l calls] e]. cbn [snd] in *.
  split.
  { intros Hall. apply Hok. eapply Forall_impl; [| exact Hall].
    exact bounded_poll_sound. }
  split.
  { intros He. destruct (Herr _ He) as [[_ Hex] | [Hne _]];
      [exact Hex | discriminate Hne]. }
  split; [| exact far_thumb_poll_raises].
  intros He. destruct (Herr _ He) as [[Hne _] | [_ Hex]];
    [discriminate Hne |].
  eapply Exists_impl; [| exact Hex].
  intros p Hbad Hb. apply Hbad.
  destruct (poll_tick p) as [| hand t1 t2]; [exact I |].
  apply bounded_in_range. exact Hb.
Qed.

(** The sample polls are sound. *)
Lemma hand_of_poll_sound (o cx cy : R) (n : Z) (t1 t2 t3 : R) :
  0 <= o <= 1 -> sound_poll (mkPoll (Some (hand_of o cx cy)) n t1 t2 t3).
Proof.
  intros Ho. split; cbn [poll_tick poll_hand well_formed in_range_tick].
  - simpl. lia.
  - apply hand_of_in_range. exact Ho.
Qed.

Lemma last_default {A : Type} (l : list A) (d d' : A) :
  l <> [] -> last l d = last l d'.
Proof.
  induction l as [| a [| b l] IH]; intros Hne; [congruence | reflexivity |].
  apply IH. discriminate.
Qed.

Lemma loop_last_seq (ps : list Poll) :
  forall l l' calls,
    main.loop l ps = (l', calls, None) ->
    main.last_seq l' = last (map poll_seq ps) (main.last_seq l).
Proof.
  induction ps as [| p ps IH]; intros l l' calls Hloop.
  - injection Hloop as <- _. reflexivity.
  - cbn [main.loop] in Hloop.
    destruct (main.iteration l p) as [e | [l1 calls1]] eqn:Hit; [discriminate |].
    destruct (main.loop l1 ps) as [[l2 more] e] eqn:Hrest.
    injection Hloop as <- _ ->.
    rewrite (IH _ _ _ Hrest).
    assert (Hlast : main.last_seq l1 = poll_seq p).
    { apply iteration_inv in Hit as [(Heq & -> & _) | (_ & Hlast & _)];
        [symmetry; exact Heq | exact Hlast]. }
    rewrite Hlast. destruct ps as [| p0 ps]; [reflexivity |].
    cbn [map]. change (last (poll_seq p :: poll_seq p0 :: map poll_seq ps) _)
      with (last (poll_seq p0 :: map poll_seq ps) (main.last_seq l)).
    apply last_default. discriminate.
Qed.

Lemma drifting_polls_loop :
  exists l calls,
    main.loop main.init drifting_polls = (l, calls, None)
    /\ main.last_seq l = 4%Z.
Proof.
  pose proof (loop_errors drifting_polls main.init reachable_init) as [Hok _].
  destruct (main.loop main.init drifting_polls) as [[l calls] e] eqn:Hloop.
  cbn [snd] in Hok.
  assert (He : e = None)
    by (apply Hok; unfold drifting_polls;
        repeat (constructor; [apply hand_of_poll_sound; lra |]); constructor).
  subst e. exists l, calls. split; [reflexivity |].
  rewrite (loop_last_seq _ _ _ _ Hloop). reflexivity.
Qed.

(** A processed pass without a hand. *)
Lemma iteration_absent (l : main.t) (p : Poll) :
  poll_hand p = None ->
  poll_seq p <> main.last_seq l ->
  exists l1 calls,
    main.iteration l p = inr (l1, calls)
    /\ main.recogniser l1 = feed (_reset_smooth (main.recogniser l)) IDLE
    /\ main.last_seq l1 = poll_seq p
    /\ existsb is_drag calls = false
    /\ (_current_gesture (main.recogniser l1) <> ORBIT ->
        FusionController._orbiting (main.controller l1) = false).
Proof.
  intros Hhand Hseq. unfold main.iteration.
  destruct (Z.eqb_spec (poll_seq p) (main.last_seq l)) as [Heq | _];
    [contradiction |].
  cbn [negb]. rewrite Hhand, update_absent_eq. cbn [bind].
  set (r1 := feed (_reset_smooth (main.recogniser l)) IDLE).
  pose proof (act_drag (main.controller l) (_current_gesture r1) None
                (poll_now_zoom p)) as Hact. cbn zeta in Hact.
  destruct (FusionController.act _ _ _ _) as [c calls]. cbn [fst snd] in Hact.
  destruct Hact as [Hdrag Horb].
  eexists _, calls. split; [reflexivity |]. cbn [main.recogniser main.controller
                                                main.last_seq].
  split; [reflexivity |]. split; [reflexivity |]. split.
  - destruct (existsb is_drag calls); [| reflexivity].
    destruct (Hdrag eq_refl) as [_ H]. exfalso. apply H. reflexivity.
  - intros Hcur. destruct (FusionController._orbiting c); [| reflexivity].
    destruct (Horb eq_refl) as [H _]. contradiction.
Qed.

Lemma loop_absent (ps : list Poll) :
  forall (l : main.t) (k : Z),
    (0 <= _gesture_streak (main.recogniser l))%Z ->
    (_candidate (main.recogniser l) = IDLE
     /\ (k <= _gesture_streak (main.recogniser l))%Z) \/ k = 0%Z ->
    Forall (fun p => poll_hand p = None) ps ->
    all_new (main.last_seq l) ps ->
    exists l' calls,
      main.loop l ps = (l', calls, None)
      /\ existsb is_drag calls = false
      /\ (ps <> [] -> (cfg.GESTURE_CONFIDENCE_FRAMES <= k + Z.of_nat (length ps))%Z ->
          _current_gesture (main.recogniser l') = IDLE
          /\ FusionController._orbiting (main.controller l') = false).
Proof.
  induction ps as [| p ps IH]; intros l k Hpos Hk Hall Hnew.
  - exists l, []. split; [reflexivity |]. split; [reflexivity |]. congruence.
  - inversion Hall as [| ? ? Hp Hps]; subst.
    cbn [all_new] in Hnew. destruct Hnew as [Hseq Hnew].
    destruct (iteration_absent l p Hp Hseq)
      as (l1 & calls1 & Hit & Hr1 & Hlast & Hdrag & Horb).
    cbn [main.loop]. rewrite Hit.
    assert (Hcand : _candidate (main.recogniser l1) = IDLE)
      by (rewrite Hr1; apply set_gesture_candidate).
    assert (Hstreak : (k + 1 <= _gesture_streak (main.recogniser l1))%Z).
    { rewrite Hr1, set_gesture_streak.
      change (_candidate (_reset_smooth ?s)) with (_candidate s).
      change (_gesture_streak (_reset_smooth ?s)) with (_gesture_streak s).
      destruct Hk as [[-> Hk] | ->]; [simpl; lia |].
      destruct (Gesture_eqb IDLE _); lia. }
    assert (Hpos1 : (1 <= _gesture_streak (main.recogniser l1))%Z)
      by (rewrite Hr1; apply set_gesture_streak_pos; exact Hpos).
    rewrite <- Hlast in Hnew.
    destruct (IH l1 (k + 1)%Z) as (l' & calls & Hloop & Hdrag' & Hidle);
      [lia | left; split; assumption | exact Hps | exact Hnew |].
    rewrite Hloop. exists l', (calls1 ++ calls).
    split; [reflexivity |].
    split; [rewrite existsb_app, Hdrag, Hdrag'; reflexivity |].
    intros _ Hn. destruct ps as [| p' ps'].
    + cbn [main.loop] in Hloop. injection Hloop as <- _.
      assert (Hcur : _current_gesture (main.recogniser l1) = IDLE).
      { rewrite Hr1, set_gesture_current. rewrite <- Hr1.
        destruct (Z.leb_spec cfg.GESTURE_CONFIDENCE_FRAMES
                    (_gesture_streak (main.recogniser l1)));
          [reflexivity | cbn [length] in Hn; lia]. }
      split; [exact Hcur |]. apply Horb. rewrite Hcur. discriminate.
    + apply Hidle; [discriminate |]. cbn [length] in *. lia.
Qed.

(** X21. Losing the hand ends the drag.  From any state the main loop can
    be in, passes that see new frames without a hand never raise, send no
    press and no move, and from the third such pass on the recogniser has
    Idle confirmed and the middle button is released. *)
Theorem lost_hand_releases_the_button :
  forall (ps0 ps : list Poll) (l : main.t) (calls0 : list MouseCall),
    main.loop main.init ps0 = (l, calls0, None) ->
    Forall (fun p => poll_hand p = None) ps ->
    all_new (main.last_seq l) ps ->
    exists l' calls,
      main.loop l ps = (l', calls, None)
      /\ existsb is_drag calls = false
      /\ ((3 <= length ps)%nat ->
          _current_gesture (main.recogniser l') = IDLE
          /\ FusionController._orbiting (main.controller l') = false).
Proof.
  intros ps0 ps l calls0 Hloop0 Hall Hnew.
  assert (Hreach : reachable (main.recogniser l))
    by (eapply (loop_reachable ps0 main.init); [constructor | exact Hloop0]).
  apply reachable_streak_nonneg in Hreach.
  destruct (loop_absent ps l 0%Z Hreach (or_intror eq_refl) Hall Hnew)
    as (l' & calls & Hloop & Hdrag & Hidle).
  exists l', calls. split; [exact Hloop |]. split; [exact Hdrag |].
  intros Hn. apply Hidle.
  - destruct ps; [cbn in Hn; lia | discriminate].
  - unfold cfg.GESTURE_CONFIDENCE_FRAMES. lia.
Qed.

Lemma lost_hand_releases_the_button_witness :
  exists (l : main.t) (calls0 : list MouseCall),
    (main.loop main.init drifting_polls = (l, calls0, None)
     /\ Forall (fun p => poll_hand p = None) lost_hand_polls
     /\ all_new (main.last_seq l) lost_hand_polls)
    /\ exists l' calls,
         main.loop l lost_hand_polls = (l', calls, None)
         /\ existsb is_drag calls = false
         /\ ((3 <= length lost_hand_polls)%nat ->
             _current_gesture (main.recogniser l') = IDLE
             /\ FusionController._orbiting (main.controller l') = false).
Proof.
  destruct drifting_polls_loop as (l & calls0 & Hloop & Hlast).
  assert (Hall : Forall (fun p => poll_hand p = None) lost_hand_polls)
    by (repeat constructor).
  assert (Hnew : all_new (main.last_seq l) lost_hand_polls)
    by (rewrite Hlast; cbn; repeat split; discriminate).
  exists l, calls0.
  split; [split; [exact Hloop | split; [exact Hall | exact Hnew]] |].
  exact (lost_hand_releases_the_button drifting_polls lost_hand_polls l calls0
           Hloop Hall Hnew).
Defined.

(** Passes that are all processed feed the recogniser the ticks of their
    polls, one by one; when none of its outputs is Orbit, nothing is
    dragged. *)
Lemma loop_run (ps : list Poll) :
  forall l l' calls,
    all_new (main.last_seq l) ps ->
    main.loop l ps = (l', calls, None) ->
    exists outs,
      run (main.recogniser l) (map poll_tick ps) = inr (main.recogniser l', outs)
      /\ (Forall (fun out => fst out <> ORBIT) outs ->
          existsb is_drag calls = false).
Proof.
  induction ps as [| p ps IH]; intros l l' calls Hnew Hloop.
  - injection Hloop as <- <-. exists []. split; [reflexivity | reflexivity].
  - cbn [all_new] in Hnew. destruct Hnew as [Hseq Hnew].
    cbn [main.loop] in Hloop.
    destruct (main.iteration l p) as [e | [l1 calls1]] eqn:Hit; [discriminate |].
    destruct (main.loop l1 ps) as [[l2 more] e] eqn:Hrest.
    injection Hloop as <- <- ->.
    apply iteration_inv in Hit
      as [(Heq & _) | (_ & Hlast & g & pay & Htick & Hact)]; [contradiction |].
    rewrite <- Hlast in Hnew.
    destruct (IH l1 l2 more Hnew Hrest) as (outs & Hrun & Hdrag).
    exists ((g, pay) :: outs). split.
    + cbn [map]. apply (run_cons_inr _ _ _ _ _ _ _ Htick Hrun).
    + intros Hall. inversion Hall as [| ? ? Hg Houts]; subst. cbn [fst] in Hg.
      rewrite existsb_app, (Hdrag Houts), orb_false_r.
      pose proof (act_drag (main.controller l) g pay (poll_now_zoom p)) as Hd.
      cbn zeta in Hd. rewrite Hact in Hd. cbn [fst snd] in Hd.
      destruct (existsb is_drag calls1); [| reflexivity].
      destruct Hd as [Hd _]. destruct (Hd eq_refl) as [-> _]. contradiction.
Qed.

(** X22. No drag during the cooldown.  Let the recogniser hold a zoom-end
    stamp of [T] or later with a confirmed gesture other than Orbit.  While
    the main loop processes frames whose classification readings lie in
    [[T, T + 0.3)], it sends no press of the middle button and no pointer
    move, however the hand moves; Orbit is not confirmed at the end. *)
Theorem no_drag_during_cooldown :
  forall (T : R) (ps : list Poll) (l l' : main.t) (calls : list MouseCall),
    _current_gesture (main.recogniser l) <> ORBIT ->
    T <= _zoom_end_time (main.recogniser l) ->
    all_new (main.last_seq l) ps ->
    classify_readings_in T (T + 0.3) (map poll_tick ps) ->
    main.loop l ps = (l', calls, None) ->
    existsb is_drag calls = false
    /\ _current_gesture (main.recogniser l') <> ORBIT.
Proof.
  intros T ps l l' calls Hcur Hzet Hnew Hclock Hloop.
  destruct (loop_run ps l l' calls Hnew Hloop) as (outs & Hrun & Hdrag).
  destruct (cooldown_window T (map poll_tick ps) _ _ _ Hcur Hzet Hclock Hrun)
    as (Houts & _ & Hcur' & _).
  split; [| exact Hcur'].
  apply Hdrag. eapply Forall_impl; [| exact Houts].
  intros out [Hg _]. exact Hg.
Qed.

Lemma no_drag_during_cooldown_witness :
  exists (l' : main.t) (calls : list MouseCall),
    (_current_gesture (main.recogniser main.init) <> ORBIT
     /\ 0 <= _zoom_end_time (main.recogniser main.init)
     /\ all_new (main.last_seq main.init) early_drifting_polls
     /\ classify_readings_in 0 (0 + 0.3) (map poll_tick early_drifting_polls)
     /\ main.loop main.init early_drifting_polls = (l', calls, None))
    /\ (existsb is_drag calls = false
        /\ _current_gesture (main.recogniser l') <> ORBIT)
    /\ exists l0 calls0,
         main.loop main.init drifting_polls = (l0, calls0, None)
         /\ existsb is_drag calls0 = true.
Proof.
  assert (Hcur : _current_gesture (main.recogniser main.init) <> ORBIT)
    by discriminate.
  assert (Hzet : 0 <= _zoom_end_time (main.recogniser main.init))
    by (simpl; lra).
  assert (Hnew : all_new (main.last_seq main.init) early_drifting_polls)
    by (cbn; repeat split; discriminate).
  assert (Hclock : classify_readings_in 0 (0 + 0.3)
                     (map poll_tick early_drifting_polls))
    by (unfold classify_readings_in; cbn; repeat constructor; lra).
  pose proof (loop_errors early_drifting_polls main.init reachable_init)
    as [Hok _].
  destruct (main.loop main.init early_drifting_polls) as [[l' calls] e] eqn:Hloop.
  cbn [snd] in Hok.
  assert (He : e = None)
    by (apply Hok; unfold early_drifting_polls;
        repeat (constructor; [apply hand_of_poll_sound; lra |]); constructor).
  subst e. exists l', calls.
  split; [split; [exact Hcur | split; [exact Hzet | split; [exact Hnew
            | split; [exact Hclock | reflexivity]]]] |].
  split;
    [exact (no_drag_during_cooldown 0 early_drifting_polls main.init l' calls
              Hcur Hzet Hnew Hclock Hloop) |].
  destruct drifting_polls_passes as (_ & l4 & px & py & _ & _ & Hdrift).
  exists l4, [press_middle; move px py]. split; [exact Hdrift | reflexivity].
Defined.

(** ** A hand of constant openness *)






(** ** The main loop: scrolling *)

(** X24. The wheel turns only for a confirmed zoom.  When a pass of the
    main loop scrolls, the frame was new, the scroll is the only one of the
    pass, it is vertical, by 3 with ZoomIn confirmed or by -3 with ZoomOut
    confirmed, the pass read the clock at least 0.05 s after the last
    scroll, and the middle button is free afterwards. *)
Theorem scroll_needs_confirmed_zoom :
  forall (l l' : main.t) (p : Poll) (calls : list MouseCall) (m : MouseCall),
    main.iteration l p = inr (l', calls) ->
    In m calls ->
    is_scroll m = true ->
    poll_seq p <> main.last_seq l
    /\ filter is_scroll calls = [m]
    /\ ((m = scroll 0 3 /\ _current_gesture (main.recogniser l') = ZOOM_IN)
        \/ (m = scroll 0 (-3) /\ _current_gesture (main.recogniser l') = ZOOM_OUT))
    /\ 0.05 <= poll_now_zoom p
               - FusionController._last_zoom_time (main.controller l)
    /\ FusionController._last_zoom_time (main.controller l') = poll_now_zoom p
    /\ FusionController._orbiting (main.controller l') = false.
Proof.
  intros l l' p calls m Hit Hin Hm.
  apply iteration_inv in Hit
    as [(_ & _ & ->) | (Hne & _ & g & pay & Htick & Hact)]; [destruct Hin |].
  apply tick_shape in Htick. cbn zeta in Htick.
  destruct Htick as (_ & _ & Hg & _).
  pose proof (act_scroll (main.controller l) g pay (poll_now_zoom p)) as Hs.
  pose proof (act_drag (main.controller l) g pay (poll_now_zoom p)) as Hd.
  cbn zeta in Hs, Hd. rewrite Hact in Hs, Hd. cbn [fst snd] in Hs, Hd.
  destruct Hs as [[Hnone _] | (_ & Hlast & Hgap & Hzoom & Hf)].
  { exfalso. assert (Hex : existsb is_scroll calls = true)
      by (apply existsb_exists; exists m; split; assumption).
    congruence. }
  assert (Hm' : In m (filter is_scroll calls))
    by (apply filter_In; split; assumption).
  rewrite Hf in Hm'. destruct Hm' as [<- | []].
  split; [exact Hne |]. split; [exact Hf |].
  split.
  { rewrite <- Hg. destruct Hzoom as [-> | ->];
      [left | right]; split; reflexivity. }
  split; [exact Hgap |]. split; [exact Hlast |].
  destruct Hd as [_ Horb].
  destruct (FusionController._orbiting (main.controller l')); [| reflexivity].
  destruct (Horb eq_refl) as [Horbit _].
  destruct Hzoom as [-> | ->]; discriminate.
Qed.

Lemma scroll_needs_confirmed_zoom_witness :
  exists (l l' : main.t) (calls : list MouseCall),
    (main.iteration l (mkPoll (Some (hand_of 0.9 0.5 0.5)) 8 10.23 10.23 10.23)
     = inr (l', calls)
     /\ In (scroll 0 3) calls
     /\ is_scroll (scroll 0 3) = true)
    /\ 8%Z <> main.last_seq l
    /\ filter is_scroll calls = [scroll 0 3]
    /\ ((scroll 0 3 = scroll 0 3
         /\ _current_gesture (main.recogniser l') = ZOOM_IN)
        \/ (scroll 0 3 = scroll 0 (-3)
            /\ _current_gesture (main.recogniser l') = ZOOM_OUT))
    /\ 0.05 <= 10.23 - FusionController._last_zoom_time (main.controller l)
    /\ FusionController._last_zoom_time (main.controller l') = 10.23
    /\ FusionController._orbiting (main.controller l') = false.
Proof.
  destruct zoom_confirmed_state as (s & Hreach & Hcur & Hspeed).
  destruct (tick_emits s (hand_of 0.9 0.5 0.5) 10.23 10.23 ZOOM_IN Hreach)
    as (s' & Htick & _ & _ & _ & Hcur').
  { simpl. lia. }
  { apply hand_of_in_range. lra. }
  { intros s1 o sx sy _ Hs1. apply classify_speed_zoom. rewrite Hs1. exact Hspeed. }
  assert (Hzoom : _current_gesture s' = ZOOM_IN)
    by (rewrite Hcur'; destruct (_ <=? _)%Z; [reflexivity | exact Hcur]).
  rewrite Hzoom in Htick.
  set (p := mkPoll (Some (hand_of 0.9 0.5 0.5)) 8 10.23 10.23 10.23).
  set (l := {| main.recogniser := s;
               main.controller := FusionController.__init__;
               main.last_seq := 7 |}).
  set (l' := {| main.recogniser := s';
                main.controller :=
                  {| FusionController._orbiting := false;
                     FusionController._last_zoom_time := 10.23 |};
                main.last_seq := 8 |}).
  assert (Hit : main.iteration l p = inr (l', [scroll 0 3])).
  { unfold main.iteration. rewrite update_poll_tick.
    change (negb (poll_seq p =? main.last_seq l)%Z) with true. cbv iota.
    change (tick (main.recogniser l) (poll_tick p))
      with (tick s (Present (hand_of 0.9 0.5 0.5) 10.23 10.23)).
    rewrite Htick. cbn [bind].
    unfold FusionController.act, FusionController._end_orbit,
      FusionController._do_zoom.
    cbn [Gesture_eqb main.controller l FusionController.__init__
         FusionController._orbiting FusionController._last_zoom_time
         poll_now_zoom p poll_seq app].
    rewrite flt_false by (unfold cfg.ZOOM_SCROLL_INTERVAL; lra).
    reflexivity. }
  exists l, l', [scroll 0 3].
  split; [split; [exact Hit | split; [left; reflexivity | reflexivity]] |].
  exact (scroll_needs_confirmed_zoom l l' p [scroll 0 3] (scroll 0 3) Hit
           (or_introl eq_refl) eq_refl).
Defined.
